(** * Husky ML: synchronous gradient descent over a shared parameter vector

    A shallow embedding of [lib/ml/sgd.hpp], [lib/ml/model.hpp],
    [lib/ml/regression.hpp], [lib/ml/svm.hpp], of the two loops of
    [examples/svm_fgd.cpp] and of the driver of [examples/svm.cpp],
    followed by the properties of the training round,
    of early stopping, of the SVM closures and of the error paths.

    Numbers.  [FeatureT] and [LabelT] are instantiated with [double] in both
    drivers.  A finite double is idealised as an exact rational ([Qc], the
    canonical rationals, so that equality is Leibniz equality): rounding,
    overflow and infinities are outside the model.  The one non-finite value
    the code produces on its own, the quotient [0.0 / 0] of [avg_error] on an
    empty dataset, is kept as an explicit [NaN]; a quotient by a zero sample
    count inside [update_param] ends the modelled run with [NonFinite].

    Integers.  An [int] is a 32-bit integer in two's complement, carried
    by a [Z]; where the code adds 1 to a count that it was given
    ([_num_features + 1]), the sum wraps around as on the machine.

    Vectors.  The embedding follows the dense instantiation
    ([is_sparse = false]): a vector is the list of its components and its
    feature/value iteration visits every index in increasing order. *)

From Stdlib Require Import String List ZArith QArith Qcanon Bool Lia Field.
Import ListNotations.

Set Implicit Arguments.
Open Scope nat_scope.

(** ** Outcomes of fallible operations *)

Inductive error : Type :=
| AssertFailed (msg : string)   (* ASSERT_MSG whose condition is false *)
| BadFunctionCall               (* call through an empty std::function *)
| OutOfRange                    (* index past the end of a vector *)
| NonFinite.                    (* quotient by a zero sample count *)

Inductive result (A : Type) : Type :=
| Ok (a : A)
| Err (e : error).

Arguments Ok {A} a.
Arguments Err {A} e.

Definition bind {A B : Type} (c : result A) (k : A -> result B) : result B :=
  match c with
  | Ok a => k a
  | Err e => Err e
  end.

Notation "x <- c ;; k" := (bind c (fun x => k))
  (at level 61, c at next level, right associativity).

(** Modelled from the spec: the macro [ASSERT_MSG] of [core/utils.hpp] is not
    among the sources.  A configuration error is "raised at call time, not
    recoverable, intended to abort the job": the operation stops with the
    message of the assertion. *)
Definition ASSERT_MSG (cond : bool) (msg : string) : result unit :=
  if cond then Ok tt else Err (AssertFailed msg).

(** [list_execute(data, ..., f)]: the closure is applied to every locally
    held record, in order; the first failure aborts. *)
Fixpoint list_execute {O S : Type} (f : S -> O -> result S) (data : list O) (s : S)
  : result S :=
  match data with
  | [] => Ok s
  | o :: rest => s' <- f s o ;; list_execute f rest s'
  end.

(** ** Numbers *)

Definition of_int (z : Z) : Qc := Q2Qc (inject_Z z).

Definition Qc_ltb (a b : Qc) : bool :=
  match (a ?= b)%Qc with Lt => true | _ => false end.

Definition Qc_leb (a b : Qc) : bool :=
  match (a ?= b)%Qc with Gt => false | _ => true end.

(** An [int] has 32 bits in two's complement: [INT_MIN .. INT_MAX], and a sum
    that leaves this range wraps around, [INT_MAX + 1] being [INT_MIN]. *)
Definition INT_MAX : Z := 2147483647.

Definition INT_MIN : Z := -2147483648.

Definition int_wrap (z : Z) : Z :=
  ((z + 2147483648) mod 4294967296 - 2147483648)%Z.

Definition int_add (a b : Z) : Z := int_wrap (a + b).

(** A double that may be the not-a-number produced by [0.0 / 0]. *)
Inductive dbl : Type :=
| Num (q : Qc)
| NaN.

(** [a == 0.0] and [a > b] on doubles: every comparison with NaN is false. *)
Definition dbl_is_zero (a : dbl) : bool :=
  match a with
  | Num q => Qc_eq_bool q 0
  | NaN => false
  end.

Definition dbl_gt (a b : dbl) : bool :=
  match a, b with
  | Num x, Num y => Qc_ltb y x
  | _, _ => false
  end.

(** [sum / n] for a double [sum] and an int [n], as [avg_error] computes it
    on the sum of an empty or non-empty run. *)
Definition dbl_div_int (sum : Qc) (n : Z) : dbl :=
  if (n =? 0)%Z then NaN else Num (sum / of_int n)%Qc.

(** ** Dense vectors *)

Module Vec.

(** Modelled from the spec: [lib/vector.hpp] is not among the sources.  A
    dense [Vector<double, false>] ("sparse_or_dense_vector<double>") is the
    list of its components.  The operations of this module are the ones the
    closures of [svm.hpp] and the round of [sgd.hpp] call, with the meaning
    the spec gives them (w.x + b with the bias as last parameter, y.x for the
    weight block). *)
Definition Vector : Type := list Qc.

(** Modelled from the spec: [get_feature_num()], the number of components. *)
Definition get_feature_num (v : Vector) : nat := length v.

(** Modelled from the spec: [begin_feaval() .. end_feaval()], the gradient
    components [(featureIndex, value)], in increasing order of index. *)
Definition feaval (v : Vector) : list (nat * Qc) :=
  combine (seq 0 (length v)) v.

(** [v[i] += d] on an index known to be in range. *)
Fixpoint add_at (i : nat) (d : Qc) (v : Vector) : Vector :=
  match v, i with
  | [], _ => []
  | a :: rest, O => (a + d)%Qc :: rest
  | a :: rest, S j => a :: add_at j d rest
  end.

(** Modelled from the spec: [v[i] += d].  An "out-of-range parameter
    access" is a "programming error, fatal": it ends the modelled run. *)
Definition add_assign (i : nat) (d : Qc) (v : Vector) : result Vector :=
  if i <? length v then Ok (add_at i d v) else Err OutOfRange.

(** Modelled from the spec: the read [v[i]], fatal past the end. *)
Definition at_ (v : Vector) (i : nat) : result Qc :=
  match nth_error v i with
  | Some a => Ok a
  | None => Err OutOfRange
  end.

(** Modelled from the spec: [v *= c], every component times [c]. *)
Definition scale (c : Qc) (v : Vector) : Vector := map (fun a => (a * c)%Qc) v.

(** Modelled from the spec: [v.resize(n)], truncated or extended with
    zeros to [n] components. *)
Definition resize (n : nat) (v : Vector) : Vector :=
  firstn n v ++ repeat 0%Qc (n - length v).

(** Modelled from the spec: [v.set(i, a)], component [i] becomes [a]. *)
Fixpoint set (i : nat) (a : Qc) (v : Vector) : Vector :=
  match v, i with
  | [], _ => []
  | _ :: rest, O => a :: rest
  | b :: rest, S j => b :: set j a rest
  end.

(** Modelled from the spec: "w.x" for a weight block and a record of the
    same width, the sum of the products of their components.  Neither the
    spec nor the sources under study say what the product is when the widths
    differ; the sum written here then ends with the shorter vector, and the
    properties of the closures below are to be read at equal widths. *)
Fixpoint dot (w x : Vector) : Qc :=
  match w, x with
  | a :: w', b :: x' => (a * b + dot w' x')%Qc
  | _, _ => 0%Qc
  end.

(** Modelled from the spec: [param.dot_with_intcpt(x)] is "w.x + b", the
    weights being all the parameters but the last, which is the bias. *)
Definition dot_with_intcpt (param x : Vector) : Qc :=
  (dot (removelast param) x + last param 0)%Qc.

(** Pointwise sum of two vectors of the same length. *)
Fixpoint add (u v : Vector) : Vector :=
  match u, v with
  | a :: u', b :: v' => (a + b)%Qc :: add u' v'
  | _, _ => u
  end.

Definition zeros (n : nat) : Vector := repeat 0%Qc n.

End Vec.

Import Vec.

(** [LabeledPointHObj<double, double, false>] of [feature_label.hpp]. *)
Record LabeledPointHObj : Type := mkObj { x : Vector; y : Qc }.

(** ** The shared parameter store *)

Module ParameterBucket.

(** Modelled from the spec: [lib/ml/parameter.hpp] is not among the sources.
    The store is shared through the aggregator: "each worker contributes a
    partial value each round; all workers receive the identical summed
    result".  A worker's handle holds [value], the globally synchronised
    vector that [param_at] and the whole-vector snapshot [get_all_param]
    read, and [pending], the sum of the deltas this worker has contributed
    with [update] since the last barrier; the barrier adds every worker's
    [pending] to [value], each exactly once. *)
Record t : Type := mk { value : Vector; pending : Vector }.

(** Modelled from the spec: "init(size, fill)". *)
Definition init (n : nat) (fill : Qc) : t :=
  {| value := repeat fill n; pending := zeros n |}.

(** Modelled from the spec: a default-constructed bucket, before any
    [init], holds no parameter. *)
Definition empty : t := {| value := []; pending := [] |}.

(** A handle right after a barrier whose result is [v]. *)
Definition synced (v : Vector) : t :=
  {| value := v; pending := zeros (length v) |}.

(** Modelled from the spec: "paramCount() -> int". *)
Definition get_num_param (p : t) : nat := length (value p).

(** Modelled from the spec: "get(index) -> double, fails with OutOfRange if
    index >= size". *)
Definition param_at (p : t) (i : nat) : result Qc := at_ (value p) i.

(** Modelled from the spec: "snapshot() -> immutable vector copy" of the
    synchronised vector. *)
Definition get_all_param (p : t) : Vector := value p.

(** Modelled from the spec: "update(index, delta)" adds [delta] to this
    worker's contribution, to be "reflected exactly once in the post-barrier
    snapshot". *)
Definition update (i : nat) (d : Qc) (p : t) : result t :=
  if i <? length (value p)
  then Ok {| value := value p; pending := add_at i d (pending p) |}
  else Err OutOfRange.

(** Modelled from the spec: the end-of-round barrier seen from the store;
    the contributions of all the workers are summed into the synchronised
    vector. *)
Definition barrier (v : Vector) (contributions : list Vector) : Vector :=
  fold_left Vec.add contributions v.

End ParameterBucket.

(** ** lib/ml/sgd.hpp *)

Module SGD.

Import ParameterBucket.

(** The fields of [SGD] and of its base [GradientDescentBase]
    ([gradient_func_], [learning_rate_]). *)
Record t : Type := mk {
  gradient_func_ : option (LabeledPointHObj -> Vector -> Vector);
  learning_rate_ : Qc;
  regularization_flag_ : bool;
  regularization_norm_ : Z;
  lambda_ : Qc
}.

(** [SGD(_gradient_func, _learning_rate)]: the flag starts false; the norm
    and lambda are not initialised and are read only under the flag. *)
Definition make (g : option (LabeledPointHObj -> Vector -> Vector)) (lr : Qc) : t :=
  {| gradient_func_ := g; learning_rate_ := lr;
     regularization_flag_ := false; regularization_norm_ := 0%Z; lambda_ := 0%Qc |}.

Definition set_regularization (norm : Z) (lambda : Qc) (gd : t) : t :=
  {| gradient_func_ := gradient_func_ gd; learning_rate_ := learning_rate_ gd;
     regularization_flag_ := true; regularization_norm_ := norm; lambda_ := lambda |}.

(** [for (i = 0; i < get_num_param(); ++i)
       update(i, - param_at(i) * learning_rate_ * lambda_)],
    written as the loop from index [i] over [n] remaining indices. *)
Fixpoint l2_loop (gd : t) (n i : nat) (p : ParameterBucket.t)
  : result ParameterBucket.t :=
  match n with
  | O => Ok p
  | S n' =>
      a <- param_at p i ;;
      p' <- update i (- a * learning_rate_ gd * lambda_ gd)%Qc p ;;
      l2_loop gd n' (S i) p'
  end.

Definition l2_regularize (gd : t) (p : ParameterBucket.t) : result ParameterBucket.t :=
  l2_loop gd (get_num_param p) 0 p.

(** What the closure of [update_param] captures by reference and mutates:
    the local copy and the store handle.  [grad_calls] is a ghost log of the
    parameter vectors handed to the gradient function, oldest first. *)
Record Worker : Type := mkWorker {
  current_vec : Vector;
  param_list : ParameterBucket.t;
  grad_calls : list Vector
}.

(** The inner [for] over the components of one gradient. *)
Fixpoint apply_grad (lr : Qc) (num_local_samples num_global_samples : Z)
         (fv : list (nat * Qc)) (cv : Vector) (p : ParameterBucket.t)
  : result (Vector * ParameterBucket.t) :=
  match fv with
  | [] => Ok (cv, p)
  | (fea, val) :: rest =>
      let delta := (val * lr)%Qc in
      cv' <- add_assign fea delta cv ;;
      _ <- (if (num_global_samples =? 0)%Z then Err NonFinite else Ok tt) ;;
      p' <- update fea (delta * of_int num_local_samples / of_int num_global_samples)%Qc p ;;
      apply_grad lr num_local_samples num_global_samples rest cv' p'
  end.

(** The body of the closure passed to [list_execute]. *)
Definition on_obj (g : LabeledPointHObj -> Vector -> Vector) (lr : Qc)
           (num_local_samples num_global_samples : Z)
           (w : Worker) (this_obj : LabeledPointHObj) : result Worker :=
  let grad := g this_obj (current_vec w) in
  r <- apply_grad lr num_local_samples num_global_samples (feaval grad)
                  (current_vec w) (param_list w) ;;
  Ok {| current_vec := fst r; param_list := snd r;
        grad_calls := grad_calls w ++ [current_vec w] |}.

Definition update_param (gd : t) (data : list LabeledPointHObj)
           (param_list : ParameterBucket.t) (num_global_samples : Z)
  : result Worker :=
  _ <- ASSERT_MSG (negb (Qc_eq_bool (learning_rate_ gd) 0)) "Learning rate is set to 0." ;;
  _ <- ASSERT_MSG (match gradient_func_ gd with Some _ => true | None => false end)
                  "Gradient function is not specified." ;;
  match gradient_func_ gd with
  | None => Err BadFunctionCall
  | Some g =>
      let num_local_samples := Z.of_nat (length data) in
      let current_vec := get_all_param param_list in
      p <- (if regularization_flag_ gd then
              match regularization_norm_ gd with
              | 1%Z => Ok param_list          (* TODO: l1_regularize(param_list) *)
              | 2%Z => l2_regularize gd param_list
              | _ => Ok param_list
              end
            else Ok param_list) ;;
      list_execute (on_obj g (learning_rate_ gd) num_local_samples num_global_samples)
                   data
                   {| current_vec := current_vec; param_list := p; grad_calls := [] |}
  end.

End SGD.


(** ** The workers of one job

    Every worker runs the same program on its own partition; a dataset is
    the list of the partitions, one per worker. *)

(** Runs [f] on every worker's partition; a failure on one worker fails the
    job. *)
Fixpoint each_worker {D S : Type} (f : D -> result S) (parts : list D)
  : result (list S) :=
  match parts with
  | [] => Ok []
  | d :: rest => s <- f d ;; ss <- each_worker f rest ;; Ok (s :: ss)
  end.

(** Modelled from the spec: [lib/aggregator.hpp] is not among the sources.
    An aggregator created with the closure [a += b] is "a collective
    operation that sums per-worker partial values into a globally-visible
    total"; [get_value] returns that total on every worker. *)
Definition Aggregator_sum_int (locals : list Z) : Z := fold_left Z.add locals 0%Z.

Definition Aggregator_sum (locals : list Qc) : Qc := fold_left Qcplus locals 0%Qc.

(** One lock-step round of [update_param]: every worker starts from the
    handle synchronised on [v], runs its own optimizer over its partition,
    and the barrier sums the contributions. *)
Definition sgd_round (jobs : list (SGD.t * list LabeledPointHObj)) (v : Vector)
           (num_global_samples : Z) : result Vector :=
  ws <- each_worker
          (fun job => SGD.update_param (fst job) (snd job)
                                       (ParameterBucket.synced v) num_global_samples)
          jobs ;;
  Ok (ParameterBucket.barrier
        v (map (fun w => ParameterBucket.pending (SGD.param_list w)) ws)).

(** ** lib/ml/model.hpp *)

Module Model.

Import ParameterBucket.

Record t : Type := mk {
  gradient_func_ : option (LabeledPointHObj -> Vector -> Vector);
  error_func_ : option (LabeledPointHObj -> ParameterBucket.t -> result Qc);
  predict_func_ : option (LabeledPointHObj -> ParameterBucket.t -> result Qc);
  param_list_ : ParameterBucket.t;
  num_feature_ : Z;
  trained_ : bool;
  report_per_round : bool
}.

(** [Model() {}] with the default member initialisers. *)
Definition default : t :=
  {| gradient_func_ := None; error_func_ := None; predict_func_ := None;
     param_list_ := ParameterBucket.empty; num_feature_ := (-1)%Z;
     trained_ := false; report_per_round := false |}.

Definition with_param_list (p : ParameterBucket.t) (m : t) : t :=
  {| gradient_func_ := gradient_func_ m; error_func_ := error_func_ m;
     predict_func_ := predict_func_ m; param_list_ := p;
     num_feature_ := num_feature_ m; trained_ := trained_ m;
     report_per_round := report_per_round m |}.

Definition with_trained (b : bool) (m : t) : t :=
  {| gradient_func_ := gradient_func_ m; error_func_ := error_func_ m;
     predict_func_ := predict_func_ m; param_list_ := param_list_ m;
     num_feature_ := num_feature_ m; trained_ := b;
     report_per_round := report_per_round m |}.

(** [if (_num_param > 0) param_list_.init(_num_param, 0.0);]  The function
    is [void] and has no failing path; it is given a [result] so that its
    outcome can be compared with those of the fallible operations. *)
Definition set_num_param (_num_param : Z) (m : t) : result t :=
  if (0 <? _num_param)%Z
  then Ok (with_param_list (init (Z.to_nat _num_param) 0%Qc) m)
  else Ok m.

(** [explicit Model(int _num_param)]. *)
Definition make (_num_param : Z) : result t := set_num_param _num_param default.

Definition get_num_param (m : t) : nat := ParameterBucket.get_num_param (param_list_ m).

Definition set_predict_func (f : LabeledPointHObj -> ParameterBucket.t -> result Qc) (m : t) : t :=
  {| gradient_func_ := gradient_func_ m; error_func_ := error_func_ m;
     predict_func_ := Some f; param_list_ := param_list_ m;
     num_feature_ := num_feature_ m; trained_ := trained_ m;
     report_per_round := report_per_round m |}.

Definition set_error_func (f : LabeledPointHObj -> ParameterBucket.t -> result Qc) (m : t) : t :=
  {| gradient_func_ := gradient_func_ m; error_func_ := Some f;
     predict_func_ := predict_func_ m; param_list_ := param_list_ m;
     num_feature_ := num_feature_ m; trained_ := trained_ m;
     report_per_round := report_per_round m |}.

Definition set_gradient_func (f : LabeledPointHObj -> Vector -> Vector) (m : t) : t :=
  {| gradient_func_ := Some f; error_func_ := error_func_ m;
     predict_func_ := predict_func_ m; param_list_ := param_list_ m;
     num_feature_ := num_feature_ m; trained_ := trained_ m;
     report_per_round := report_per_round m |}.

(** A call through a [std::function] member: an empty one throws
    [std::bad_function_call]. *)
Definition call {A B C : Type} (f : option (A -> B -> result C)) (a : A) (b : B)
  : result C :=
  match f with
  | Some f => f a b
  | None => Err BadFunctionCall
  end.

Definition is_set {A : Type} (f : option A) : bool :=
  match f with Some _ => true | None => false end.

(** [predict(data)] on one worker: the label of every record is overwritten
    with the prediction. *)
Fixpoint predict_each (m : t) (data : list LabeledPointHObj)
  : result (list LabeledPointHObj) :=
  match data with
  | [] => Ok []
  | this_obj :: rest =>
      y' <- call (predict_func_ m) this_obj (param_list_ m) ;;
      rest' <- predict_each m rest ;;
      Ok ({| x := x this_obj; y := y' |} :: rest')
  end.

Definition predict (m : t) (data : list LabeledPointHObj)
  : result (list LabeledPointHObj) :=
  _ <- ASSERT_MSG (is_set (predict_func_ m)) "Predict function is not specified." ;;
  predict_each m data.

(** The closure of [avg_error]: [error_agg.update(error_func_(obj, param_list_));
    num_samples_agg.update(1)] on the local parts of the two aggregators. *)
Definition avg_error_obj (m : t) (acc : Qc * Z) (this_obj : LabeledPointHObj)
  : result (Qc * Z) :=
  e <- call (error_func_ m) this_obj (param_list_ m) ;;
  Ok ((fst acc + e)%Qc, (snd acc + 1)%Z).

Definition avg_error (m : t) (data : list (list LabeledPointHObj)) : result dbl :=
  locals <- each_worker (fun part => list_execute (avg_error_obj m) part (0%Qc, 0%Z)) data ;;
  let num_samples := Aggregator_sum_int (map snd locals) in
  let global_error := Aggregator_sum (map fst locals) in
  let mean_error := dbl_div_int global_error num_samples in
  Ok mean_error.

End Model.


(** ** lib/ml/regression.hpp *)

Module Regression.

Import ParameterBucket.

(** [list_execute(data, ..., num_samples_agg.update(1))] followed by
    [get_value()]: the global number of records. *)
Definition count_samples (data : list (list LabeledPointHObj)) : Z :=
  Aggregator_sum_int (map (fun part => Z.of_nat (length part)) data).

(** Every worker constructs the same optimizer and runs it on its partition. *)
Definition jobs_of (gd : SGD.t) (data : list (list LabeledPointHObj))
  : list (SGD.t * list LabeledPointHObj) :=
  map (fun part => (gd, part)) data.

(** The per-round report of [train]: the error function is evaluated on
    every record; the sum only reaches the log. *)
Definition report_obj (m : Model.t) (error_stat : Qc) (this_obj : LabeledPointHObj)
  : result Qc :=
  e <- Model.call (Model.error_func_ m) this_obj (Model.param_list_ m) ;;
  Ok (error_stat + e)%Qc.

Fixpoint train_loop (gd : SGD.t) (data : list (list LabeledPointHObj))
         (num_samples : Z) (n : nat) (m : Model.t) : result Model.t :=
  match n with
  | O => Ok m
  | S n' =>
      v <- sgd_round (jobs_of gd data) (value (Model.param_list_ m)) num_samples ;;
      let m' := Model.with_param_list (synced v) m in
      _ <- (if Model.report_per_round m'
            then each_worker (fun part => list_execute (report_obj m') part 0%Qc) data
            else Ok []) ;;
      train_loop gd data num_samples n' m'
  end.

Definition train (m : Model.t) (data : list (list LabeledPointHObj))
           (iters : Z) (learning_rate : Qc) : result Model.t :=
  _ <- ASSERT_MSG (0 <? Model.get_num_param m) "The number of parameters is 0." ;;
  _ <- ASSERT_MSG (Model.is_set (Model.gradient_func_ m))
                  "Gradient function is not specified." ;;
  _ <- ASSERT_MSG (Model.is_set (Model.error_func_ m))
                  "Error function is not specified." ;;
  let num_samples := count_samples data in
  let gd := SGD.make (Model.gradient_func_ m) learning_rate in
  m' <- train_loop gd data num_samples (Z.to_nat iters) m ;;
  Ok (Model.with_trained true m').

(** What a run of [train_test] leaves behind: the model, and two ghost
    observations, the number of calls of [update_param] each worker made and
    whether the branch logging "Early stopping invoked" was taken. *)
Record TrainTest : Type := mkTrainTest {
  model : Model.t;
  rounds_applied : nat;
  early_stopping_invoked : bool
}.

Section EarlyStopping.

(** One round of parameter updates and the held-out error of a parameter
    vector. *)
Variable step : Vector -> result Vector.
Variable held_out_error : Vector -> result dbl.

(** The [for] loop of [train_test] with [n] rounds left to run, [round]
    being the loop counter. *)
Fixpoint train_test_loop (n round : nat) (v : Vector) (pastError : dbl)
  : result (Vector * nat * bool) :=
  match n with
  | O => Ok (v, round, false)
  | S n' =>
      v' <- step v ;;
      currentError <- held_out_error v' ;;
      if dbl_is_zero currentError
         || (negb (round =? 0) && dbl_gt currentError pastError)
      then Ok (v', S round, true)
      else train_test_loop n' (S round) v' currentError
  end.

End EarlyStopping.

Definition train_test (m : Model.t) (data Test : list (list LabeledPointHObj))
           (iters : Z) (learning_rate : Qc) : result TrainTest :=
  _ <- ASSERT_MSG (0 <? Model.get_num_param m) "The number of parameters is 0." ;;
  _ <- ASSERT_MSG (Model.is_set (Model.gradient_func_ m))
                  "Gradient function is not specified." ;;
  _ <- ASSERT_MSG (Model.is_set (Model.error_func_ m))
                  "Error function is not specified." ;;
  let num_samples := count_samples data in
  let gd := SGD.make (Model.gradient_func_ m) learning_rate in
  r <- train_test_loop
         (fun v => sgd_round (jobs_of gd data) v num_samples)
         (fun v => Model.avg_error (Model.with_param_list (synced v) m) Test)
         (Z.to_nat iters) 0 (value (Model.param_list_ m)) (Num 0%Qc) ;;
  let '(v, rounds, early) := r in
  Ok {| model := Model.with_trained true (Model.with_param_list (synced v) m);
        rounds_applied := rounds;
        early_stopping_invoked := early |}.

End Regression.

(** ** lib/ml/svm.hpp *)

Module SVM.

Import ParameterBucket.

(** The gradient closure installed by [SVM(int _num_features)].  On an empty
    parameter vector the source indexes position [-1], which is undefined;
    the model then leaves the vector as it is. *)
Definition gradient_func_ (this_obj : LabeledPointHObj) (param : Vector) : Vector :=
  let y := y this_obj in
  let X := x this_obj in
  let prod := (dot_with_intcpt param X * y)%Qc in
  if Qc_ltb prod 1 then
    let X := scale y X in
    let num_param := get_feature_num param in
    let X := resize num_param X in
    let X := Vec.set (num_param - 1) y X in
    X
  else [].

(** [for (it ...) indicator += param_at(it->fea) * it->val]. *)
Fixpoint weighted_sum (at_index : nat -> result Qc) (fv : list (nat * Qc))
         (indicator : Qc) : result Qc :=
  match fv with
  | [] => Ok indicator
  | (fea, val) :: rest =>
      a <- at_index fea ;;
      weighted_sum at_index rest (indicator + a * val)%Qc
  end.

(** The error closure installed by [SVM(int _num_features)]. *)
Definition error_func_ (this_obj : LabeledPointHObj) (param_list : ParameterBucket.t)
  : result Qc :=
  let y := y this_obj in
  let X := x this_obj in
  indicator <- weighted_sum (param_at param_list) (feaval X) 0%Qc ;;
  b <- param_at param_list (get_num_param param_list - 1) ;;
  let indicator := (indicator + b)%Qc in
  let indicator := (indicator * y)%Qc in
  if Qc_leb indicator 0 then Ok 1%Qc else Ok 0%Qc.

(** [explicit SVM(int _num_features) : Model(_num_features + 1)], the sum
    being a sum of two ints. *)
Definition make (_num_features : Z) : result Model.t :=
  m <- Model.make (int_add _num_features 1) ;;
  Ok {| Model.gradient_func_ := Some gradient_func_;
        Model.error_func_ := Some error_func_;
        Model.predict_func_ := Model.predict_func_ m;
        Model.param_list_ := Model.param_list_ m;
        Model.num_feature_ := _num_features;
        Model.trained_ := Model.trained_ m;
        Model.report_per_round := Model.report_per_round m |}.

End SVM.

(** ** examples/svm_fgd.cpp: the evaluation on the test set *)

Module SvmFgd.

(** The closure of the final [list_execute] over [test_set], on the local
    parts [(error_agg, num_test_agg)] of the two aggregators. *)
Definition test_obj (bweight : Vector) (num_features : nat) (acc : Z * Z)
           (this_obj : LabeledPointHObj) : result (Z * Z) :=
  let y := y this_obj in
  let X := x this_obj in
  indicator <- SVM.weighted_sum (at_ bweight) (feaval X) 0%Qc ;;
  b <- at_ bweight num_features ;;
  let indicator := (indicator + b)%Qc in
  let indicator := (indicator * y)%Qc in
  let error_agg := if Qc_ltb indicator 0 then (fst acc + 1)%Z else fst acc in
  Ok (error_agg, (snd acc + 1)%Z).

(** The two totals the driver divides to report the error rate. *)
Definition test (bweight : Vector) (num_features : nat)
           (test_set : list (list LabeledPointHObj)) : result (Z * Z) :=
  locals <- each_worker
              (fun part => list_execute (test_obj bweight num_features) part (0%Z, 0%Z))
              test_set ;;
  Ok (Aggregator_sum_int (map fst locals), Aggregator_sum_int (map snd locals)).

End SvmFgd.


(** ** lib/ml/svm.hpp: the model with its regularization factor, and [train] *)

Module SVMTrain.

Import ParameterBucket.

(** An [SVM] object: its [Model] part and the private member [lambda_]. *)
Record t : Type := mk { base : Model.t; lambda_ : Qc }.

(** [explicit SVM(int _num_features)].  The member [lambda_] has no
    initialiser: [uninit] stands for whatever it holds before
    [set_regularization_factor]. *)
Definition construct (_num_features : Z) (uninit : Qc) : result t :=
  m <- SVM.make _num_features ;;
  Ok {| base := m; lambda_ := uninit |}.

Definition set_regularization_factor (_lambda : Qc) (s : t) : t :=
  {| base := base s; lambda_ := _lambda |}.

(** [num_samples_agg.update(data.get_size()); AggregatorFactory::sync();
    num_samples_agg.get_value()]. *)
Definition count_samples (data : list (list LabeledPointHObj)) : Z :=
  Aggregator_sum_int (map (fun part => Z.of_nat (length part)) data).

(** Every worker constructs the optimizer; the worker whose global thread
    id is 0, the holder of the first partition, sets L2 regularization. *)
Definition jobs_of (optimizer : SGD.t) (lambda : Qc)
           (data : list (list LabeledPointHObj))
  : list (SGD.t * list LabeledPointHObj) :=
  match data with
  | [] => []
  | part0 :: rest =>
      (SGD.set_regularization 2 lambda optimizer, part0)
      :: map (fun part => (optimizer, part)) rest
  end.

(** The closure of the per-round report: [prod] starts from the bias
    [param_at(num_feature_)], accumulates [param_at(fea) * val], and the loss
    grows by [1 - prod] when [prod < 1]. *)
Definition loss_obj (m : Model.t) (loss_agg : Qc) (this_obj : LabeledPointHObj)
  : result Qc :=
  let X := x this_obj in
  bias <- (if (Model.num_feature_ m <? 0)%Z then Err OutOfRange
           else param_at (Model.param_list_ m) (Z.to_nat (Model.num_feature_ m))) ;;
  prod <- SVM.weighted_sum (param_at (Model.param_list_ m)) (feaval X) bias ;;
  Ok (if Qc_ltb prod 1 then (loss_agg + (1 - prod))%Qc else loss_agg).

Fixpoint train_loop (jobs : list (SGD.t * list LabeledPointHObj))
         (data : list (list LabeledPointHObj)) (num_samples : Z) (n : nat)
         (m : Model.t) : result Model.t :=
  match n with
  | O => Ok m
  | S n' =>
      v <- sgd_round jobs (value (Model.param_list_ m)) num_samples ;;
      let m' := Model.with_param_list (synced v) m in
      _ <- (if Model.report_per_round m'
            then each_worker (fun part => list_execute (loss_obj m') part 0%Qc) data
            else Ok []) ;;
      train_loop jobs data num_samples n' m'
  end.

Definition train (s : t) (data : list (list LabeledPointHObj))
           (num_iters : Z) (learning_rate : Qc) : result t :=
  _ <- ASSERT_MSG (0 <? Model.get_num_param (base s)) "The number of parameters is 0." ;;
  let num_samples := count_samples data in
  let optimizer := SGD.make (Model.gradient_func_ (base s)) learning_rate in
  let jobs := jobs_of optimizer (lambda_ s) data in
  m' <- train_loop jobs data num_samples (Z.to_nat num_iters) (base s) ;;
  Ok {| base := Model.with_trained true m'; lambda_ := lambda_ s |}.

End SVMTrain.

(** ** examples/svm_fgd.cpp: the training loop *)

Module SvmFgdTrain.

Import ParameterBucket.

(** [double eta = 1. / (i + 1)]. *)
Definition eta (i : nat) : Qc := (1 / of_int (Z.of_nat i + 1))%Qc.

(** [for (idx ...; idx < num_features; idx++)
       { w = bweight[idx]; param_list.update(idx, - eta * w); }],
    written as the loop from [idx] over [n] remaining indices. *)
Fixpoint regularize (eta : Qc) (bweight : Vector) (n idx : nat)
         (p : ParameterBucket.t) : result ParameterBucket.t :=
  match n with
  | O => Ok p
  | S n' =>
      w <- at_ bweight idx ;;
      p' <- update idx (- eta * w)%Qc p ;;
      regularize eta bweight n' (S idx) p'
  end.

(** The [for] over the features of a record inside the margin:
    [x.val *= y; param_list.update(x.fea, eta * x.val / num_samples * C)]. *)
Fixpoint update_features (eta y C : Qc) (num_samples : Z) (fv : list (nat * Qc))
         (p : ParameterBucket.t) : result ParameterBucket.t :=
  match fv with
  | [] => Ok p
  | (fea, val) :: rest =>
      let val := (val * y)%Qc in
      _ <- (if (num_samples =? 0)%Z then Err NonFinite else Ok tt) ;;
      p' <- update fea (eta * val / of_int num_samples * C)%Qc p ;;
      update_features eta y C num_samples rest p'
  end.

(** The closure of the training [list_execute], on the store handle and the
    local part of [loss_agg]. *)
Definition train_obj (eta C : Qc) (num_samples : Z) (num_features : nat)
           (bweight : Vector) (st : ParameterBucket.t * Qc)
           (this_obj : LabeledPointHObj) : result (ParameterBucket.t * Qc) :=
  let y := y this_obj in
  let X := x this_obj in
  let prod := (dot_with_intcpt bweight X * y)%Qc in
  if Qc_ltb prod 1 then
    p <- update_features eta y C num_samples (feaval X) (fst st) ;;
    _ <- (if (num_samples =? 0)%Z then Err NonFinite else Ok tt) ;;
    p' <- update num_features (eta * y / of_int num_samples * C)%Qc p ;;
    Ok (p', (snd st + (1 - prod))%Qc)
  else Ok st.

(** The partitions paired with the test [get_global_tid() == 0]. *)
Definition with_tid0 {D : Type} (parts : list D) : list (bool * D) :=
  match parts with
  | [] => []
  | part0 :: rest => (true, part0) :: map (fun part => (false, part)) rest
  end.

(** The body of the main loop on one worker: the local copy, the decay of
    the weights on the worker of thread id 0, the pass over the records. *)
Definition worker (eta C : Qc) (num_samples : Z) (num_features : nat) (v : Vector)
           (job : bool * list LabeledPointHObj) : result (ParameterBucket.t * Qc) :=
  let param_list := synced v in
  let bweight := get_all_param param_list in
  p <- (if fst job then regularize eta bweight num_features 0 param_list
        else Ok param_list) ;;
  list_execute (train_obj eta C num_samples num_features bweight) (snd job) (p, 0%Qc).

(** Iteration [i] of the main loop over all the workers: the new
    synchronised parameters and the total of [loss_agg]. *)
Definition iteration (C : Qc) (num_features : nat)
           (train_set : list (list LabeledPointHObj)) (num_samples : Z)
           (i : nat) (v : Vector) : result (Vector * Qc) :=
  ws <- each_worker (worker (eta i) C num_samples num_features v) (with_tid0 train_set) ;;
  Ok (barrier v (map (fun w => pending (fst w)) ws), Aggregator_sum (map snd ws)).

(** [for (int i = 0; i < num_iter; i++)], with [n] iterations left. *)
Fixpoint main_loop (C : Qc) (num_features : nat)
         (train_set : list (list LabeledPointHObj)) (num_samples : Z)
         (n i : nat) (v : Vector) : result Vector :=
  match n with
  | O => Ok v
  | S n' =>
      r <- iteration C num_features train_set num_samples i v ;;
      main_loop C num_features train_set num_samples n' (S i) (fst r)
  end.

(** [svm()] after the data is loaded, [num_features] being the feature
    count that [load_data] returned: [param_list(num_features + 1)], the sum
    being a sum of two ints and the parameters starting from zero, the main
    loop, then the totals of the evaluation on the test set.  The store is
    the [init] of the spec for a positive count; at [INT_MAX] features the
    sum wraps around to a negative count, for which this model allocates no
    parameter and the properties below say nothing. *)
Definition svm (C : Qc) (num_features : nat)
           (train_set test_set : list (list LabeledPointHObj)) (num_iter : Z)
  : result (Z * Z) :=
  let param_list :=
    init (Z.to_nat (int_add (Z.of_nat num_features) 1)) 0%Qc in
  let num_samples :=
    Aggregator_sum_int (map (fun part => Z.of_nat (length part)) train_set) in
  v <- main_loop C num_features train_set num_samples (Z.to_nat num_iter) 0
                 (value param_list) ;;
  SvmFgd.test v num_features test_set.

End SvmFgdTrain.

(** ** examples/svm.cpp *)

Module SvmDriver.

(** [model.report_per_round = true;] *)
Definition set_report_per_round (b : bool) (s : SVMTrain.t) : SVMTrain.t :=
  {| SVMTrain.base :=
       {| Model.gradient_func_ := Model.gradient_func_ (SVMTrain.base s);
          Model.error_func_ := Model.error_func_ (SVMTrain.base s);
          Model.predict_func_ := Model.predict_func_ (SVMTrain.base s);
          Model.param_list_ := Model.param_list_ (SVMTrain.base s);
          Model.num_feature_ := Model.num_feature_ (SVMTrain.base s);
          Model.trained_ := Model.trained_ (SVMTrain.base s);
          Model.report_per_round := b |};
     SVMTrain.lambda_ := SVMTrain.lambda_ s |}.

(** [svm()] after the data is loaded and the configuration read: the model
    is built for [num_features], reports every round, is trained with [SGD]
    at rate [alpha] and factor [lambda], and its average error on the test
    set is the reported error rate. *)
Definition svm (lambda alpha : Qc) (num_features : Z)
           (train_set test_set : list (list LabeledPointHObj)) (num_iter : Z)
           (uninit : Qc) : result dbl :=
  model <- SVMTrain.construct num_features uninit ;;
  let model := set_report_per_round true model in
  let model := SVMTrain.set_regularization_factor lambda model in
  model <- SVMTrain.train model train_set num_iter alpha ;;
  let test_error := Model.avg_error (SVMTrain.base model) test_set in
  test_error.

End SvmDriver.

(** ** Reference descriptions

    Closed forms against which the embedded code is compared. *)

(** The sum of a list of numbers. *)
Definition sum_list (l : list Qc) : Qc := fold_right Qcplus 0%Qc l.

(** The stopping test of [train_test] on a sequence of held-out errors,
    [es r] being the error measured after round [r] (counted from 0):
    [currentError == 0.0 || (round != 0 && currentError > pastError)]. *)
Definition stop_cond (es : nat -> dbl) (r : nat) : bool :=
  dbl_is_zero (es r) || (negb (r =? 0) && dbl_gt (es r) (es (r - 1))).

(** The same test in words: the error is exactly zero, or the round is not
    the first and the error is strictly greater than the previous one. *)
Definition error_halts (es : nat -> dbl) (r : nat) : Prop :=
  es r = Num 0%Qc \/
  (r <> 0 /\ exists a b, es r = Num a /\ es (r - 1) = Num b /\ (b < a)%Qc).

(** The first round among [r, r+1, ..., r+n-1] at which the test holds. *)
Fixpoint first_stop (es : nat -> dbl) (r n : nat) : option nat :=
  match n with
  | O => None
  | S n' => if stop_cond es r then Some r else first_stop es (S r) n'
  end.

(** What one record does to the local copy of a worker: every component of
    its gradient, taken at the local copy, is added, scaled by the rate. *)
Definition local_step (g : LabeledPointHObj -> Vector -> Vector) (lr : Qc)
           (cv : Vector) (obj : LabeledPointHObj) : Vector :=
  fold_left (fun c fv => add_at (fst fv) (snd fv * lr)%Qc c) (feaval (g obj cv)) cv.

(** The local copy of a worker after a sequential pass over [data]. *)
Definition local_sgd (g : LabeledPointHObj -> Vector -> Vector) (lr : Qc)
           (data : list LabeledPointHObj) (cv : Vector) : Vector :=
  fold_left (local_step g lr) data cv.

(** The local copies met along that pass, one per record. *)
Fixpoint trace (g : LabeledPointHObj -> Vector -> Vector) (lr : Qc)
         (data : list LabeledPointHObj) (cv : Vector) : list Vector :=
  match data with
  | [] => []
  | obj :: rest => cv :: trace g lr rest (local_step g lr cv obj)
  end.

(** [(a - b) * num_local / num_global], component by component. *)
Fixpoint scaled_diff (num_local num_global : Z) (a b : Vector) : Vector :=
  match a, b with
  | u :: a', v :: b' =>
      ((u - v) * of_int num_local / of_int num_global)%Qc
      :: scaled_diff num_local num_global a' b'
  | _, _ => []
  end.

(** The L2 decay of a round: [- value * rate * lambda] on every index. *)
Definition decay (lr lambda : Qc) (v : Vector) : Vector :=
  map (fun a => (- a * lr * lambda)%Qc) v.

(** What the regularization step of an optimizer contributes to the store. *)
Definition reg_contribution (gd : SGD.t) (v : Vector) : Vector :=
  if SGD.regularization_flag_ gd && (SGD.regularization_norm_ gd =? 2)%Z
  then decay (SGD.learning_rate_ gd) (SGD.lambda_ gd) v
  else zeros (length v).

(** The gradient function returns vectors that fit in [n] parameters. *)
Definition in_range (g : LabeledPointHObj -> Vector -> Vector) (n : nat) : Prop :=
  forall obj cv, length cv = n -> length (g obj cv) <= n.

(** The round as the specification words it: every gradient is taken at the
    snapshot [v], and each of its components [(fea, val)] contributes
    [rate * val * num_local / num_global] to the store. *)
Definition frozen_contribution (g : LabeledPointHObj -> Vector -> Vector) (lr : Qc)
           (data : list LabeledPointHObj) (v : Vector) (num_global : Z) : Vector :=
  fold_left
    (fun pend obj =>
       fold_left
         (fun pd fv =>
            add_at (fst fv)
                   (lr * snd fv * of_int (Z.of_nat (length data)) / of_int num_global)%Qc pd)
         (feaval (g obj v)) pend)
    data (zeros (length v)).

(** What the weight decay of an iteration of [svm_fgd.cpp] contributes to the
    store: [- eta * w] on the weights, nothing on the bias. *)
Definition fgd_decay (eta : Qc) (num_features : nat) (v : Vector) : Vector :=
  map (fun a => (- eta * a)%Qc) (firstn num_features v)
  ++ zeros (length v - num_features).

(** What one record contributes to the store in an iteration of
    [svm_fgd.cpp], its margin being taken at the local copy [bweight]:
    [eta * (x y) / num_samples * C] on its features and
    [eta * y / num_samples * C] on the bias when the margin is below 1,
    nothing otherwise. *)
Definition fgd_gradient (eta C : Qc) (num_samples : Z) (num_features : nat)
           (bweight : Vector) (obj : LabeledPointHObj) : Vector :=
  if Qc_ltb (dot_with_intcpt bweight (x obj) * y obj)%Qc 1 then
    add_at num_features (eta * y obj / of_int num_samples * C)%Qc
           (fold_left
              (fun pd fv =>
                 add_at (fst fv) (eta * (snd fv * y obj) / of_int num_samples * C)%Qc pd)
              (feaval (x obj)) (zeros (length bweight)))
  else zeros (length bweight).

(** ** Concrete instances

    A one-feature SVM with weight 1 and bias 0, and four records. *)

Definition svm_1_0 : Model.t :=
  {| Model.gradient_func_ := Some SVM.gradient_func_;
     Model.error_func_ := Some SVM.error_func_;
     Model.predict_func_ := None;
     Model.param_list_ := ParameterBucket.synced [of_int 1; of_int 0];
     Model.num_feature_ := 1%Z;
     Model.trained_ := false;
     Model.report_per_round := false |}.

Definition pos_2 : LabeledPointHObj := {| x := [of_int 2]; y := of_int 1 |}.
Definition neg_1 : LabeledPointHObj := {| x := [of_int 1]; y := of_int (-1) |}.
Definition pos_1 : LabeledPointHObj := {| x := [of_int 1]; y := of_int 1 |}.
Definition neg_3 : LabeledPointHObj := {| x := [of_int (-3)]; y := of_int (-1) |}.

(** The value of the SVM error closure where it succeeds. *)
Definition svm_error_value (p : ParameterBucket.t) (obj : LabeledPointHObj) : Qc :=
  match SVM.error_func_ obj p with
  | Ok q => q
  | Err _ => 0%Qc
  end.

(** A model with one parameter whose gradient is constantly 1 and whose
    error function reads 1/2, 3/10, 2/5 at the parameter values 1, 2, 3. *)
Definition unit_gradient (_ : LabeledPointHObj) (_ : Vector) : Vector := [of_int 1].

Definition table_error (_ : LabeledPointHObj) (p : ParameterBucket.t) : result Qc :=
  a <- ParameterBucket.param_at p 0 ;;
  Ok (if Qc_eq_bool a (of_int 1) then (of_int 1 / of_int 2)%Qc
      else if Qc_eq_bool a (of_int 2) then (of_int 3 / of_int 10)%Qc
      else if Qc_eq_bool a (of_int 3) then (of_int 2 / of_int 5)%Qc
      else of_int 1).

Definition table_model : Model.t :=
  {| Model.gradient_func_ := Some unit_gradient;
     Model.error_func_ := Some table_error;
     Model.predict_func_ := None;
     Model.param_list_ := ParameterBucket.synced [of_int 0];
     Model.num_feature_ := 0%Z;
     Model.trained_ := false;
     Model.report_per_round := false |}.

Definition table_errors (r : nat) : dbl :=
  match r with
  | 0 => Num (of_int 1 / of_int 2)%Qc
  | 1 => Num (of_int 3 / of_int 10)%Qc
  | 2 => Num (of_int 2 / of_int 5)%Qc
  | _ => Num (of_int 1)
  end.

(** The model [table_model] with an error function that reads 1/2
    everywhere and never fails. *)
Definition flat_error (_ : LabeledPointHObj) (_ : ParameterBucket.t) : result Qc :=
  Ok (of_int 1 / of_int 2)%Qc.

Definition flat_model : Model.t := Model.set_error_func flat_error table_model.

(** Closed equations between rationals, vectors and outcomes are decided by
    evaluating both sides and comparing the underlying fractions. *)
Ltac qc_compute :=
  vm_compute;
  repeat match goal with
         | |- Ok _ = Ok _ => apply f_equal
         | |- Num _ = Num _ => apply f_equal
         | |- Some _ = Some _ => apply f_equal
         | |- (_, _) = (_, _) => apply f_equal2
         | |- _ :: _ = _ :: _ => apply f_equal2
         | |- @eq Qc _ _ => apply Qc_is_canon; reflexivity
         | |- _ => reflexivity
         end.

(** * Properties *)

(** ** Numbers *)

Lemma Qc_ltb_lt (a b : Qc) : Qc_ltb a b = true <-> (a < b)%Qc.
Proof.
  unfold Qc_ltb. rewrite Qclt_alt.
  destruct (a ?= b)%Qc; split; congruence.
Qed.

Lemma Qc_ltb_ge (a b : Qc) : Qc_ltb a b = false <-> (b <= a)%Qc.
Proof.
  split; intro H.
  - apply Qcnot_lt_le. intro L. apply Qc_ltb_lt in L. congruence.
  - destruct (Qc_ltb a b) eqn:E; [ | reflexivity ].
    apply Qc_ltb_lt in E. exfalso. exact (Qcle_not_lt _ _ H E).
Qed.

Lemma Qc_leb_le (a b : Qc) : Qc_leb a b = true <-> (a <= b)%Qc.
Proof.
  unfold Qc_leb. rewrite Qcle_alt.
  destruct (a ?= b)%Qc; split; congruence.
Qed.

Lemma Qc_leb_gt (a b : Qc) : Qc_leb a b = false <-> (b < a)%Qc.
Proof.
  split; intro H.
  - apply Qcnot_le_lt. intro L. apply Qc_leb_le in L. congruence.
  - destruct (Qc_leb a b) eqn:E; [ | reflexivity ].
    apply Qc_leb_le in E. exfalso. exact (Qclt_not_le _ _ H E).
Qed.

Lemma Qc_eq_bool_true_iff (a b : Qc) : Qc_eq_bool a b = true <-> a = b.
Proof.
  split.
  - apply Qc_eq_bool_correct.
  - intros ->. unfold Qc_eq_bool. destruct (Qc_eq_dec b b); congruence.
Qed.

Lemma Qc_eq_bool_false_iff (a b : Qc) : Qc_eq_bool a b = false <-> a <> b.
Proof.
  rewrite <- Qc_eq_bool_true_iff. destruct (Qc_eq_bool a b); split; congruence.
Qed.

Lemma of_int_neq_0 (z : Z) : z <> 0%Z -> of_int z <> 0%Qc.
Proof.
  intros Hz H. unfold of_int in H.
  apply Q2Qc_eq_iff in H. unfold Qeq in H. simpl in H. lia.
Qed.

Lemma of_int_1 : of_int 1 = 1%Qc.
Proof. reflexivity. Qed.

(** ** Vectors *)

Lemma add_at_length (i : nat) (d : Qc) (v : Vector) :
  length (add_at i d v) = length v.
Proof.
  revert i; induction v as [|a v IH]; intros [|i]; simpl; auto.
Qed.

Lemma add_at_nth (i j : nat) (d : Qc) (v : Vector) :
  nth j (add_at i d v) 0%Qc =
  if (i =? j) && (i <? length v) then (nth j v 0 + d)%Qc else nth j v 0%Qc.
Proof.
  revert i j; induction v as [|a v IH]; intros i j.
  - rewrite andb_false_r. destruct i; reflexivity.
  - destruct i as [|i], j as [|j]; simpl; try reflexivity.
    rewrite IH. reflexivity.
Qed.

Lemma add_length (u v : Vector) : length (Vec.add u v) = length u.
Proof.
  revert v; induction u as [|a u IH]; intros [|b v]; simpl; auto.
Qed.

Lemma add_nth (j : nat) (u v : Vector) :
  length u = length v ->
  nth j (Vec.add u v) 0%Qc = (nth j u 0 + nth j v 0)%Qc.
Proof.
  revert j v; induction u as [|a u IH]; intros j [|b v] H; simpl in H; try discriminate.
  - destruct j; simpl; ring.
  - destruct j; simpl; [ reflexivity | apply IH; lia ].
Qed.

Lemma zeros_length (n : nat) : length (zeros n) = n.
Proof. apply repeat_length. Qed.

Lemma zeros_nth (j n : nat) : nth j (zeros n) 0%Qc = 0%Qc.
Proof.
  revert j; induction n as [|n IH]; intros [|j]; simpl; auto.
Qed.

Lemma vector_ext (u v : Vector) :
  length u = length v ->
  (forall j, nth j u 0%Qc = nth j v 0%Qc) ->
  u = v.
Proof.
  intros HL HN. apply nth_ext with (d := 0%Qc) (d' := 0%Qc); auto.
Qed.

Lemma feaval_in_range (v : Vector) (fea : nat) (val : Qc) :
  In (fea, val) (feaval v) -> fea < length v.
Proof.
  unfold feaval. intro H. apply in_combine_l in H. apply in_seq in H. lia.
Qed.

Lemma set_length (i : nat) (a : Qc) (v : Vector) : length (Vec.set i a v) = length v.
Proof.
  revert i; induction v as [|b v IH]; intros [|i]; simpl; auto.
Qed.

Lemma set_last (v : Vector) (a b : Qc) :
  Vec.set (length v) b (v ++ [a]) = v ++ [b].
Proof.
  induction v as [|c v IH]; simpl; [ reflexivity | now rewrite IH ].
Qed.

Lemma resize_one_more (v : Vector) : resize (S (length v)) v = v ++ [0%Qc].
Proof.
  unfold resize. rewrite firstn_all2 by lia.
  replace (S (length v) - length v) with 1 by lia. reflexivity.
Qed.

Lemma scale_length (c : Qc) (v : Vector) : length (scale c v) = length v.
Proof. apply length_map. Qed.

Lemma dot_with_intcpt_split (w xs : Vector) (b : Qc) :
  dot_with_intcpt (w ++ [b]) xs = (dot w xs + b)%Qc.
Proof.
  unfold dot_with_intcpt. now rewrite removelast_last, last_last.
Qed.

(** ** The SVM closures *)

(** The accumulation loop of the two error closures computes the dot product
    of the weights with the features. *)
Lemma weighted_sum_dot (pre w xs : Vector) (acc : Qc) :
  length xs <= length w ->
  SVM.weighted_sum (at_ (pre ++ w)) (combine (seq (length pre) (length xs)) xs) acc
  = Ok (acc + dot w xs)%Qc.
Proof.
  revert pre w acc; induction xs as [|b xs IH]; intros pre w acc H.
  - simpl. f_equal. destruct w; simpl; ring.
  - destruct w as [|a w]; simpl in H; [ lia | ].
    simpl. unfold at_ at 1.
    rewrite nth_error_app2 by lia. rewrite Nat.sub_diag. simpl.
    replace (pre ++ a :: w) with ((pre ++ [a]) ++ w) by now rewrite <- app_assoc.
    replace (S (length pre)) with (length (pre ++ [a])) by (rewrite length_app; simpl; lia).
    rewrite IH by lia. f_equal. ring.
Qed.

Lemma weighted_sum_feaval (w xs : Vector) (b : Qc) :
  length w = length xs ->
  SVM.weighted_sum (at_ (w ++ [b])) (feaval xs) 0%Qc = Ok (dot w xs).
Proof.
  intro H. unfold feaval.
  pose proof (weighted_sum_dot [] (w ++ [b]) xs 0%Qc) as G0.
  simpl in G0. rewrite G0 by (rewrite length_app; simpl; lia).
  f_equal.
  assert (G : forall u v : Vector, length u = length v -> dot (u ++ [b]) v = dot u v).
  { induction u as [|a u IHu]; intros [|c v] E; simpl in E; try discriminate; simpl; auto.
    rewrite IHu by lia. reflexivity. }
  rewrite G by assumption. ring.
Qed.

Lemma at_last (w : Vector) (b : Qc) : at_ (w ++ [b]) (length w) = Ok b.
Proof.
  unfold at_. rewrite nth_error_app2 by lia. now rewrite Nat.sub_diag.
Qed.

(** [SVM::error_func_] is the indicator of [y (w.x + b) <= 0]. *)
Lemma svm_error_func_indicator (w xs : Vector) (b lbl : Qc) (pend : Vector) :
  length w = length xs ->
  SVM.error_func_ {| x := xs; y := lbl |} {| ParameterBucket.value := w ++ [b];
                                            ParameterBucket.pending := pend |}
  = Ok (if Qc_leb (lbl * (dot w xs + b)) 0 then 1 else 0)%Qc.
Proof.
  intro H. unfold SVM.error_func_, ParameterBucket.param_at, ParameterBucket.get_num_param.
  simpl. rewrite weighted_sum_feaval by assumption. simpl.
  rewrite length_app. simpl. replace (length w + 1 - 1) with (length w) by lia.
  rewrite at_last. simpl.
  replace ((dot w xs + b) * lbl)%Qc with (lbl * (dot w xs + b))%Qc by ring.
  destruct (Qc_leb _ _); reflexivity.
Qed.

(** For every label, [SVM::error_func_] counts a record as an error exactly
    when [y (w.x + b) <= 0], the value 0 included. *)
Lemma svm_error_func_iff (w xs : Vector) (b lbl : Qc) (pend : Vector) :
  length w = length xs ->
  let p := {| ParameterBucket.value := w ++ [b]; ParameterBucket.pending := pend |} in
  let margin := (lbl * (dot w xs + b))%Qc in
  (SVM.error_func_ {| x := xs; y := lbl |} p = Ok 1%Qc <-> (margin <= 0)%Qc) /\
  (SVM.error_func_ {| x := xs; y := lbl |} p = Ok 0%Qc <-> (0 < margin)%Qc).
Proof.
  intros H p margin. unfold p. rewrite svm_error_func_indicator by assumption.
  fold margin. destruct (Qc_leb margin 0) eqn:E.
  - apply Qc_leb_le in E. split; split; intro G; auto.
    + exfalso. injection G as G. discriminate G.
    + exfalso. exact (Qcle_not_lt _ _ E G).
  - apply Qc_leb_gt in E. split; split; intro G; auto.
    + exfalso. injection G as G. discriminate G.
    + exfalso. exact (Qclt_not_le _ _ E G).
Qed.

(** C4. The SVM gradient closure is the hinge-loss subgradient: for an
    example [(x, y)] and parameters [(w, b)] with as many weights as the
    example has features, it returns the vector without components
    ([Vector(0)], for which the round applies no update) whenever the margin
    [y (w.x + b)] is at least 1, the value exactly 1 included, and the vector
    with weight block [y x] and bias component [y] whenever the margin is
    below 1. *)
Theorem svm_gradient_hinge (w xs : Vector) (b lbl : Qc) :
  length w = length xs ->
  let margin := (lbl * (dot w xs + b))%Qc in
  let grad := SVM.gradient_func_ {| x := xs; y := lbl |} (w ++ [b]) in
  ((1 <= margin)%Qc -> grad = [] /\ feaval grad = []) /\
  (margin = 1%Qc -> grad = []) /\
  ((margin < 1)%Qc -> grad = map (fun a => (lbl * a)%Qc) xs ++ [lbl]).
Proof.
  intros H margin grad. subst grad. unfold SVM.gradient_func_. simpl.
  rewrite dot_with_intcpt_split.
  replace ((dot w xs + b) * lbl)%Qc with margin by (unfold margin; ring).
  split; [ | split ].
  - intro G. apply Qc_ltb_ge in G. now rewrite G.
  - intro E. rewrite E. reflexivity.
  - intro L. apply Qc_ltb_lt in L. rewrite L.
    unfold get_feature_num. rewrite length_app. simpl.
    replace (length w + 1) with (S (length (scale lbl xs)))
      by (rewrite scale_length; lia).
    rewrite resize_one_more. simpl. rewrite Nat.sub_0_r.
    rewrite set_last. f_equal. unfold scale. apply map_ext. intro a. ring.
Qed.

Lemma svm_gradient_hinge_witness :
  SVM.gradient_func_ {| x := [of_int 2]; y := of_int 1 |} ([of_int 0] ++ [of_int 1]) = []
  /\ SVM.gradient_func_ {| x := [of_int 2]; y := of_int (-1) |} ([of_int 1] ++ [of_int 0])
     = map (fun a => (of_int (-1) * a)%Qc) [of_int 2] ++ [of_int (-1)].
Proof.
  split.
  - apply (svm_gradient_hinge [of_int 0] [of_int 2] (of_int 1) (of_int 1)).
    + reflexivity.
    + reflexivity.
  - apply (svm_gradient_hinge [of_int 1] [of_int 2] (of_int 0) (of_int (-1))).
    + reflexivity.
    + reflexivity.
Defined.

(** The evaluation loop of [svm_fgd.cpp] counts a test record exactly when
    [y (w.x + b)] is strictly negative. *)
Lemma svm_fgd_test_obj_strict (w xs : Vector) (b lbl : Qc) (errors tests : Z) :
  length w = length xs ->
  SvmFgd.test_obj (w ++ [b]) (length w) (errors, tests) {| x := xs; y := lbl |}
  = Ok (if Qc_ltb (lbl * (dot w xs + b)) 0 then (errors + 1)%Z else errors,
        (tests + 1)%Z).
Proof.
  intro H. unfold SvmFgd.test_obj. simpl.
  rewrite weighted_sum_feaval by assumption. simpl.
  rewrite at_last. simpl.
  replace ((dot w xs + b) * lbl)%Qc with (lbl * (dot w xs + b))%Qc by ring.
  reflexivity.
Qed.

(** C5. The error closure of [SVM] counts the record [x = (1), y = 1] under
    the all-zero parameters, whose margin [y (w.x + b)] is exactly 0, as an
    error; the evaluation loop of [svm_fgd.cpp], which tests [indicator < 0],
    counts no error for the same record and the same parameters. *)
Theorem svm_fgd_boundary_not_counted :
  let obj := {| x := [of_int 1]; y := of_int 1 |} in
  let w := [of_int 0] in
  let b := of_int 0 in
  (y obj * (dot w (x obj) + b))%Qc = 0%Qc /\
  SVM.error_func_ obj (ParameterBucket.synced (w ++ [b])) = Ok 1%Qc /\
  SvmFgd.test (w ++ [b]) 1 [[obj]] = Ok (0%Z, 1%Z).
Proof.
  repeat split; qc_compute.
Qed.

(** ** Configuration and error paths *)

Lemma predict_unset (m : Model.t) (data : list LabeledPointHObj) :
  Model.predict_func_ m = None ->
  Model.predict m data = Err (AssertFailed "Predict function is not specified.").
Proof.
  intro H. unfold Model.predict. now rewrite H.
Qed.

Lemma train_unset_gradient (m : Model.t) (data : list (list LabeledPointHObj))
      (iters : Z) (lr : Qc) :
  0 < Model.get_num_param m ->
  Model.gradient_func_ m = None ->
  Regression.train m data iters lr
  = Err (AssertFailed "Gradient function is not specified.").
Proof.
  intros Hn Hg. unfold Regression.train.
  apply Nat.ltb_lt in Hn. rewrite Hn, Hg. reflexivity.
Qed.

Lemma train_unset_error (m : Model.t) (data : list (list LabeledPointHObj))
      (iters : Z) (lr : Qc) :
  0 < Model.get_num_param m ->
  Model.gradient_func_ m <> None ->
  Model.error_func_ m = None ->
  Regression.train m data iters lr
  = Err (AssertFailed "Error function is not specified.").
Proof.
  intros Hn Hg He. unfold Regression.train.
  apply Nat.ltb_lt in Hn. rewrite Hn, He.
  destruct (Model.gradient_func_ m); [ reflexivity | congruence ].
Qed.

Lemma train_no_param (m : Model.t) (data : list (list LabeledPointHObj))
      (iters : Z) (lr : Qc) :
  Model.get_num_param m = 0 ->
  Regression.train m data iters lr
  = Err (AssertFailed "The number of parameters is 0.").
Proof.
  intro Hn. unfold Regression.train. rewrite Hn. reflexivity.
Qed.

Lemma train_test_no_param (m : Model.t) (data Test : list (list LabeledPointHObj))
      (iters : Z) (lr : Qc) :
  Model.get_num_param m = 0 ->
  Regression.train_test m data Test iters lr
  = Err (AssertFailed "The number of parameters is 0.").
Proof.
  intro Hn. unfold Regression.train_test. rewrite Hn. reflexivity.
Qed.

(** With no error function, [avg_error] reaches the call through the empty
    [std::function] on the first record it meets, and the unguarded quotient
    when it meets none. *)
Lemma avg_error_unset (m : Model.t) (data : list (list LabeledPointHObj)) :
  Model.error_func_ m = None ->
  Model.avg_error m data
  = if forallb (fun part => match part with [] => true | _ => false end) data
    then Ok NaN else Err BadFunctionCall.
Proof.
  intro H. unfold Model.avg_error.
  assert (G : forall parts,
             each_worker (fun part => list_execute (Model.avg_error_obj m) part (0%Qc, 0%Z))
                         parts
             = if forallb (fun part => match part with [] => true | _ => false end) parts
               then Ok (map (fun _ => (0%Qc, 0%Z)) parts) else Err BadFunctionCall).
  { induction parts as [|part parts IH]; [ reflexivity | ].
    simpl. destruct part as [|o part]; simpl.
    - rewrite IH. destruct (forallb _ parts); reflexivity.
    - unfold Model.avg_error_obj at 1. rewrite H. reflexivity. }
  rewrite G. destruct (forallb _ data); [ | reflexivity ].
  simpl. f_equal.
  assert (S1 : forall (parts : list (list LabeledPointHObj)) z,
             fold_left Z.add (map snd (map (fun _ => (0%Qc, 0%Z)) parts)) z = z).
  { induction parts; intro z; simpl; [ reflexivity | ].
    rewrite Z.add_0_r. apply IHparts. }
  unfold Aggregator_sum_int. rewrite S1. reflexivity.
Qed.

(** C6. On a model with one parameter and none of the three closures set,
    [predict] and [train] stop on their assertion, with the message that the
    function is not specified; [avg_error] has no such assertion: over a
    record it ends in the call through the empty [std::function], and over an
    empty dataset it returns the quotient [0.0 / 0] without any error. *)
Theorem avg_error_unset_error_func :
  let m := Model.with_param_list (ParameterBucket.init 1 0%Qc) Model.default in
  let obj := {| x := [of_int 1]; y := of_int 1 |} in
  Model.predict m [obj] = Err (AssertFailed "Predict function is not specified.") /\
  Regression.train m [[obj]] 1 (of_int 1)
  = Err (AssertFailed "Gradient function is not specified.") /\
  Model.avg_error m [[obj]] = Err BadFunctionCall /\
  Model.avg_error m [[]] = Ok NaN.
Proof.
  repeat split.
Qed.

(** C7 as stated fails: [set_num_param(0)] on a fresh model raises nothing
    and returns the model as it was. *)
Lemma set_num_param_zero_no_error :
  Model.set_num_param 0 Model.default = Ok Model.default /\
  forall e, Model.set_num_param 0 Model.default <> Err e.
Proof.
  split; [ reflexivity | intros e H; discriminate H ].
Qed.

(** C7, amended. [set_num_param(n)] allocates a store of [n] parameters, all
    zero, when [n > 0]; when [n <= 0] it raises nothing and leaves the model
    as it was, and the configuration error "The number of parameters is 0."
    is raised later, by [train] and [train_test], on a model built with such
    a count. *)
Theorem set_num_param_guard (n : Z) (m : Model.t) :
  ((0 < n)%Z ->
   Model.set_num_param n m
   = Ok (Model.with_param_list (ParameterBucket.init (Z.to_nat n) 0%Qc) m) /\
   (forall m', Model.set_num_param n m = Ok m' ->
               Model.get_num_param m' = Z.to_nat n /\
               forall i, i < Z.to_nat n ->
                         ParameterBucket.param_at (Model.param_list_ m') i = Ok 0%Qc)) /\
  ((n <= 0)%Z -> Model.set_num_param n m = Ok m) /\
  ((n <= 0)%Z ->
   Model.make n = Ok Model.default /\
   (forall data iters lr,
       Regression.train Model.default data iters lr
       = Err (AssertFailed "The number of parameters is 0.")) /\
   (forall data Test iters lr,
       Regression.train_test Model.default data Test iters lr
       = Err (AssertFailed "The number of parameters is 0."))).
Proof.
  unfold Model.make, Model.set_num_param.
  split; [ | split ].
  - intro H. apply Z.ltb_lt in H. rewrite H. split; [ reflexivity | ].
    intros m' E. injection E as <-.
    unfold Model.get_num_param, ParameterBucket.get_num_param,
      ParameterBucket.param_at, at_. simpl.
    rewrite repeat_length. split; [ reflexivity | ].
    intros i Hi. rewrite nth_error_repeat by assumption. reflexivity.
  - intro H. apply Z.ltb_ge in H. now rewrite H.
  - intro H. apply Z.ltb_ge in H. rewrite H. split; [ reflexivity | ].
    split; intros.
    + now apply train_no_param.
    + now apply train_test_no_param.
Qed.

Lemma set_num_param_guard_witness :
  Model.set_num_param (-3) Model.default = Ok Model.default /\
  Model.set_num_param 2 Model.default
  = Ok (Model.with_param_list (ParameterBucket.init 2 0%Qc) Model.default).
Proof.
  split.
  - apply (proj1 (proj2 (set_num_param_guard (-3) Model.default))). lia.
  - apply (proj1 (set_num_param_guard 2 Model.default)). lia.
Defined.

(** C8. Selecting L1 regularization changes nothing in a round: for every
    gradient function, rate, lambda, data and store, [update_param] with
    [set_regularization(1, lambda)] is [update_param] without regularization,
    outcome for outcome.  On the store [(3, -4)] with rate 1, lambda 1 and no
    record, the round with norm 1 succeeds and leaves [(3, -4)], where the
    round with norm 2 decays it to [(0, 0)]. *)
Theorem l1_regularization_silent_noop :
  (forall g lr lambda data p ng,
      SGD.update_param (SGD.set_regularization 1 lambda (SGD.make g lr)) data p ng
      = SGD.update_param (SGD.make g lr) data p ng) /\
  (let gd := SGD.make (Some SVM.gradient_func_) (of_int 1) in
   let v := [of_int 3; of_int (-4)] in
   sgd_round [(SGD.set_regularization 1 (of_int 1) gd, [])] v 0 = Ok v /\
   sgd_round [(SGD.set_regularization 2 (of_int 1) gd, [])] v 0
   = Ok [of_int 0; of_int 0]).
Proof.
  split.
  - intros. reflexivity.
  - split; qc_compute.
Qed.

(** ** Average error *)

Lemma fold_left_Zadd_shift (l : list Z) (z : Z) :
  fold_left Z.add l z = (z + fold_left Z.add l 0)%Z.
Proof.
  revert z; induction l as [|a l IH]; intro z; simpl; [ lia | ].
  rewrite IH, (IH a). lia.
Qed.

Lemma fold_left_Qcplus_sum (l : list Qc) (a : Qc) :
  fold_left Qcplus l a = (a + sum_list l)%Qc.
Proof.
  revert a; induction l as [|b l IH]; intro a; simpl; [ ring | ].
  rewrite IH. ring.
Qed.

Lemma sum_list_app (l1 l2 : list Qc) :
  sum_list (l1 ++ l2) = (sum_list l1 + sum_list l2)%Qc.
Proof.
  induction l1 as [|a l1 IH]; simpl; [ ring | ]. rewrite IH. ring.
Qed.

Section AvgError.

Variable m : Model.t.
Variable ef : LabeledPointHObj -> ParameterBucket.t -> result Qc.
Variable e : LabeledPointHObj -> Qc.
Hypothesis ef_set : Model.error_func_ m = Some ef.

(** The local pass of one worker accumulates the sum of the errors and the
    number of records of its partition. *)
Lemma avg_error_local (part : list LabeledPointHObj) (s : Qc) (n : Z) :
  (forall obj, In obj part -> ef obj (Model.param_list_ m) = Ok (e obj)) ->
  list_execute (Model.avg_error_obj m) part (s, n)
  = Ok ((s + sum_list (map e part))%Qc, (n + Z.of_nat (length part))%Z).
Proof.
  revert s n; induction part as [|obj part IH]; intros s n H.
  - simpl. f_equal. f_equal; [ ring | lia ].
  - cbn [list_execute]. unfold Model.avg_error_obj at 1.
    rewrite ef_set. cbn [Model.call]. rewrite (H obj) by now left.
    cbn [bind fst snd]. rewrite IH by (intros; apply H; now right).
    f_equal. f_equal; [ simpl; ring | simpl length; lia ].
Qed.

Lemma avg_error_workers (data : list (list LabeledPointHObj)) :
  (forall obj, In obj (concat data) -> ef obj (Model.param_list_ m) = Ok (e obj)) ->
  each_worker (fun part => list_execute (Model.avg_error_obj m) part (0%Qc, 0%Z)) data
  = Ok (map (fun part => (sum_list (map e part), Z.of_nat (length part))) data).
Proof.
  induction data as [|part data IH]; intro H; [ reflexivity | ].
  cbn [each_worker]. rewrite avg_error_local
    by (intros; apply H; simpl; apply in_or_app; now left).
  cbn [bind]. rewrite IH by (intros; apply H; simpl; apply in_or_app; now right).
  cbn [bind map]. f_equal. f_equal.
  rewrite Qcplus_0_l. reflexivity.
Qed.

Lemma avg_error_closed_form (data : list (list LabeledPointHObj)) :
  (forall obj, In obj (concat data) -> ef obj (Model.param_list_ m) = Ok (e obj)) ->
  Model.avg_error m data
  = Ok (dbl_div_int (sum_list (map e (concat data)))
                    (Z.of_nat (length (concat data)))).
Proof.
  intro H. unfold Model.avg_error. rewrite avg_error_workers by assumption.
  cbn [bind]. f_equal. rewrite !map_map. cbn [fst snd].
  unfold Aggregator_sum, Aggregator_sum_int. f_equal.
  - rewrite fold_left_Qcplus_sum. clear H.
    induction data as [|part data IH]; simpl; [ ring | ].
    rewrite map_app, sum_list_app. rewrite <- IH. ring.
  - clear H. induction data as [|part data IH]; [ reflexivity | ].
    simpl. rewrite fold_left_Zadd_shift, IH, length_app. lia.
Qed.

End AvgError.

(** C9. When the error function succeeds on every record, [avg_error]
    returns the sum of the error function over all the records of all the
    workers divided by the global number of records whenever that number is
    positive; the value is a function of the parameters and of the records
    only, the same however the records are distributed over the workers; the
    quotient is unguarded, and on an empty dataset the result is the
    not-a-number of [0.0 / 0], neither an error nor a chosen value. *)
Theorem avg_error_global_mean (m : Model.t)
        (ef : LabeledPointHObj -> ParameterBucket.t -> result Qc)
        (e : LabeledPointHObj -> Qc) (data : list (list LabeledPointHObj)) :
  Model.error_func_ m = Some ef ->
  (forall obj, In obj (concat data) -> ef obj (Model.param_list_ m) = Ok (e obj)) ->
  let n := length (concat data) in
  let total := sum_list (map e (concat data)) in
  (0 < n -> Model.avg_error m data = Ok (Num (total / of_int (Z.of_nat n))%Qc)) /\
  (n = 0 -> Model.avg_error m data = Ok NaN) /\
  Model.avg_error m data = Model.avg_error m [concat data].
Proof.
  intros Hef H n total.
  pose proof (avg_error_closed_form m e Hef data H) as C.
  fold n total in C.
  split; [ | split ].
  - intro Hn. rewrite C. unfold dbl_div_int.
    destruct (Z.eqb_spec (Z.of_nat n) 0); [ lia | reflexivity ].
  - intro Hn. rewrite C, Hn. reflexivity.
  - rewrite C. symmetry.
    rewrite (avg_error_closed_form m e Hef [concat data]).
    + simpl. rewrite app_nil_r. reflexivity.
    + simpl. rewrite app_nil_r. exact H.
Qed.

Lemma avg_error_global_mean_witness :
  Model.avg_error svm_1_0 [[pos_2; neg_1]; [pos_1; neg_3]]
  = Ok (Num (of_int 1 / of_int 4)%Qc)
  /\ Model.avg_error svm_1_0 [[]; []] = Ok NaN.
Proof.
  split.
  - pose proof (avg_error_global_mean svm_1_0
                  (svm_error_value (Model.param_list_ svm_1_0))
                  [[pos_2; neg_1]; [pos_1; neg_3]] eq_refl) as W.
    destruct W as [W _].
    + intros obj [<- | [<- | [<- | [<- | []]]]]; qc_compute.
    + rewrite W by (simpl; lia). qc_compute.
  - pose proof (avg_error_global_mean svm_1_0
                  (svm_error_value (Model.param_list_ svm_1_0))
                  [[]; []] eq_refl) as W.
    destruct W as [_ [W _]].
    + intros obj [].
    + apply W. reflexivity.
Defined.

(** ** Early stopping *)

Lemma stop_cond_iff (es : nat -> dbl) (r : nat) :
  stop_cond es r = true <-> error_halts es r.
Proof.
  unfold stop_cond, error_halts. rewrite orb_true_iff, andb_true_iff.
  split; intros [H | [H1 H2]].
  - left. destruct (es r) as [q|]; simpl in H; [ | discriminate ].
    apply Qc_eq_bool_true_iff in H. now subst.
  - right. split.
    + destruct (Nat.eqb_spec r 0); [ discriminate | assumption ].
    + destruct (es r) as [a|], (es (r - 1)) as [b|]; simpl in H2; try discriminate.
      exists a, b. repeat split. now apply Qc_ltb_lt.
  - left. rewrite H. reflexivity.
  - right. destruct H2 as (a & b & -> & -> & L). split.
    + destruct (Nat.eqb_spec r 0); [ contradiction | reflexivity ].
    + simpl. now apply Qc_ltb_lt.
Qed.

Lemma first_stop_some (es : nat -> dbl) (n r k : nat) :
  first_stop es r n = Some k <->
  r <= k < r + n /\ stop_cond es k = true /\
  (forall j, r <= j < k -> stop_cond es j = false).
Proof.
  revert r; induction n as [|n IH]; intro r; simpl.
  - split; [ discriminate | lia ].
  - destruct (stop_cond es r) eqn:E.
    + split.
      * intros [= <-]. split; [ lia | ]. split; [ assumption | ]. intros j Hj; lia.
      * intros (Hk & Hs & Hm). f_equal.
        destruct (Nat.eq_dec r k) as [|N]; [ assumption | ].
        rewrite (Hm r) in E by lia. discriminate.
    + rewrite IH. split.
      * intros (Hk & Hs & Hm). split; [ lia | ]. split; [ assumption | ].
        intros j Hj. destruct (Nat.eq_dec j r) as [->|]; [ assumption | apply Hm; lia ].
      * intros (Hk & Hs & Hm).
        assert (r <> k) by (intros ->; congruence).
        split; [ lia | ]. split; [ assumption | ]. intros j Hj. apply Hm. lia.
Qed.

Lemma first_stop_none (es : nat -> dbl) (n r : nat) :
  first_stop es r n = None <->
  (forall j, r <= j < r + n -> stop_cond es j = false).
Proof.
  revert r; induction n as [|n IH]; intro r; simpl.
  - split; [ intros _ j Hj; lia | reflexivity ].
  - destruct (stop_cond es r) eqn:E.
    + split; [ discriminate | ]. intro H. rewrite (H r) in E by lia. discriminate.
    + rewrite IH. split; intros H j Hj.
      * destruct (Nat.eq_dec j r) as [->|]; [ assumption | apply H; lia ].
      * apply H. lia.
Qed.

Section EarlyStoppingLoop.

Variable step : Vector -> result Vector.
Variable held_out_error : Vector -> result dbl.
Variable vs : nat -> Vector.
Variable es : nat -> dbl.

(** Along a run on which every round and every evaluation succeeds, the
    loop stops right after the first round whose error passes the test, and
    runs all its rounds when there is none. *)
Lemma train_test_loop_run (n r : nat) (pastError : dbl) :
  (r <> 0 -> pastError = es (r - 1)) ->
  (forall k, r <= k < r + n ->
             step (vs k) = Ok (vs (S k)) /\ held_out_error (vs (S k)) = Ok (es k)) ->
  Regression.train_test_loop step held_out_error n r (vs r) pastError
  = Ok (match first_stop es r n with
        | Some k => (vs (S k), S k, true)
        | None => (vs (r + n), r + n, false)
        end).
Proof.
  revert r pastError; induction n as [|n IH]; intros r pastError Hp Hrun.
  - simpl. now rewrite Nat.add_0_r.
  - cbn [Regression.train_test_loop first_stop].
    destruct (Hrun r) as [Hs He]; [ lia | ].
    rewrite Hs. cbn [bind]. rewrite He. cbn [bind].
    assert (C : dbl_is_zero (es r) || negb (r =? 0) && dbl_gt (es r) pastError
                = stop_cond es r).
    { unfold stop_cond. destruct (Nat.eqb_spec r 0) as [->|N]; [ reflexivity | ].
      now rewrite (Hp N). }
    rewrite C. destruct (stop_cond es r); [ reflexivity | ].
    rewrite IH.
    + now replace (S r + n) with (r + S n) by lia.
    + intros _. now replace (S r - 1) with r by lia.
    + intros k Hk. apply Hrun. lia.
Qed.

(** The same run, asking for the success of a round and of its evaluation
    only as long as no earlier round has passed the test: what would come
    after the stop is never executed, and may as well fail. *)
Lemma train_test_loop_run_until (n r : nat) (pastError : dbl) :
  (r <> 0 -> pastError = es (r - 1)) ->
  (forall k, r <= k < r + n ->
             (forall j, r <= j < k -> stop_cond es j = false) ->
             step (vs k) = Ok (vs (S k)) /\ held_out_error (vs (S k)) = Ok (es k)) ->
  Regression.train_test_loop step held_out_error n r (vs r) pastError
  = Ok (match first_stop es r n with
        | Some k => (vs (S k), S k, true)
        | None => (vs (r + n), r + n, false)
        end).
Proof.
  revert r pastError; induction n as [|n IH]; intros r pastError Hp Hrun.
  - simpl. now rewrite Nat.add_0_r.
  - cbn [Regression.train_test_loop first_stop].
    destruct (Hrun r) as [Hs He]; [ lia | intros j Hj; lia | ].
    rewrite Hs. cbn [bind]. rewrite He. cbn [bind].
    assert (C : dbl_is_zero (es r) || negb (r =? 0) && dbl_gt (es r) pastError
                = stop_cond es r).
    { unfold stop_cond. destruct (Nat.eqb_spec r 0) as [->|N]; [ reflexivity | ].
      now rewrite (Hp N). }
    rewrite C. destruct (stop_cond es r) eqn:E; [ reflexivity | ].
    rewrite IH.
    + now replace (S r + n) with (r + S n) by lia.
    + intros _. now replace (S r - 1) with r by lia.
    + intros k Hk Hprev. apply Hrun; [ lia | ].
      intros j Hj. destruct (Nat.eq_dec j r) as [->|N]; [ exact E | apply Hprev; lia ].
Qed.

End EarlyStoppingLoop.

(** C3 as stated fails.  With held-out errors 0.5, 0.3, 0.4 after the three
    rounds of a run with [iters = 3], the error after the third round is
    strictly greater than the one before it, so the stopping test holds at a
    round of the loop; yet the three rounds of updates have all been applied
    by then: training does not stop before completing [iters] rounds, and
    the equivalence of the claim is false on this run. *)
Lemma early_stop_at_last_round_applies_all_rounds :
  exists out,
    Regression.train_test table_model [[pos_1]] [[pos_1]] 3 (of_int 1) = Ok out /\
    Model.avg_error
      (Model.with_param_list (ParameterBucket.synced [of_int 1]) table_model) [[pos_1]]
    = Ok (Num (of_int 1 / of_int 2)%Qc) /\
    Model.avg_error
      (Model.with_param_list (ParameterBucket.synced [of_int 2]) table_model) [[pos_1]]
    = Ok (Num (of_int 3 / of_int 10)%Qc) /\
    Model.avg_error
      (Model.with_param_list (ParameterBucket.synced [of_int 3]) table_model) [[pos_1]]
    = Ok (Num (of_int 2 / of_int 5)%Qc) /\
    (of_int 3 / of_int 10 < of_int 2 / of_int 5)%Qc /\
    Regression.early_stopping_invoked out = true /\
    Regression.rounds_applied out = Z.to_nat 3 /\
    ParameterBucket.value (Model.param_list_ (Regression.model out)) = [of_int 3] /\
    ~ (Regression.rounds_applied out < Z.to_nat 3 <->
       exists r, r < Z.to_nat 3 /\ error_halts table_errors r).
Proof.
  eexists. split; [ vm_compute; reflexivity | ].
  split; [ qc_compute | ].
  split; [ qc_compute | ].
  split; [ qc_compute | ].
  split; [ reflexivity | ].
  split; [ reflexivity | ].
  split; [ reflexivity | ].
  split; [ qc_compute | ].
  cbn [Regression.rounds_applied]. intros [_ H].
  apply (Nat.lt_irrefl 3). apply H. exists 2. split; [ vm_compute; lia | ].
  apply stop_cond_iff. reflexivity.
Qed.

(** C3, amended.  On a run of [train_test], [es r] being the held-out error
    after round [r] (from 0), where each round and its evaluation succeed as
    long as no earlier round has passed the stopping test: the
    early-stopping branch is taken if and only if, at some round of the loop,
    the held-out error is exactly zero or, the round not being the first,
    strictly greater than the previous one; training then ends right after
    the first such round [r], with [r + 1] rounds of updates applied, so that
    fewer than [iters] rounds are applied exactly when such a round exists
    before the last one; otherwise all [iters] rounds are applied.  In
    particular with errors 0.5, 0.3, 0.4 training halts after the third
    round, having applied exactly 3 rounds of updates. *)
Theorem train_test_early_stop
        (m : Model.t) (g : LabeledPointHObj -> Vector -> Vector)
        (ef : LabeledPointHObj -> ParameterBucket.t -> result Qc)
        (data Test : list (list LabeledPointHObj)) (iters : Z) (lr : Qc)
        (vs : nat -> Vector) (es : nat -> dbl) :
  0 < Model.get_num_param m ->
  Model.gradient_func_ m = Some g ->
  Model.error_func_ m = Some ef ->
  vs 0 = ParameterBucket.value (Model.param_list_ m) ->
  (forall r, r < Z.to_nat iters ->
     (forall j, j < r -> ~ error_halts es j) ->
     sgd_round (Regression.jobs_of (SGD.make (Some g) lr) data) (vs r)
               (Regression.count_samples data) = Ok (vs (S r)) /\
     Model.avg_error (Model.with_param_list (ParameterBucket.synced (vs (S r))) m) Test
     = Ok (es r)) ->
  exists out,
    Regression.train_test m data Test iters lr = Ok out /\
    Model.trained_ (Regression.model out) = true /\
    (Regression.early_stopping_invoked out = true <->
     exists r, r < Z.to_nat iters /\ error_halts es r) /\
    (Regression.rounds_applied out < Z.to_nat iters <->
     exists r, S r < Z.to_nat iters /\ error_halts es r) /\
    (forall r, r < Z.to_nat iters -> error_halts es r ->
               (forall j, j < r -> ~ error_halts es j) ->
               Regression.rounds_applied out = S r /\
               ParameterBucket.value (Model.param_list_ (Regression.model out))
               = vs (S r)) /\
    ((forall r, r < Z.to_nat iters -> ~ error_halts es r) ->
     Regression.rounds_applied out = Z.to_nat iters /\
     ParameterBucket.value (Model.param_list_ (Regression.model out))
     = vs (Z.to_nat iters)) /\
    (3 <= Z.to_nat iters ->
     es 0 = Num (of_int 1 / of_int 2)%Qc ->
     es 1 = Num (of_int 3 / of_int 10)%Qc ->
     es 2 = Num (of_int 2 / of_int 5)%Qc ->
     Regression.rounds_applied out = 3 /\
     Regression.early_stopping_invoked out = true /\
     ParameterBucket.value (Model.param_list_ (Regression.model out)) = vs 3).
Proof.
  intros Hn Hg He H0 Hrun.
  set (n := Z.to_nat iters) in *.
  assert (L : Regression.train_test_loop
                (fun v => sgd_round (Regression.jobs_of (SGD.make (Some g) lr) data) v
                                    (Regression.count_samples data))
                (fun v => Model.avg_error
                            (Model.with_param_list (ParameterBucket.synced v) m) Test)
                n 0 (vs 0) (Num 0%Qc)
              = Ok (match first_stop es 0 n with
                    | Some k => (vs (S k), S k, true)
                    | None => (vs (0 + n), 0 + n, false)
                    end)).
  { apply train_test_loop_run_until; [ congruence | ]. intros k Hk Hprev.
    apply Hrun; [ lia | ].
    intros j Hj Hc. apply stop_cond_iff in Hc. rewrite Hprev in Hc by lia. discriminate. }
  assert (Halt : forall r, r < n -> error_halts es r ->
                           (forall j, j < r -> ~ error_halts es j) ->
                           first_stop es 0 n = Some r).
  { intros r Hr Hs Hm. apply first_stop_some. split; [ lia | ]. split.
    - now apply stop_cond_iff.
    - intros j Hj. destruct (stop_cond es j) eqn:E; [ | reflexivity ].
      apply stop_cond_iff in E. exfalso. apply (Hm j); [ lia | assumption ]. }
  unfold Regression.train_test.
  apply Nat.ltb_lt in Hn. rewrite Hn, Hg, He. cbn [ASSERT_MSG Model.is_set bind].
  fold n. rewrite <- H0, L. cbn [bind].
  destruct (first_stop es 0 n) as [k|] eqn:F.
  - apply first_stop_some in F. destruct F as (Hk & Hs & Hm).
    apply stop_cond_iff in Hs.
    assert (Hm' : forall j, j < k -> ~ error_halts es j).
    { intros j Hj Hc. apply stop_cond_iff in Hc. rewrite Hm in Hc by lia. discriminate. }
    assert (U : forall r, r < n -> error_halts es r ->
                          (forall j, j < r -> ~ error_halts es j) -> r = k).
    { intros r Hr Hsr Hmr.
      destruct (Nat.lt_trichotomy r k) as [Lt | [Eq | Gt]]; [ | assumption | ].
      - exfalso. exact (Hm' r Lt Hsr).
      - exfalso. exact (Hmr k Gt Hs). }
    eexists. split; [ reflexivity | ]. cbn.
    split; [ reflexivity | ].
    split; [ split; [ intros _; exists k; split; [ lia | assumption ] | reflexivity ] | ].
    split.
    { split.
      - intro Hlt. exists k. split; [ lia | assumption ].
      - intros (r & Hr & Hsr).
        destruct (Nat.le_gt_cases k r) as [Le | Gt]; [ cbn; lia | ].
        exfalso. exact (Hm' r Gt Hsr). }
    split.
    { intros r Hr Hsr Hmr. rewrite (U r Hr Hsr Hmr). split; reflexivity. }
    split.
    { intro Hnone. exfalso. apply (Hnone k); [ lia | assumption ]. }
    intros H3 E0 E1 E2.
    assert (K : 2 = k).
    { apply U; [ lia | | ].
      - apply stop_cond_iff. unfold stop_cond. simpl. rewrite E2, E1. now vm_compute.
      - intros j Hj Hc. apply stop_cond_iff in Hc. unfold stop_cond in Hc.
        destruct j as [|[|j]]; [ | | lia ]; simpl in Hc.
        + rewrite E0 in Hc. vm_compute in Hc. discriminate.
        + rewrite E1, E0 in Hc. vm_compute in Hc. discriminate. }
    subst k. repeat split.
  - pose proof (proj1 (first_stop_none es n 0) F) as Hnone.
    assert (Hnone' : forall r, r < n -> ~ error_halts es r).
    { intros r Hr Hc. apply stop_cond_iff in Hc. rewrite Hnone in Hc by lia. discriminate. }
    eexists. split; [ reflexivity | ]. cbn.
    split; [ reflexivity | ].
    split; [ split; [ discriminate | intros (r & Hr & Hs); exfalso; exact (Hnone' r Hr Hs) ] | ].
    split.
    { split; [ lia | ]. intros (r & Hr & Hs). exfalso. apply (Hnone' r); [ lia | assumption ]. }
    split.
    { intros r Hr Hs _. exfalso. exact (Hnone' r Hr Hs). }
    split.
    { intros _. split; reflexivity. }
    intros H3 E0 E1 E2. exfalso. apply (Hnone' 2); [ lia | ].
    apply stop_cond_iff. unfold stop_cond. simpl. rewrite E2, E1. now vm_compute.
Qed.

Lemma train_test_early_stop_witness :
  exists out,
    Regression.train_test table_model [[pos_1]] [[pos_1]] 5 (of_int 1) = Ok out /\
    Regression.rounds_applied out = 3 /\
    Regression.early_stopping_invoked out = true /\
    ParameterBucket.value (Model.param_list_ (Regression.model out)) = [of_int 3].
Proof.
  destruct (@train_test_early_stop table_model unit_gradient table_error
              [[pos_1]] [[pos_1]] 5 (of_int 1)
              (fun r => [of_int (Z.of_nat r)]) table_errors)
    as (out & E & _ & _ & _ & _ & _ & X).
  - vm_compute. lia.
  - reflexivity.
  - reflexivity.
  - reflexivity.
  - intros r Hr _. change (Z.to_nat 5) with 5 in Hr.
    destruct r as [|[|[|[|[|r]]]]]; [ | | | | | lia ]; split; qc_compute.
  - exists out. split; [ exact E | ].
    destruct X as (X1 & X2 & X3); [ vm_compute; lia | reflexivity .. | ].
    repeat split; assumption.
Defined.

(** ** One round of [update_param] *)

Lemma of_int_add (a b : Z) : of_int (a + b) = (of_int a + of_int b)%Qc.
Proof.
  unfold of_int. apply Qc_is_canon. unfold Qcplus, Q2Qc. cbn [this].
  rewrite !Qred_correct, inject_Z_plus. reflexivity.
Qed.

Lemma of_int_mul (a b : Z) : of_int (a * b) = (of_int a * of_int b)%Qc.
Proof.
  unfold of_int. apply Qc_is_canon. unfold Qcmult, Q2Qc. cbn [this].
  rewrite !Qred_correct, inject_Z_mult. reflexivity.
Qed.

Lemma add_zeros_l (v : Vector) : Vec.add (zeros (length v)) v = v.
Proof.
  induction v as [|a v IH]; [ reflexivity | ].
  change (zeros (length (a :: v))) with (0%Qc :: zeros (length v)).
  simpl. rewrite IH. f_equal. ring.
Qed.

Lemma add_at_app (p1 r : Vector) (b d : Qc) :
  add_at (length p1) d (p1 ++ b :: r) = p1 ++ (b + d)%Qc :: r.
Proof.
  induction p1 as [|a p1 IH]; simpl; [ reflexivity | now rewrite IH ].
Qed.

Lemma scaled_diff_length (nl ng : Z) (a b : Vector) :
  length a = length b -> length (scaled_diff nl ng a b) = length a.
Proof.
  revert b; induction a as [|u a IH]; intros [|v b] H; simpl in *; try discriminate; auto.
Qed.

Lemma scaled_diff_nth (nl ng : Z) (j : nat) (a b : Vector) :
  length a = length b ->
  nth j (scaled_diff nl ng a b) 0%Qc
  = ((nth j a 0 - nth j b 0) * of_int nl / of_int ng)%Qc.
Proof.
  revert j b; induction a as [|u a IH]; intros j [|v b] H; simpl in H; try discriminate.
  - destruct j; simpl; unfold Qcdiv; ring.
  - destruct j; simpl; [ reflexivity | apply IH; lia ].
Qed.

Lemma scaled_diff_same (nl ng : Z) (v : Vector) :
  scaled_diff nl ng v v = zeros (length v).
Proof.
  induction v as [|a v IH]; [ reflexivity | ].
  change (zeros (length (a :: v))) with (0%Qc :: zeros (length v)).
  simpl. rewrite IH. f_equal. unfold Qcdiv. ring.
Qed.

(** Adding [d] to the local copy and [d * nl / ng] to the contribution keeps
    the contribution equal to its start plus the scaled displacement of the
    local copy. *)
Lemma scaled_step (nl ng : Z) (i : nat) (d : Qc) (pend0 cv cv0 : Vector) :
  length cv = length cv0 ->
  length pend0 = length cv0 ->
  add_at i (d * of_int nl / of_int ng)%Qc (Vec.add pend0 (scaled_diff nl ng cv cv0))
  = Vec.add pend0 (scaled_diff nl ng (add_at i d cv) cv0).
Proof.
  intros Hc Hp. apply vector_ext.
  - now rewrite add_at_length, !add_length.
  - intro j. rewrite add_at_nth, add_length.
    rewrite !add_nth
      by (rewrite scaled_diff_length; rewrite ?add_at_length; congruence).
    rewrite !scaled_diff_nth by (rewrite ?add_at_length; congruence).
    rewrite add_at_nth. rewrite Hp, Hc.
    destruct ((i =? j) && (i <? length cv0)); unfold Qcdiv; ring.
Qed.

Lemma add_zeros_r (u : Vector) : Vec.add u (zeros (length u)) = u.
Proof.
  induction u as [|a u IH]; [ reflexivity | ].
  change (zeros (length (a :: u))) with (0%Qc :: zeros (length u)).
  simpl. rewrite IH. f_equal. ring.
Qed.

Lemma decay_length (lr lambda : Qc) (v : Vector) : length (decay lr lambda v) = length v.
Proof. apply length_map. Qed.

Lemma reg_contribution_length (gd : SGD.t) (v : Vector) :
  length (reg_contribution gd v) = length v.
Proof.
  unfold reg_contribution.
  destruct (_ && _); [ apply decay_length | apply zeros_length ].
Qed.

Lemma local_step_length (g : LabeledPointHObj -> Vector -> Vector) (lr : Qc)
      (cv : Vector) (obj : LabeledPointHObj) :
  length (local_step g lr cv obj) = length cv.
Proof.
  unfold local_step. generalize (feaval (g obj cv)). intro fv.
  revert cv; induction fv as [|[fea val] fv IH]; intro cv; simpl; [ reflexivity | ].
  rewrite IH. apply add_at_length.
Qed.

Lemma local_sgd_length (g : LabeledPointHObj -> Vector -> Vector) (lr : Qc)
      (data : list LabeledPointHObj) (cv : Vector) :
  length (local_sgd g lr data cv) = length cv.
Proof.
  unfold local_sgd. revert cv; induction data as [|obj data IH]; intro cv; simpl.
  - reflexivity.
  - rewrite IH. apply local_step_length.
Qed.

(** The L2 loop, from index [length v1] on, adds the decay of every remaining
    parameter to the worker's contribution and fails nowhere. *)
Lemma l2_loop_run (gd : SGD.t) (v2 v1 p1 p2 : Vector) :
  length p1 = length v1 ->
  length p2 = length v2 ->
  SGD.l2_loop gd (length v2) (length v1)
              {| ParameterBucket.value := v1 ++ v2; ParameterBucket.pending := p1 ++ p2 |}
  = Ok {| ParameterBucket.value := v1 ++ v2;
          ParameterBucket.pending :=
            p1 ++ Vec.add p2 (decay (SGD.learning_rate_ gd) (SGD.lambda_ gd) v2) |}.
Proof.
  revert v1 p1 p2; induction v2 as [|a v2 IH]; intros v1 p1 p2 H1 H2.
  - destruct p2; [ reflexivity | discriminate ].
  - destruct p2 as [|b p2]; [ discriminate | ]. simpl in H2.
    cbn [length SGD.l2_loop].
    unfold ParameterBucket.param_at, at_. cbn [ParameterBucket.value].
    rewrite nth_error_app2 by lia. rewrite Nat.sub_diag. cbn [nth_error bind].
    unfold ParameterBucket.update. cbn [ParameterBucket.value ParameterBucket.pending].
    assert (R : (length v1 <? length (v1 ++ a :: v2)) = true).
    { apply Nat.ltb_lt. rewrite length_app. simpl. lia. }
    rewrite R. cbn [bind]. rewrite <- H1, add_at_app.
    replace (v1 ++ a :: v2) with ((v1 ++ [a]) ++ v2) by now rewrite <- app_assoc.
    set (b' := (b + (- a * SGD.learning_rate_ gd * SGD.lambda_ gd))%Qc).
    replace (p1 ++ b' :: p2) with ((p1 ++ [b']) ++ p2) by now rewrite <- app_assoc.
    replace (S (length p1)) with (length (v1 ++ [a]))
      by (rewrite length_app; simpl; lia).
    rewrite IH by (rewrite ?length_app; simpl; lia).
    rewrite <- !app_assoc. reflexivity.
Qed.

Lemma l2_regularize_synced (gd : SGD.t) (v : Vector) :
  SGD.l2_regularize gd (ParameterBucket.synced v)
  = Ok {| ParameterBucket.value := v;
          ParameterBucket.pending := decay (SGD.learning_rate_ gd) (SGD.lambda_ gd) v |}.
Proof.
  pose proof (@l2_loop_run gd v [] [] (zeros (length v)) eq_refl (zeros_length _)) as H.
  cbn [app length] in H. unfold SGD.l2_regularize, ParameterBucket.synced,
    ParameterBucket.get_num_param. cbn [ParameterBucket.value]. rewrite H.
  rewrite <- (decay_length (SGD.learning_rate_ gd) (SGD.lambda_ gd) v) at 1.
  now rewrite add_zeros_l.
Qed.

Section Round.

Variable g : LabeledPointHObj -> Vector -> Vector.
Variable lr : Qc.
Variables nl ng : Z.
Variable v : Vector.
Variables pend0 cv0 : Vector.

Hypothesis ng_nonzero : ng <> 0%Z.
Hypothesis g_in_range : in_range g (length v).
Hypothesis pend0_length : length pend0 = length v.
Hypothesis cv0_length : length cv0 = length v.

(** The store handle of a worker whose local copy is [cv]. *)
Let handle (cv : Vector) : ParameterBucket.t :=
  {| ParameterBucket.value := v;
     ParameterBucket.pending := Vec.add pend0 (scaled_diff nl ng cv cv0) |}.

Lemma apply_grad_run (fv : list (nat * Qc)) (cv : Vector) :
  (forall fea val, In (fea, val) fv -> fea < length v) ->
  length cv = length v ->
  SGD.apply_grad lr nl ng fv cv (handle cv)
  = Ok (fold_left (fun c fv => add_at (fst fv) (snd fv * lr)%Qc c) fv cv,
        handle (fold_left (fun c fv => add_at (fst fv) (snd fv * lr)%Qc c) fv cv)).
Proof.
  unfold handle.
  revert cv; induction fv as [|[fea val] fv IH]; intros cv Hin Hc; [ reflexivity | ].
  cbn [SGD.apply_grad fold_left fst snd].
  assert (Hf : fea < length v) by (apply (Hin fea val); now left).
  unfold add_assign. rewrite Hc.
  destruct (Nat.ltb_spec fea (length v)) as [_|]; [ | lia ].
  cbn [bind]. destruct (Z.eqb_spec ng 0) as [|_]; [ contradiction | ].
  cbn [bind]. unfold ParameterBucket.update.
  cbn [ParameterBucket.value ParameterBucket.pending].
  destruct (Nat.ltb_spec fea (length v)) as [_|]; [ | lia ].
  cbn [bind]. rewrite scaled_step by congruence.
  apply IH.
  - intros f a Hfa. apply (Hin f a). now right.
  - now rewrite add_at_length.
Qed.

Lemma list_execute_on_obj (data : list LabeledPointHObj) (cv : Vector) (log : list Vector) :
  length cv = length v ->
  list_execute (SGD.on_obj g lr nl ng) data
               {| SGD.current_vec := cv; SGD.param_list := handle cv; SGD.grad_calls := log |}
  = Ok {| SGD.current_vec := local_sgd g lr data cv;
          SGD.param_list := handle (local_sgd g lr data cv);
          SGD.grad_calls := log ++ trace g lr data cv |}.
Proof.
  revert cv log; induction data as [|obj data IH]; intros cv log Hc.
  - simpl. now rewrite app_nil_r.
  - cbn [list_execute]. unfold SGD.on_obj at 1.
    cbn [SGD.current_vec SGD.param_list SGD.grad_calls].
    rewrite apply_grad_run.
    + cbn [bind fst snd]. fold (local_step g lr cv obj).
      rewrite IH by now rewrite local_step_length.
      cbn [trace]. rewrite <- app_assoc. reflexivity.
    + intros fea val Hin. apply feaval_in_range in Hin.
      pose proof (g_in_range obj cv Hc). lia.
    + assumption.
Qed.

End Round.

(** The pass over the records from a handle whose contribution is [pend0]. *)
Lemma list_execute_from (g : LabeledPointHObj -> Vector -> Vector) (lr : Qc)
      (nl ng : Z) (v pend0 : Vector) (data : list LabeledPointHObj) :
  ng <> 0%Z ->
  in_range g (length v) ->
  length pend0 = length v ->
  list_execute (SGD.on_obj g lr nl ng) data
               {| SGD.current_vec := v;
                  SGD.param_list := {| ParameterBucket.value := v;
                                       ParameterBucket.pending := pend0 |};
                  SGD.grad_calls := [] |}
  = Ok {| SGD.current_vec := local_sgd g lr data v;
          SGD.param_list :=
            {| ParameterBucket.value := v;
               ParameterBucket.pending :=
                 Vec.add pend0 (scaled_diff nl ng (local_sgd g lr data v) v) |};
          SGD.grad_calls := trace g lr data v |}.
Proof.
  intros Hng Hr Hp.
  pose proof (@list_execute_on_obj g lr nl ng v pend0 v Hng Hr Hp eq_refl
                data v [] eq_refl) as H.
  cbv beta zeta in H. rewrite scaled_diff_same in H. rewrite <- Hp in H at 1.
  rewrite add_zeros_r in H. exact H.
Qed.

(** The closed form of one worker's round on a freshly synchronised handle:
    the local copy makes a sequential pass over the records; every gradient
    is taken at the local copy of the moment; the worker's contribution to
    the store is the regularization decay, if any, plus the displacement of
    the local copy scaled by [num_local / num_global]. *)
Lemma update_param_closed_form (gd : SGD.t) (g : LabeledPointHObj -> Vector -> Vector)
      (data : list LabeledPointHObj) (v : Vector) (ng : Z) :
  SGD.gradient_func_ gd = Some g ->
  SGD.learning_rate_ gd <> 0%Qc ->
  ng <> 0%Z ->
  in_range g (length v) ->
  SGD.update_param gd data (ParameterBucket.synced v) ng
  = Ok {| SGD.current_vec := local_sgd g (SGD.learning_rate_ gd) data v;
          SGD.param_list :=
            {| ParameterBucket.value := v;
               ParameterBucket.pending :=
                 Vec.add (reg_contribution gd v)
                         (scaled_diff (Z.of_nat (length data)) ng
                                      (local_sgd g (SGD.learning_rate_ gd) data v) v) |};
          SGD.grad_calls := trace g (SGD.learning_rate_ gd) data v |}.
Proof.
  intros Hg Hlr Hng Hr. unfold SGD.update_param, reg_contribution.
  apply Qc_eq_bool_false_iff in Hlr. rewrite Hlr, Hg. cbn [negb ASSERT_MSG bind].
  cbn [ParameterBucket.get_all_param ParameterBucket.synced ParameterBucket.value].
  assert (Z0 : forall p,
             p = ParameterBucket.synced v ->
             (p0 <- Ok p ;;
              list_execute (SGD.on_obj g (SGD.learning_rate_ gd)
                                       (Z.of_nat (length data)) ng) data
                           {| SGD.current_vec := v; SGD.param_list := p0;
                              SGD.grad_calls := [] |})
             = Ok {| SGD.current_vec := local_sgd g (SGD.learning_rate_ gd) data v;
                     SGD.param_list :=
                       {| ParameterBucket.value := v;
                          ParameterBucket.pending :=
                            Vec.add (zeros (length v))
                                    (scaled_diff (Z.of_nat (length data)) ng
                                       (local_sgd g (SGD.learning_rate_ gd) data v) v) |};
                     SGD.grad_calls := trace g (SGD.learning_rate_ gd) data v |}).
  { intros p ->. cbn [bind]. apply list_execute_from; auto using zeros_length. }
  destruct (SGD.regularization_flag_ gd); cbn [andb]; [ | now apply Z0 ].
  destruct (SGD.regularization_norm_ gd) as [|[n|n|]|n]; cbn [Z.eqb Pos.eqb];
    try (now apply Z0).
  destruct n; cbn [Z.eqb Pos.eqb]; try (now apply Z0).
  fold (ParameterBucket.synced v). rewrite l2_regularize_synced. cbn [bind].
  apply list_execute_from; auto using decay_length.
Qed.

Lemma trace_nth (g : LabeledPointHObj -> Vector -> Vector) (lr : Qc)
      (data : list LabeledPointHObj) (cv : Vector) (k : nat) :
  k < length data ->
  nth_error (trace g lr data cv) k = Some (local_sgd g lr (firstn k data) cv).
Proof.
  revert cv k; induction data as [|obj data IH]; intros cv k Hk; simpl in Hk; [ lia | ].
  destruct k as [|k]; [ reflexivity | ].
  simpl. apply IH. lia.
Qed.

Lemma resize_length (n : nat) (v : Vector) : length (resize n v) = n.
Proof.
  unfold resize. rewrite length_app, length_firstn, repeat_length. lia.
Qed.

Lemma svm_gradient_in_range (n : nat) : in_range SVM.gradient_func_ n.
Proof.
  intros obj cv H. unfold SVM.gradient_func_.
  destruct (Qc_ltb _ _); [ | simpl; lia ].
  rewrite set_length, resize_length. unfold get_feature_num. lia.
Qed.

(** C1 as stated fails: with the SVM gradient, rate 1 and two copies of the
    record [x = (1), y = 1] on one worker, the second gradient is taken at
    [(1, 1)], the snapshot [(0, 0)] moved by the first record's update, and
    is empty where the gradient at the snapshot is [(1, 1)]; the worker
    contributes [(1, 1)] where gradients taken at the snapshot would
    contribute [(2, 2)]. *)
Lemma gradient_sees_earlier_updates :
  let gd := SGD.make (Some SVM.gradient_func_) (of_int 1) in
  let p := ParameterBucket.synced [of_int 0; of_int 0] in
  exists w,
    SGD.update_param gd [pos_1; pos_1] p 2 = Ok w /\
    SGD.grad_calls w = [[of_int 0; of_int 0]; [of_int 1; of_int 1]] /\
    nth 1 (SGD.grad_calls w) [] <> ParameterBucket.get_all_param p /\
    SVM.gradient_func_ pos_1 (nth 1 (SGD.grad_calls w) []) = [] /\
    SVM.gradient_func_ pos_1 (ParameterBucket.get_all_param p) = [of_int 1; of_int 1] /\
    ParameterBucket.pending (SGD.param_list w) = [of_int 1; of_int 1] /\
    frozen_contribution SVM.gradient_func_ (of_int 1) [pos_1; pos_1]
                        (ParameterBucket.get_all_param p) 2
    = [of_int 2; of_int 2].
Proof.
  eexists. split; [ vm_compute; reflexivity | ].
  split; [ qc_compute | ].
  split; [ intro H; vm_compute in H; discriminate H | ].
  repeat split; qc_compute.
Qed.

(** C1, amended. In every training round the gradient function is evaluated
    for every locally held record against the worker's local copy of the
    parameter vector: the snapshot taken at the start of the round, moved by
    the rate-scaled gradients of the records this worker processed earlier in
    the same round.  The first gradient is taken at the snapshot itself, and
    no gradient depends on what has been applied to the shared store since
    the snapshot (regularization, scaled updates). *)
Theorem gradient_evaluated_on_local_copy
        (gd : SGD.t) (g : LabeledPointHObj -> Vector -> Vector)
        (data : list LabeledPointHObj) (v : Vector) (ng : Z) :
  SGD.gradient_func_ gd = Some g ->
  SGD.learning_rate_ gd <> 0%Qc ->
  ng <> 0%Z ->
  in_range g (length v) ->
  exists w,
    SGD.update_param gd data (ParameterBucket.synced v) ng = Ok w /\
    length (SGD.grad_calls w) = length data /\
    (forall k, k < length data ->
               nth_error (SGD.grad_calls w) k
               = Some (local_sgd g (SGD.learning_rate_ gd) (firstn k data) v)) /\
    (data <> [] -> hd_error (SGD.grad_calls w) = Some v).
Proof.
  intros Hg Hlr Hng Hr. eexists.
  split; [ apply (@update_param_closed_form gd g); assumption | ].
  cbn [SGD.grad_calls]. split; [ | split ].
  - generalize v. induction data as [|obj rest IH]; intro u; simpl; auto.
  - intros k Hk. now apply trace_nth.
  - destruct data; [ congruence | reflexivity ].
Qed.

Lemma gradient_evaluated_on_local_copy_witness :
  exists w,
    SGD.update_param (SGD.make (Some SVM.gradient_func_) (of_int 1)) [pos_1; pos_1]
                     (ParameterBucket.synced [of_int 0; of_int 0]) 2 = Ok w /\
    nth_error (SGD.grad_calls w) 1 = Some [of_int 1; of_int 1].
Proof.
  destruct (@gradient_evaluated_on_local_copy
              (SGD.make (Some SVM.gradient_func_) (of_int 1)) SVM.gradient_func_
              [pos_1; pos_1] [of_int 0; of_int 0] 2)
    as (w & E & _ & N & _).
  - reflexivity.
  - intro H. vm_compute in H. discriminate H.
  - lia.
  - apply svm_gradient_in_range.
  - exists w. split; [ exact E | ].
    rewrite (N 1) by (simpl; lia). qc_compute.
Defined.

(** C10. In a round with L2 regularization the local copy is taken before
    the decay: the gradients are evaluated at exactly the parameter vectors
    they are evaluated at without regularization, starting from the value the
    store had when the round began, while the decay of that value is added to
    what the worker contributes to the store in the same round. *)
Theorem l2_decay_not_seen_by_gradients
        (g : LabeledPointHObj -> Vector -> Vector) (lr lambda : Qc)
        (data : list LabeledPointHObj) (v : Vector) (ng : Z) :
  lr <> 0%Qc ->
  ng <> 0%Z ->
  in_range g (length v) ->
  exists w w0,
    SGD.update_param (SGD.set_regularization 2 lambda (SGD.make (Some g) lr)) data
                     (ParameterBucket.synced v) ng = Ok w /\
    SGD.update_param (SGD.make (Some g) lr) data (ParameterBucket.synced v) ng = Ok w0 /\
    SGD.grad_calls w = SGD.grad_calls w0 /\
    SGD.grad_calls w = trace g lr data v /\
    SGD.current_vec w = SGD.current_vec w0 /\
    (data <> [] -> hd_error (SGD.grad_calls w) = Some v) /\
    ParameterBucket.pending (SGD.param_list w)
    = Vec.add (decay lr lambda v) (ParameterBucket.pending (SGD.param_list w0)).
Proof.
  intros Hlr Hng Hr. eexists. eexists.
  split; [ apply (@update_param_closed_form _ g); auto | ].
  split; [ apply (@update_param_closed_form _ g); auto | ].
  cbn. repeat split.
  - destruct data; [ congruence | reflexivity ].
  - f_equal. fold (zeros (length v)).
    rewrite <- (local_sgd_length g lr data v) at 1.
    rewrite <- (scaled_diff_length (Z.of_nat (length data)) ng
                  (local_sgd g lr data v) v) at 1
      by apply local_sgd_length.
    now rewrite add_zeros_l.
Qed.

Lemma l2_decay_not_seen_by_gradients_witness :
  exists w,
    SGD.update_param
      (SGD.set_regularization 2 (of_int 1) (SGD.make (Some SVM.gradient_func_) (of_int 1)))
      [pos_1] (ParameterBucket.synced [of_int 3; of_int (-1)]) 1 = Ok w /\
    SGD.grad_calls w = [[of_int 3; of_int (-1)]] /\
    ParameterBucket.pending (SGD.param_list w) = [of_int (-3); of_int 1].
Proof.
  destruct (@l2_decay_not_seen_by_gradients SVM.gradient_func_ (of_int 1) (of_int 1)
              [pos_1] [of_int 3; of_int (-1)] 1)
    as (w & w0 & E & E0 & _ & T & _ & _ & P).
  - intro H. vm_compute in H. discriminate H.
  - lia.
  - apply svm_gradient_in_range.
  - exists w. split; [ exact E | ]. split.
    + rewrite T. reflexivity.
    + rewrite P.
      assert (W0 : ParameterBucket.pending (SGD.param_list w0) = zeros 2).
      { vm_compute in E0. injection E0 as <-. qc_compute. }
      rewrite W0. qc_compute.
Defined.

(** ** Several workers *)

Lemma barrier_length (contributions : list Vector) (v : Vector) :
  length (ParameterBucket.barrier v contributions) = length v.
Proof.
  unfold ParameterBucket.barrier.
  revert v; induction contributions as [|c cs IH]; intro v; simpl; [ reflexivity | ].
  rewrite IH. apply add_length.
Qed.

(** After the barrier every component is the old one plus the sum of what
    the workers contributed to it. *)
Lemma barrier_nth (i : nat) (contributions : list Vector) (v : Vector) :
  (forall c, In c contributions -> length c = length v) ->
  nth i (ParameterBucket.barrier v contributions) 0%Qc
  = (nth i v 0 + sum_list (map (fun c => nth i c 0%Qc) contributions))%Qc.
Proof.
  unfold ParameterBucket.barrier.
  revert v; induction contributions as [|c cs IH]; intros v H; simpl; [ ring | ].
  rewrite IH.
  - rewrite add_nth by (symmetry; apply H; now left). ring.
  - intros c' Hc'. rewrite add_length. apply H. now right.
Qed.

Lemma count_samples_equal_parts (parts : list (list LabeledPointHObj)) (s : nat) :
  (forall part, In part parts -> length part = s) ->
  Regression.count_samples parts = (Z.of_nat (length parts) * Z.of_nat s)%Z.
Proof.
  unfold Regression.count_samples, Aggregator_sum_int.
  induction parts as [|part parts IH]; intro H; [ reflexivity | ].
  cbn [map fold_left length]. rewrite fold_left_Zadd_shift, IH
    by (intros; apply H; now right).
  rewrite (H part) by now left. lia.
Qed.

(** The workers of one round without regularization, in closed form. *)
Lemma each_worker_closed_form (g : LabeledPointHObj -> Vector -> Vector) (lr : Qc)
      (parts : list (list LabeledPointHObj)) (v : Vector) (ng : Z) :
  lr <> 0%Qc ->
  ng <> 0%Z ->
  in_range g (length v) ->
  sgd_round (Regression.jobs_of (SGD.make (Some g) lr) parts) v ng
  = Ok (ParameterBucket.barrier
          v (map (fun part => scaled_diff (Z.of_nat (length part)) ng
                                          (local_sgd g lr part v) v)
                 parts)).
Proof.
  intros Hlr Hng Hr. unfold sgd_round.
  assert (E : each_worker
                (fun job => SGD.update_param (fst job) (snd job)
                                             (ParameterBucket.synced v) ng)
                (Regression.jobs_of (SGD.make (Some g) lr) parts)
              = Ok (map (fun part =>
                           {| SGD.current_vec := local_sgd g lr part v;
                              SGD.param_list :=
                                {| ParameterBucket.value := v;
                                   ParameterBucket.pending :=
                                     scaled_diff (Z.of_nat (length part)) ng
                                                 (local_sgd g lr part v) v |};
                              SGD.grad_calls := trace g lr part v |})
                        parts)).
  { induction parts as [|part parts IH]; [ reflexivity | ].
    cbn [Regression.jobs_of map each_worker fst snd].
    rewrite (@update_param_closed_form _ g) by auto.
    cbn [bind]. fold (Regression.jobs_of (SGD.make (Some g) lr) parts).
    rewrite IH. cbn [bind SGD.learning_rate_ SGD.make]. f_equal. f_equal. f_equal. f_equal.
    unfold reg_contribution. cbn [SGD.regularization_flag_ SGD.make andb].
    rewrite <- (local_sgd_length g lr part v) at 1.
    rewrite <- (scaled_diff_length (Z.of_nat (length part)) ng
                  (local_sgd g lr part v) v) at 1
      by apply local_sgd_length.
    apply add_zeros_l. }
  rewrite E. cbn [bind]. rewrite map_map. reflexivity.
Qed.

Lemma sum_list_scaled (A : Type) (f : A -> Qc) (c a b : Qc) (l : list A) :
  sum_list (map (fun p => ((f p - c) * a / b)%Qc) l)
  = ((sum_list (map f l) - of_int (Z.of_nat (length l)) * c) * a / b)%Qc.
Proof.
  induction l as [|p l IH].
  - cbn [map sum_list fold_right length].
    change (of_int (Z.of_nat 0)) with 0%Qc. unfold Qcdiv. ring.
  - cbn [map sum_list fold_right length]. fold (sum_list (map f l)).
    fold (sum_list (map (fun p => ((f p - c) * a / b)%Qc) l)). rewrite IH.
    rewrite Nat2Z.inj_succ, <- Z.add_1_r, of_int_add, of_int_1.
    unfold Qcdiv. ring.
Qed.

(** C2 as stated fails: with the SVM gradient and rate 1/4, two workers
    holding one copy each of the record [x = (1), y = 1] move the parameters
    [(0, 0)] to [(1/4, 1/4)], and a single worker holding both copies moves
    them to [(1/2, 1/2)]. *)
Lemma two_workers_differ_from_one :
  let gd := SGD.make (Some SVM.gradient_func_) (of_int 1 / of_int 4)%Qc in
  let v := [of_int 0; of_int 0] in
  let split_data := [[pos_1]; [pos_1]] in
  let whole_data := [[pos_1; pos_1]] in
  sgd_round (Regression.jobs_of gd split_data) v (Regression.count_samples split_data)
  = Ok [(of_int 1 / of_int 4)%Qc; (of_int 1 / of_int 4)%Qc] /\
  sgd_round (Regression.jobs_of gd whole_data) v (Regression.count_samples whole_data)
  = Ok [(of_int 1 / of_int 2)%Qc; (of_int 1 / of_int 2)%Qc] /\
  sgd_round (Regression.jobs_of gd split_data) v (Regression.count_samples split_data)
  <> sgd_round (Regression.jobs_of gd whole_data) v (Regression.count_samples whole_data).
Proof.
  split; [ qc_compute | ]. split; [ qc_compute | ].
  intro H. vm_compute in H. discriminate H.
Qed.

(** C2, amended. For a dataset split into k >= 1 non-empty partitions of
    equal size, processed by k workers running [update_param] without
    regularization for one round, every component of the resulting shared
    parameter vector is the mean, over the workers, of that component of the
    worker's local copy after its own sequential pass over its partition;
    for k = 1 this is the vector obtained by the single worker's pass over
    all the data. *)
Theorem sgd_round_averages_local_passes
        (g : LabeledPointHObj -> Vector -> Vector) (lr : Qc)
        (parts : list (list LabeledPointHObj)) (v : Vector) (s : nat) :
  lr <> 0%Qc ->
  parts <> [] ->
  0 < s ->
  (forall part, In part parts -> length part = s) ->
  in_range g (length v) ->
  exists v',
    sgd_round (Regression.jobs_of (SGD.make (Some g) lr) parts) v
              (Regression.count_samples parts) = Ok v' /\
    length v' = length v /\
    (forall i, i < length v ->
               nth i v' 0%Qc
               = (sum_list (map (fun part => nth i (local_sgd g lr part v) 0%Qc) parts)
                  / of_int (Z.of_nat (length parts)))%Qc) /\
    (forall data, parts = [data] -> v' = local_sgd g lr data v).
Proof.
  intros Hlr Hne Hs Hparts Hr.
  assert (Hk : 0 < length parts) by (destruct parts; [ congruence | simpl; lia ]).
  pose proof (count_samples_equal_parts parts Hparts) as Hn.
  assert (HK : of_int (Z.of_nat (length parts)) <> 0%Qc) by (apply of_int_neq_0; lia).
  assert (HS : of_int (Z.of_nat s) <> 0%Qc) by (apply of_int_neq_0; lia).
  assert (Hng : Regression.count_samples parts <> 0%Z) by (rewrite Hn; lia).
  eexists. split; [ now apply each_worker_closed_form | ].
  split; [ apply barrier_length | ].
  assert (Hlen : forall c,
             In c (map (fun part => scaled_diff (Z.of_nat (length part))
                                                (Regression.count_samples parts)
                                                (local_sgd g lr part v) v) parts) ->
             length c = length v).
  { intros c Hc. apply in_map_iff in Hc. destruct Hc as (part & <- & _).
    rewrite scaled_diff_length; apply local_sgd_length. }
  split.
  - intros i Hi. rewrite barrier_nth by exact Hlen. rewrite map_map.
    rewrite (map_ext_in _
               (fun part => ((nth i (local_sgd g lr part v) 0 - nth i v 0)
                             * of_int (Z.of_nat s)
                             / of_int (Regression.count_samples parts))%Qc)).
    + rewrite (sum_list_scaled
                 (fun part => nth i (local_sgd g lr part v) 0%Qc)).
      rewrite Hn, of_int_mul. field. split; assumption.
    + intros part Hp. rewrite scaled_diff_nth by apply local_sgd_length.
      now rewrite (Hparts part Hp).
  - intros data ->. cbn [map ParameterBucket.barrier fold_left].
    apply vector_ext.
    + now rewrite add_length, local_sgd_length.
    + intro j.
      rewrite add_nth by (rewrite scaled_diff_length; rewrite local_sgd_length; reflexivity).
      rewrite scaled_diff_nth by apply local_sgd_length.
      rewrite Hn, of_int_mul. rewrite (Hparts data) by now left.
      change (of_int (Z.of_nat (length [data]))) with 1%Qc.
      field. assumption.
Qed.

Lemma sgd_round_averages_local_passes_witness :
  exists v',
    sgd_round (Regression.jobs_of
                 (SGD.make (Some SVM.gradient_func_) (of_int 1 / of_int 4)%Qc)
                 [[pos_1]; [pos_1]])
              [of_int 0; of_int 0] (Regression.count_samples [[pos_1]; [pos_1]])
    = Ok v' /\
    nth 0 v' 0%Qc = (of_int 1 / of_int 4)%Qc.
Proof.
  destruct (@sgd_round_averages_local_passes SVM.gradient_func_
              (of_int 1 / of_int 4)%Qc [[pos_1]; [pos_1]] [of_int 0; of_int 0] 1)
    as (v' & E & _ & N & _).
  - intro H. vm_compute in H. discriminate H.
  - discriminate.
  - lia.
  - intros part [<- | [<- | []]]; reflexivity.
  - apply svm_gradient_in_range.
  - exists v'. split; [ exact E | ].
    rewrite (N 0) by (simpl; lia). qc_compute.
Defined.

(** * Further properties of the code *)

(** ** The optimizer *)

(** X1. [update_param] checks its configuration before anything else: with
    a learning rate equal to 0 it stops on "Learning rate is set to 0."
    whatever the gradient function, the data and the store, and with a
    non-zero rate and no gradient function it stops on "Gradient function is
    not specified."; in both cases the regularization step is not reached. *)
Theorem update_param_assertions (gd : SGD.t) (data : list LabeledPointHObj)
        (p : ParameterBucket.t) (ng : Z) :
  (SGD.learning_rate_ gd = 0%Qc ->
   SGD.update_param gd data p ng = Err (AssertFailed "Learning rate is set to 0.")) /\
  (SGD.learning_rate_ gd <> 0%Qc -> SGD.gradient_func_ gd = None ->
   SGD.update_param gd data p ng
   = Err (AssertFailed "Gradient function is not specified.")).
Proof.
  unfold SGD.update_param. split.
  - intros ->. reflexivity.
  - intros Hlr Hg. apply Qc_eq_bool_false_iff in Hlr. rewrite Hlr, Hg. reflexivity.
Qed.

Lemma update_param_assertions_witness :
  SGD.update_param (SGD.make (Some SVM.gradient_func_) (of_int 0)) [pos_1]
                   (ParameterBucket.synced [of_int 0; of_int 0]) 1
  = Err (AssertFailed "Learning rate is set to 0.")
  /\ SGD.update_param (SGD.make None (of_int 1)) [pos_1]
                      (ParameterBucket.synced [of_int 0; of_int 0]) 1
     = Err (AssertFailed "Gradient function is not specified.").
Proof.
  split.
  - apply (proj1 (update_param_assertions
                    (SGD.make (Some SVM.gradient_func_) (of_int 0)) [pos_1]
                    (ParameterBucket.synced [of_int 0; of_int 0]) 1)).
    reflexivity.
  - apply (proj2 (update_param_assertions
                    (SGD.make None (of_int 1)) [pos_1]
                    (ParameterBucket.synced [of_int 0; of_int 0]) 1)).
    + intro H. vm_compute in H. discriminate H.
    + reflexivity.
Defined.

Lemma decay_nth (lr lambda : Qc) (i : nat) (v : Vector) :
  nth i (decay lr lambda v) 0%Qc = (- nth i v 0 * lr * lambda)%Qc.
Proof.
  revert i; induction v as [|a v IH]; intros [|i]; simpl; try ring; auto.
Qed.

(** X2. On a handle whose contribution has one entry per parameter,
    [l2_regularize] never fails, leaves the values that are read unchanged,
    and adds [- value * rate * lambda] to the contribution of every index:
    each decay is computed from the value the parameter had before the
    round. *)
Theorem l2_regularize_adds_decay (gd : SGD.t) (p : ParameterBucket.t) :
  length (ParameterBucket.pending p) = length (ParameterBucket.value p) ->
  exists p',
    SGD.l2_regularize gd p = Ok p' /\
    ParameterBucket.value p' = ParameterBucket.value p /\
    length (ParameterBucket.pending p') = length (ParameterBucket.value p) /\
    forall i, i < length (ParameterBucket.value p) ->
              nth i (ParameterBucket.pending p') 0%Qc
              = (nth i (ParameterBucket.pending p) 0
                 + - nth i (ParameterBucket.value p) 0
                   * SGD.learning_rate_ gd * SGD.lambda_ gd)%Qc.
Proof.
  destruct p as [v pend]. cbn [ParameterBucket.value ParameterBucket.pending].
  intro H.
  pose proof (@l2_loop_run gd v [] [] pend eq_refl H) as R. cbn [app length] in R.
  eexists. split; [ exact R | ].
  cbn [ParameterBucket.value ParameterBucket.pending].
  split; [ reflexivity | ]. split; [ now rewrite add_length | ].
  intros i Hi. rewrite add_nth by now rewrite decay_length.
  now rewrite decay_nth.
Qed.

Lemma l2_regularize_adds_decay_witness :
  exists p',
    SGD.l2_regularize
      (SGD.set_regularization 2 (of_int 1 / of_int 2)%Qc
                              (SGD.make (Some SVM.gradient_func_) (of_int 1)))
      {| ParameterBucket.value := [of_int 4; of_int (-2)];
         ParameterBucket.pending := [of_int 1; of_int 1] |} = Ok p' /\
    nth 0 (ParameterBucket.pending p') 0%Qc = of_int (-1).
Proof.
  destruct (@l2_regularize_adds_decay
              (SGD.set_regularization 2 (of_int 1 / of_int 2)%Qc
                                      (SGD.make (Some SVM.gradient_func_) (of_int 1)))
              {| ParameterBucket.value := [of_int 4; of_int (-2)];
                 ParameterBucket.pending := [of_int 1; of_int 1] |})
    as (p' & E & _ & _ & N).
  - reflexivity.
  - exists p'. split; [ exact E | ].
    rewrite (N 0) by (simpl; lia). qc_compute.
Defined.

(** ** Rounds over several workers, with and without regularization *)

(** The closed form of one worker's round also holds when the global count
    is 0, as long as the worker then has no record to process. *)
Lemma update_param_closed_form_or_empty
      (gd : SGD.t) (g : LabeledPointHObj -> Vector -> Vector)
      (data : list LabeledPointHObj) (v : Vector) (ng : Z) :
  SGD.gradient_func_ gd = Some g ->
  SGD.learning_rate_ gd <> 0%Qc ->
  ng <> 0%Z \/ data = [] ->
  in_range g (length v) ->
  SGD.update_param gd data (ParameterBucket.synced v) ng
  = Ok {| SGD.current_vec := local_sgd g (SGD.learning_rate_ gd) data v;
          SGD.param_list :=
            {| ParameterBucket.value := v;
               ParameterBucket.pending :=
                 Vec.add (reg_contribution gd v)
                         (scaled_diff (Z.of_nat (length data)) ng
                                      (local_sgd g (SGD.learning_rate_ gd) data v) v) |};
          SGD.grad_calls := trace g (SGD.learning_rate_ gd) data v |}.
Proof.
  intros Hg Hlr [Hng | ->] Hr; [ now apply update_param_closed_form | ].
  cbn [local_sgd fold_left trace length]. rewrite scaled_diff_same.
  replace (zeros (length v)) with (zeros (length (reg_contribution gd v)))
    by now rewrite reg_contribution_length.
  rewrite add_zeros_r.
  unfold SGD.update_param, reg_contribution.
  apply Qc_eq_bool_false_iff in Hlr. rewrite Hlr, Hg. cbn [negb ASSERT_MSG bind].
  cbn [ParameterBucket.get_all_param ParameterBucket.synced ParameterBucket.value].
  destruct (SGD.regularization_flag_ gd); cbn [andb]; [ | reflexivity ].
  destruct (SGD.regularization_norm_ gd) as [|[n|n|]|n]; cbn [Z.eqb Pos.eqb];
    try reflexivity.
  destruct n; cbn [Z.eqb Pos.eqb]; try reflexivity.
  fold (ParameterBucket.synced v). rewrite l2_regularize_synced. reflexivity.
Qed.

(** One round over workers which share the gradient function and the rate
    and may differ in their regularization: every worker contributes its
    decay, if any, plus the scaled displacement of its local copy. *)
Lemma sgd_round_closed_form (g : LabeledPointHObj -> Vector -> Vector) (lr : Qc)
      (jobs : list (SGD.t * list LabeledPointHObj)) (v : Vector) (ng : Z) :
  lr <> 0%Qc ->
  in_range g (length v) ->
  (forall job, In job jobs ->
               SGD.gradient_func_ (fst job) = Some g /\
               SGD.learning_rate_ (fst job) = lr /\
               (ng <> 0%Z \/ snd job = [])) ->
  sgd_round jobs v ng
  = Ok (ParameterBucket.barrier
          v (map (fun job =>
                    Vec.add (reg_contribution (fst job) v)
                            (scaled_diff (Z.of_nat (length (snd job))) ng
                                         (local_sgd g lr (snd job) v) v))
                 jobs)).
Proof.
  intros Hlr Hr Hjobs. unfold sgd_round.
  assert (E : each_worker
                (fun job => SGD.update_param (fst job) (snd job)
                                             (ParameterBucket.synced v) ng) jobs
              = Ok (map (fun job =>
                           {| SGD.current_vec := local_sgd g lr (snd job) v;
                              SGD.param_list :=
                                {| ParameterBucket.value := v;
                                   ParameterBucket.pending :=
                                     Vec.add (reg_contribution (fst job) v)
                                       (scaled_diff (Z.of_nat (length (snd job))) ng
                                                    (local_sgd g lr (snd job) v) v) |};
                              SGD.grad_calls := trace g lr (snd job) v |})
                        jobs)).
  { induction jobs as [|job jobs IH]; [ reflexivity | ].
    cbn [each_worker map].
    destruct (Hjobs job (or_introl eq_refl)) as (Hg & Hl & Hn).
    rewrite (@update_param_closed_form_or_empty (fst job) g) by (auto; congruence).
    cbn [bind]. rewrite IH by (intros j Hj; apply Hjobs; now right).
    cbn [bind]. rewrite Hl. reflexivity. }
  rewrite E. cbn [bind]. rewrite map_map. reflexivity.
Qed.

Lemma sgd_round_contribution_length
      (g : LabeledPointHObj -> Vector -> Vector) (lr : Qc)
      (jobs : list (SGD.t * list LabeledPointHObj)) (v : Vector) (ng : Z) (c : Vector) :
  In c (map (fun job =>
               Vec.add (reg_contribution (fst job) v)
                       (scaled_diff (Z.of_nat (length (snd job))) ng
                                    (local_sgd g lr (snd job) v) v))
            jobs) ->
  length c = length v.
Proof.
  intro H. apply in_map_iff in H. destruct H as (job & <- & _).
  rewrite add_length. apply reg_contribution_length.
Qed.

(** X3. In a round of [SVM::train], where only the worker of thread id 0
    sets L2 regularization, the decay is applied exactly once whatever the
    number of workers: the resulting parameters are those of the same round
    without regularization plus [- value * rate * lambda] on every index. *)
Theorem svm_round_decays_once
        (g : LabeledPointHObj -> Vector -> Vector) (lr lambda : Qc)
        (part0 : list LabeledPointHObj) (rest : list (list LabeledPointHObj))
        (v : Vector) (ng : Z) :
  lr <> 0%Qc ->
  ng <> 0%Z ->
  in_range g (length v) ->
  exists v' v0,
    sgd_round (SVMTrain.jobs_of (SGD.make (Some g) lr) lambda (part0 :: rest)) v ng
    = Ok v' /\
    sgd_round (Regression.jobs_of (SGD.make (Some g) lr) (part0 :: rest)) v ng
    = Ok v0 /\
    length v' = length v /\
    forall i, nth i v' 0%Qc = (nth i v0 0 + - nth i v 0 * lr * lambda)%Qc.
Proof.
  intros Hlr Hng Hr.
  assert (J1 : forall job,
             In job (SVMTrain.jobs_of (SGD.make (Some g) lr) lambda (part0 :: rest)) ->
             SGD.gradient_func_ (fst job) = Some g /\
             SGD.learning_rate_ (fst job) = lr /\ (ng <> 0%Z \/ snd job = [])).
  { intros job [<- | H]; [ auto | ].
    apply in_map_iff in H. destruct H as (part & <- & _). auto. }
  assert (J0 : forall job,
             In job (Regression.jobs_of (SGD.make (Some g) lr) (part0 :: rest)) ->
             SGD.gradient_func_ (fst job) = Some g /\
             SGD.learning_rate_ (fst job) = lr /\ (ng <> 0%Z \/ snd job = [])).
  { intros job H. apply in_map_iff in H. destruct H as (part & <- & _). auto. }
  eexists. eexists.
  split; [ exact (@sgd_round_closed_form g lr _ v ng Hlr Hr J1) | ].
  split; [ exact (@sgd_round_closed_form g lr _ v ng Hlr Hr J0) | ].
  split; [ apply barrier_length | ].
  intro i.
  rewrite !barrier_nth by (intros c Hc; eapply sgd_round_contribution_length; exact Hc).
  cbn [SVMTrain.jobs_of Regression.jobs_of map sum_list fold_right fst snd].
  rewrite !map_map. cbn [fst snd].
  rewrite !add_nth
    by (rewrite reg_contribution_length, scaled_diff_length;
        rewrite ?local_sgd_length; reflexivity).
  change (reg_contribution (SGD.set_regularization 2 lambda (SGD.make (Some g) lr)) v)
    with (decay lr lambda v).
  change (reg_contribution (SGD.make (Some g) lr) v) with (zeros (length v)).
  rewrite decay_nth, zeros_nth. ring.
Qed.

Lemma svm_round_decays_once_witness :
  exists v' v0,
    sgd_round (SVMTrain.jobs_of (SGD.make (Some SVM.gradient_func_) (of_int 1))
                                (of_int 1 / of_int 2)%Qc [[pos_2]; [neg_3]])
              [of_int 4; of_int 2] 2 = Ok v' /\
    sgd_round (Regression.jobs_of (SGD.make (Some SVM.gradient_func_) (of_int 1))
                                  [[pos_2]; [neg_3]])
              [of_int 4; of_int 2] 2 = Ok v0 /\
    nth 0 v' 0%Qc = (nth 0 v0 0 + of_int (-2))%Qc.
Proof.
  destruct (@svm_round_decays_once SVM.gradient_func_ (of_int 1) (of_int 1 / of_int 2)%Qc
              [pos_2] [[neg_3]] [of_int 4; of_int 2] 2)
    as (v' & v0 & E' & E0 & _ & N).
  - intro H. vm_compute in H. discriminate H.
  - lia.
  - apply svm_gradient_in_range.
  - exists v', v0. split; [ exact E' | ]. split; [ exact E0 | ].
    rewrite (N 0). f_equal. qc_compute.
Defined.

(** ** [SVM::train] runs to its end *)

Lemma sgd_round_total (g : LabeledPointHObj -> Vector -> Vector) (lr : Qc)
      (jobs : list (SGD.t * list LabeledPointHObj)) (v : Vector) (ng : Z) :
  lr <> 0%Qc ->
  in_range g (length v) ->
  (forall job, In job jobs ->
               SGD.gradient_func_ (fst job) = Some g /\
               SGD.learning_rate_ (fst job) = lr /\
               (ng <> 0%Z \/ snd job = [])) ->
  exists v', sgd_round jobs v ng = Ok v' /\ length v' = length v.
Proof.
  intros Hlr Hr Hjobs. eexists.
  split; [ exact (@sgd_round_closed_form g lr jobs v ng Hlr Hr Hjobs) | ].
  apply barrier_length.
Qed.

Lemma sizes_sum_nonneg (data : list (list LabeledPointHObj)) :
  (0 <= fold_left Z.add (map (fun part => Z.of_nat (length part)) data) 0)%Z.
Proof.
  induction data as [|part data IH]; [ simpl; lia | ].
  cbn [map fold_left]. rewrite fold_left_Zadd_shift. lia.
Qed.

(** A global count of 0 means that no worker holds a record. *)
Lemma sizes_sum_zero (data : list (list LabeledPointHObj)) :
  fold_left Z.add (map (fun part => Z.of_nat (length part)) data) 0%Z = 0%Z ->
  forall part, In part data -> part = [].
Proof.
  induction data as [|p data IH]; intros H part Hin; [ destruct Hin | ].
  cbn [map fold_left] in H. rewrite fold_left_Zadd_shift in H.
  pose proof (sizes_sum_nonneg data) as N.
  destruct Hin as [<- | Hin].
  - destruct p; [ reflexivity | cbn [length] in H; lia ].
  - apply IH; [ lia | assumption ].
Qed.

Lemma weighted_sum_total (p : ParameterBucket.t) (fv : list (nat * Qc)) (acc : Qc) :
  (forall fea val, In (fea, val) fv -> fea < length (ParameterBucket.value p)) ->
  exists q, SVM.weighted_sum (ParameterBucket.param_at p) fv acc = Ok q.
Proof.
  revert acc; induction fv as [|[fea val] fv IH]; intros acc H.
  - eexists. reflexivity.
  - cbn [SVM.weighted_sum]. unfold ParameterBucket.param_at at 1. unfold at_.
    destruct (nth_error (ParameterBucket.value p) fea) as [a|] eqn:E.
    + cbn [bind]. apply IH. intros f u Hin. apply (H f u). now right.
    + apply nth_error_None in E. specialize (H fea val (or_introl eq_refl)). lia.
Qed.

Lemma param_at_total (p : ParameterBucket.t) (i : nat) :
  i < length (ParameterBucket.value p) ->
  exists q, ParameterBucket.param_at p i = Ok q.
Proof.
  intro H. unfold ParameterBucket.param_at, at_.
  destruct (nth_error (ParameterBucket.value p) i) eqn:E; [ eexists; reflexivity | ].
  apply nth_error_None in E. lia.
Qed.

(** The report of [SVM::train] succeeds on records that fit the model. *)
Lemma loss_report_total (m : Model.t) (data : list (list LabeledPointHObj)) :
  (0 <= Model.num_feature_ m)%Z ->
  Z.to_nat (Model.num_feature_ m) < Model.get_num_param m ->
  (forall obj, In obj (concat data) -> length (x obj) <= Model.get_num_param m) ->
  exists ls,
    each_worker (fun part => list_execute (SVMTrain.loss_obj m) part 0%Qc) data = Ok ls.
Proof.
  intros Hnf Hb Hfit.
  assert (One : forall obj acc, length (x obj) <= Model.get_num_param m ->
                                exists q, SVMTrain.loss_obj m acc obj = Ok q).
  { intros obj acc Hx. unfold SVMTrain.loss_obj.
    destruct (Z.ltb_spec (Model.num_feature_ m) 0) as [|_]; [ lia | ].
    destruct (param_at_total (Model.param_list_ m) Hb) as (bias & ->). cbn [bind].
    destruct (@weighted_sum_total (Model.param_list_ m) (feaval (x obj)) bias)
      as (prod & ->).
    - intros fea val Hin. apply feaval_in_range in Hin.
      unfold Model.get_num_param, ParameterBucket.get_num_param in Hx. lia.
    - eexists. reflexivity. }
  assert (Part : forall part acc,
             (forall obj, In obj part -> length (x obj) <= Model.get_num_param m) ->
             exists q, list_execute (SVMTrain.loss_obj m) part acc = Ok q).
  { induction part as [|obj part IH]; intros acc H; [ eexists; reflexivity | ].
    cbn [list_execute].
    destruct (One obj acc) as (q & ->); [ apply H; now left | ].
    cbn [bind]. apply IH. intros o Ho. apply H. now right. }
  induction data as [|part data IH]; [ eexists; reflexivity | ].
  cbn [each_worker].
  destruct (Part part 0%Qc) as (q & ->).
  { intros obj Ho. apply Hfit. simpl. apply in_or_app. now left. }
  cbn [bind]. destruct IH as (ls & ->).
  { intros obj Ho. apply Hfit. simpl. apply in_or_app. now right. }
  eexists. reflexivity.
Qed.

Lemma svm_train_loop_total
      (jobs : list (SGD.t * list LabeledPointHObj))
      (data : list (list LabeledPointHObj)) (lr : Qc) (ng : Z) (k n : nat) (m : Model.t) :
  lr <> 0%Qc ->
  (forall job, In job jobs ->
               SGD.gradient_func_ (fst job) = Some SVM.gradient_func_ /\
               SGD.learning_rate_ (fst job) = lr /\
               (ng <> 0%Z \/ snd job = [])) ->
  Model.get_num_param m = k ->
  (Model.report_per_round m = true ->
   (0 <= Model.num_feature_ m)%Z /\ Z.to_nat (Model.num_feature_ m) < k /\
   forall obj, In obj (concat data) -> length (x obj) <= k) ->
  exists m',
    SVMTrain.train_loop jobs data ng n m = Ok m' /\
    Model.get_num_param m' = k /\
    Model.trained_ m' = Model.trained_ m /\
    Model.error_func_ m' = Model.error_func_ m.
Proof.
  intros Hlr Hjobs. revert m; induction n as [|n IH]; intros m Hk Hrep.
  - eexists. split; [ reflexivity | auto ].
  - cbn [SVMTrain.train_loop].
    destruct (@sgd_round_total SVM.gradient_func_ lr jobs
                (ParameterBucket.value (Model.param_list_ m)) ng Hlr
                (@svm_gradient_in_range _) Hjobs) as (v' & -> & Hlen).
    cbn [bind].
    set (m' := Model.with_param_list (ParameterBucket.synced v') m).
    assert (Hk' : Model.get_num_param m' = k).
    { unfold m', Model.get_num_param, ParameterBucket.get_num_param. simpl.
      rewrite Hlen. exact Hk. }
    assert (Hrep' : Model.report_per_round m' = true ->
                    (0 <= Model.num_feature_ m')%Z /\
                    Z.to_nat (Model.num_feature_ m') < k /\
                    forall obj, In obj (concat data) -> length (x obj) <= k)
      by exact Hrep.
    assert (R : exists ls,
               (if Model.report_per_round m'
                then each_worker
                       (fun part => list_execute (SVMTrain.loss_obj m') part 0%Qc) data
                else Ok []) = Ok ls).
    { destruct (Model.report_per_round m') eqn:E; [ | eexists; reflexivity ].
      destruct (Hrep' eq_refl) as (A & B & C).
      apply loss_report_total; rewrite ?Hk'; assumption. }
    destruct R as (ls & ->). cbn [bind].
    destruct (IH m' Hk' Hrep') as (m'' & E & K & T & F).
    exists m''. split; [ exact E | ]. split; [ exact K | ]. split; [ exact T | exact F ].
Qed.

(** X4. [SVM::train] completes on records of the width of the model: on an
    SVM that has parameters and the SVM gradient closure, with a non-zero
    rate and training records that all have one feature per weight (one
    less than the number of parameters, the last parameter being the bias),
    it runs to its end, marks the model as trained and keeps the number of
    parameters and lambda; when the per-round report is on, this holds if the
    model's feature count is the index of a parameter, which the report reads
    as the bias. *)
Theorem svm_train_completes (s : SVMTrain.t) (data : list (list LabeledPointHObj))
        (num_iters : Z) (lr : Qc) :
  0 < Model.get_num_param (SVMTrain.base s) ->
  Model.gradient_func_ (SVMTrain.base s) = Some SVM.gradient_func_ ->
  lr <> 0%Qc ->
  (forall obj, In obj (concat data) ->
               length (x obj) + 1 = Model.get_num_param (SVMTrain.base s)) ->
  (Model.report_per_round (SVMTrain.base s) = true ->
   (0 <= Model.num_feature_ (SVMTrain.base s))%Z /\
   Z.to_nat (Model.num_feature_ (SVMTrain.base s)) < Model.get_num_param (SVMTrain.base s)) ->
  exists s',
    SVMTrain.train s data num_iters lr = Ok s' /\
    Model.trained_ (SVMTrain.base s') = true /\
    Model.get_num_param (SVMTrain.base s') = Model.get_num_param (SVMTrain.base s) /\
    SVMTrain.lambda_ s' = SVMTrain.lambda_ s.
Proof.
  intros Hn Hg Hlr Hw Hrep0.
  assert (Hrep : Model.report_per_round (SVMTrain.base s) = true ->
                 (0 <= Model.num_feature_ (SVMTrain.base s))%Z /\
                 Z.to_nat (Model.num_feature_ (SVMTrain.base s))
                 < Model.get_num_param (SVMTrain.base s) /\
                 forall obj, In obj (concat data) ->
                             length (x obj) <= Model.get_num_param (SVMTrain.base s)).
  { intro R. destruct (Hrep0 R) as [A B]. split; [ exact A | ]. split; [ exact B | ].
    intros obj Ho. specialize (Hw obj Ho). lia. }
  clear Hrep0 Hw.
  unfold SVMTrain.train.
  apply Nat.ltb_lt in Hn. rewrite Hn. cbn [ASSERT_MSG bind]. rewrite Hg.
  destruct (@svm_train_loop_total
              (SVMTrain.jobs_of (SGD.make (Some SVM.gradient_func_) lr)
                                (SVMTrain.lambda_ s) data)
              data lr (SVMTrain.count_samples data)
              (Model.get_num_param (SVMTrain.base s)) (Z.to_nat num_iters)
              (SVMTrain.base s) Hlr) as (m' & -> & K & T & _); auto.
  - intros job Hin.
    assert (P : exists part, In part data /\ snd job = part /\
                             SGD.gradient_func_ (fst job) = Some SVM.gradient_func_ /\
                             SGD.learning_rate_ (fst job) = lr).
    { destruct data as [|part0 rest]; [ destruct Hin | ].
      destruct Hin as [<- | Hin].
      - exists part0. repeat split. now left.
      - apply in_map_iff in Hin. destruct Hin as (part & <- & Hp).
        exists part. repeat split. now right. }
    destruct P as (part & Hp & Hs & G & L). split; [ exact G | ]. split; [ exact L | ].
    destruct (Z.eq_dec (SVMTrain.count_samples data) 0) as [Z0 | NZ]; [ | now left ].
    right. rewrite Hs. exact (sizes_sum_zero data Z0 part Hp).
  - cbn [bind]. eexists. split; [ reflexivity | ].
    cbn. split; [ reflexivity | ]. split; [ exact K | reflexivity ].
Qed.

Lemma svm_train_completes_witness :
  exists s',
    SVMTrain.train
      {| SVMTrain.base :=
           {| Model.gradient_func_ := Some SVM.gradient_func_;
              Model.error_func_ := Some SVM.error_func_;
              Model.predict_func_ := None;
              Model.param_list_ := ParameterBucket.init 2 0%Qc;
              Model.num_feature_ := 1%Z;
              Model.trained_ := false;
              Model.report_per_round := true |};
         SVMTrain.lambda_ := (of_int 1 / of_int 2)%Qc |}
      [[pos_2; pos_1]; [neg_1]] 3 (of_int 1 / of_int 4)%Qc = Ok s' /\
    Model.trained_ (SVMTrain.base s') = true /\
    Model.get_num_param (SVMTrain.base s') = 2.
Proof.
  destruct (@svm_train_completes
              {| SVMTrain.base :=
                   {| Model.gradient_func_ := Some SVM.gradient_func_;
                      Model.error_func_ := Some SVM.error_func_;
                      Model.predict_func_ := None;
                      Model.param_list_ := ParameterBucket.init 2 0%Qc;
                      Model.num_feature_ := 1%Z;
                      Model.trained_ := false;
                      Model.report_per_round := true |};
                 SVMTrain.lambda_ := (of_int 1 / of_int 2)%Qc |}
              [[pos_2; pos_1]; [neg_1]] 3 (of_int 1 / of_int 4)%Qc)
    as (s' & E & T & K & _).
  - vm_compute. lia.
  - reflexivity.
  - intro H. vm_compute in H. discriminate H.
  - intros obj [<- | [<- | [<- | []]]]; reflexivity.
  - intros _. split; [ vm_compute; discriminate | vm_compute; lia ].
  - exists s'. split; [ exact E | ]. split; [ exact T | exact K ].
Defined.

(** ** [Regression::train] and [train_test] *)

Lemma report_total (m : Model.t)
      (ef : LabeledPointHObj -> ParameterBucket.t -> result Qc)
      (data : list (list LabeledPointHObj)) :
  Model.error_func_ m = Some ef ->
  (forall obj, In obj (concat data) -> exists q, ef obj (Model.param_list_ m) = Ok q) ->
  exists ls,
    each_worker (fun part => list_execute (Regression.report_obj m) part 0%Qc) data = Ok ls.
Proof.
  intros Hef Hall.
  assert (Part : forall part acc,
             (forall obj, In obj part -> exists q, ef obj (Model.param_list_ m) = Ok q) ->
             exists q, list_execute (Regression.report_obj m) part acc = Ok q).
  { induction part as [|obj part IH]; intros acc H; [ eexists; reflexivity | ].
    cbn [list_execute]. unfold Regression.report_obj at 1. rewrite Hef. cbn [Model.call].
    destruct (H obj (or_introl eq_refl)) as (q & ->). cbn [bind].
    apply IH. intros o Ho. apply H. now right. }
  induction data as [|part data IH]; [ eexists; reflexivity | ].
  cbn [each_worker].
  destruct (Part part 0%Qc) as (q & ->).
  { intros obj Ho. apply Hall. simpl. apply in_or_app. now left. }
  cbn [bind]. destruct IH as (ls & ->).
  { intros obj Ho. apply Hall. simpl. apply in_or_app. now right. }
  eexists. reflexivity.
Qed.

Section TrainLoop.

Variable gd : SGD.t.
Variable data : list (list LabeledPointHObj).
Variable ns : Z.
Variable ef : LabeledPointHObj -> ParameterBucket.t -> result Qc.
Variable vs : nat -> Vector.

(** Along a run whose rounds succeed, and whose reports succeed when they
    are on, the loop of [train] goes through all its rounds. *)
Lemma train_loop_run (n r : nat) (m : Model.t) :
  Model.error_func_ m = Some ef ->
  ParameterBucket.value (Model.param_list_ m) = vs r ->
  (forall k, r <= k < r + n -> sgd_round (Regression.jobs_of gd data) (vs k) ns = Ok (vs (S k))) ->
  (Model.report_per_round m = true ->
   forall k obj, r <= k < r + n -> In obj (concat data) ->
                 exists q, ef obj (ParameterBucket.synced (vs (S k))) = Ok q) ->
  Regression.train_loop gd data ns n m
  = Ok (match n with
        | O => m
        | S _ => Model.with_param_list (ParameterBucket.synced (vs (r + n))) m
        end).
Proof.
  revert r m; induction n as [|n IH]; intros r m Hef Hv Hrun Hrep; [ reflexivity | ].
  cbn [Regression.train_loop]. rewrite Hv, (Hrun r) by lia. cbn [bind].
  set (m' := Model.with_param_list (ParameterBucket.synced (vs (S r))) m).
  assert (R : exists ls,
             (if Model.report_per_round m'
              then each_worker
                     (fun part => list_execute (Regression.report_obj m') part 0%Qc) data
              else Ok []) = Ok ls).
  { destruct (Model.report_per_round m') eqn:E; [ | eexists; reflexivity ].
    apply (@report_total m' ef data Hef).
    intros obj Ho. apply (Hrep E r obj); [ lia | assumption ]. }
  destruct R as (ls & ->). cbn [bind].
  rewrite (IH (S r) m').
  - destruct n; [ now replace (r + 1) with (S r) by lia | ].
    unfold m'. now replace (S r + S n) with (r + S (S n)) by lia.
  - exact Hef.
  - reflexivity.
  - intros k Hk. apply Hrun. lia.
  - intros E k obj Hk Ho. apply (Hrep E k obj); [ lia | assumption ].
Qed.

End TrainLoop.

(** X5. [Regression::train] never looks at the errors to decide anything:
    on a run whose rounds succeed (and, when the per-round report is on,
    whose error function succeeds on the training records), it applies
    exactly [iters] rounds of updates (none when [iters <= 0]), sets the
    trained flag and leaves the closures as they were. *)
Theorem regression_train_applies_all_rounds
        (m : Model.t) (g : LabeledPointHObj -> Vector -> Vector)
        (ef : LabeledPointHObj -> ParameterBucket.t -> result Qc)
        (data : list (list LabeledPointHObj)) (iters : Z) (lr : Qc)
        (vs : nat -> Vector) :
  0 < Model.get_num_param m ->
  Model.gradient_func_ m = Some g ->
  Model.error_func_ m = Some ef ->
  vs 0 = ParameterBucket.value (Model.param_list_ m) ->
  (forall r, r < Z.to_nat iters ->
     sgd_round (Regression.jobs_of (SGD.make (Some g) lr) data) (vs r)
               (Regression.count_samples data) = Ok (vs (S r))) ->
  (Model.report_per_round m = true ->
   forall r obj, r < Z.to_nat iters -> In obj (concat data) ->
                 exists q, ef obj (ParameterBucket.synced (vs (S r))) = Ok q) ->
  exists m',
    Regression.train m data iters lr = Ok m' /\
    Model.trained_ m' = true /\
    ParameterBucket.value (Model.param_list_ m') = vs (Z.to_nat iters) /\
    Model.gradient_func_ m' = Some g /\
    Model.error_func_ m' = Some ef.
Proof.
  intros Hn Hg Hef H0 Hrun Hrep. unfold Regression.train.
  apply Nat.ltb_lt in Hn. rewrite Hn, Hg, Hef. cbn [ASSERT_MSG Model.is_set bind].
  rewrite (@train_loop_run (SGD.make (Some g) lr) data (Regression.count_samples data)
             ef vs (Z.to_nat iters) 0 m Hef (eq_sym H0)).
  - cbn [bind]. eexists. split; [ reflexivity | ].
    destruct (Z.to_nat iters); cbn; auto.
  - intros k Hk. apply Hrun. lia.
  - intros E k obj Hk Ho. apply (Hrep E k obj); [ lia | assumption ].
Qed.

Lemma regression_train_applies_all_rounds_witness :
  exists m',
    Regression.train table_model [[pos_1]] 5 (of_int 1) = Ok m' /\
    Model.trained_ m' = true /\
    ParameterBucket.value (Model.param_list_ m') = [of_int 5].
Proof.
  destruct (@regression_train_applies_all_rounds table_model unit_gradient table_error
              [[pos_1]] 5 (of_int 1) (fun r => [of_int (Z.of_nat r)]))
    as (m' & E & T & V & _).
  - vm_compute. lia.
  - reflexivity.
  - reflexivity.
  - reflexivity.
  - intros r Hr. change (Z.to_nat 5) with 5 in Hr.
    destruct r as [|[|[|[|[|r]]]]]; [ | | | | | lia ]; qc_compute.
  - intro H. discriminate H.
  - exists m'. split; [ exact E | ]. split; [ exact T | exact V ].
Defined.

(** On a held-out set without any record, the average error is the
    not-a-number of [0.0 / 0], whatever the error function. *)
Lemma avg_error_no_record (m : Model.t) (Test : list (list LabeledPointHObj)) :
  (forall part, In part Test -> part = []) ->
  Model.avg_error m Test = Ok NaN.
Proof.
  intro H. unfold Model.avg_error.
  assert (G : each_worker
                (fun part => list_execute (Model.avg_error_obj m) part (0%Qc, 0%Z)) Test
              = Ok (map (fun _ => (0%Qc, 0%Z)) Test)).
  { induction Test as [|part Test IH]; [ reflexivity | ].
    cbn [each_worker map]. rewrite (H part) by now left. cbn [list_execute bind].
    rewrite IH by (intros p Hp; apply H; now right). reflexivity. }
  rewrite G. cbn [bind]. f_equal. rewrite !map_map. cbn [snd].
  assert (S0 : forall (l : list (list LabeledPointHObj)) z,
             fold_left Z.add (map (fun _ => 0%Z) l) z = z).
  { induction l as [|a l IHl]; intro z; [ reflexivity | ].
    cbn [map fold_left]. rewrite Z.add_0_r. apply IHl. }
  unfold Aggregator_sum_int. rewrite S0. reflexivity.
Qed.

Lemma first_stop_NaN (n r : nat) : first_stop (fun _ => NaN) r n = None.
Proof.
  revert r; induction n as [|n IH]; intro r; [ reflexivity | ].
  cbn [first_stop]. unfold stop_cond. cbn. rewrite andb_false_r. apply IH.
Qed.

(** X6. With a held-out set that holds no record, [train_test] never stops
    early: every evaluation is the not-a-number of [0.0 / 0], which is
    neither equal to zero nor greater than anything, so all [iters] rounds
    are applied and the early-stopping branch is not taken. *)
Theorem train_test_empty_held_out_never_stops
        (m : Model.t) (g : LabeledPointHObj -> Vector -> Vector)
        (ef : LabeledPointHObj -> ParameterBucket.t -> result Qc)
        (data Test : list (list LabeledPointHObj)) (iters : Z) (lr : Qc)
        (vs : nat -> Vector) :
  0 < Model.get_num_param m ->
  Model.gradient_func_ m = Some g ->
  Model.error_func_ m = Some ef ->
  vs 0 = ParameterBucket.value (Model.param_list_ m) ->
  (forall part, In part Test -> part = []) ->
  (forall r, r < Z.to_nat iters ->
     sgd_round (Regression.jobs_of (SGD.make (Some g) lr) data) (vs r)
               (Regression.count_samples data) = Ok (vs (S r))) ->
  exists out,
    Regression.train_test m data Test iters lr = Ok out /\
    Regression.rounds_applied out = Z.to_nat iters /\
    Regression.early_stopping_invoked out = false /\
    ParameterBucket.value (Model.param_list_ (Regression.model out))
    = vs (Z.to_nat iters) /\
    Model.trained_ (Regression.model out) = true.
Proof.
  intros Hn Hg Hef H0 Hempty Hrun. unfold Regression.train_test.
  apply Nat.ltb_lt in Hn. rewrite Hn, Hg, Hef. cbn [ASSERT_MSG Model.is_set bind].
  rewrite <- H0.
  rewrite (@train_test_loop_run _ _ vs (fun _ => NaN) (Z.to_nat iters) 0 (Num 0%Qc)).
  - rewrite first_stop_NaN. cbn [bind]. eexists. split; [ reflexivity | ].
    cbn. repeat split.
  - congruence.
  - intros k Hk. split; [ apply Hrun; lia | now apply avg_error_no_record ].
Qed.

Lemma train_test_empty_held_out_never_stops_witness :
  exists out,
    Regression.train_test table_model [[pos_1]] [[]; []] 5 (of_int 1) = Ok out /\
    Regression.rounds_applied out = 5 /\
    Regression.early_stopping_invoked out = false.
Proof.
  destruct (@train_test_empty_held_out_never_stops table_model unit_gradient table_error
              [[pos_1]] [[]; []] 5 (of_int 1) (fun r => [of_int (Z.of_nat r)]))
    as (out & E & R & S & _).
  - vm_compute. lia.
  - reflexivity.
  - reflexivity.
  - reflexivity.
  - intros part [<- | [<- | []]]; reflexivity.
  - intros r Hr. change (Z.to_nat 5) with 5 in Hr.
    destruct r as [|[|[|[|[|r]]]]]; [ | | | | | lia ]; qc_compute.
  - exists out. split; [ exact E | ]. split; [ exact R | exact S ].
Defined.

Lemma first_stop_bounds (es : nat -> dbl) (n r k : nat) :
  first_stop es r n = Some k -> r <= k < r + n.
Proof.
  intro H. apply first_stop_some in H. tauto.
Qed.

(** X7. [train_test] updates before it evaluates: on a run whose rounds and
    evaluations succeed, with [iters >= 1], at least one and at most [iters]
    rounds of updates are applied; training stops after the first round
    exactly when the first held-out error is zero, the initial [pastError]
    of 0.0 never being compared with it. *)
Theorem train_test_round_bounds
        (m : Model.t) (g : LabeledPointHObj -> Vector -> Vector)
        (ef : LabeledPointHObj -> ParameterBucket.t -> result Qc)
        (data Test : list (list LabeledPointHObj)) (iters : Z) (lr : Qc)
        (vs : nat -> Vector) (es : nat -> dbl) :
  0 < Model.get_num_param m ->
  Model.gradient_func_ m = Some g ->
  Model.error_func_ m = Some ef ->
  vs 0 = ParameterBucket.value (Model.param_list_ m) ->
  (1 <= iters)%Z ->
  (forall r, r < Z.to_nat iters ->
     sgd_round (Regression.jobs_of (SGD.make (Some g) lr) data) (vs r)
               (Regression.count_samples data) = Ok (vs (S r)) /\
     Model.avg_error (Model.with_param_list (ParameterBucket.synced (vs (S r))) m) Test
     = Ok (es r)) ->
  exists out,
    Regression.train_test m data Test iters lr = Ok out /\
    1 <= Regression.rounds_applied out <= Z.to_nat iters /\
    (es 0 = Num 0%Qc ->
     Regression.rounds_applied out = 1 /\ Regression.early_stopping_invoked out = true) /\
    (es 0 <> Num 0%Qc -> 2 <= Z.to_nat iters -> 2 <= Regression.rounds_applied out).
Proof.
  intros Hn Hg Hef H0 Hi Hrun. unfold Regression.train_test.
  apply Nat.ltb_lt in Hn. rewrite Hn, Hg, Hef. cbn [ASSERT_MSG Model.is_set bind].
  rewrite <- H0.
  rewrite (@train_test_loop_run _ _ vs es (Z.to_nat iters) 0 (Num 0%Qc));
    [ | congruence | intros k Hk; apply Hrun; lia ].
  assert (Z0 : stop_cond es 0 = true <-> es 0 = Num 0%Qc).
  { unfold stop_cond. cbn [Nat.eqb negb andb]. rewrite orb_false_r.
    destruct (es 0) as [q|]; cbn [dbl_is_zero].
    - rewrite Qc_eq_bool_true_iff. split; [ intros ->; reflexivity | intros [= ->]; reflexivity ].
    - split; discriminate. }
  destruct (first_stop es 0 (Z.to_nat iters)) as [k|] eqn:F; cbn [bind].
  - pose proof (first_stop_bounds _ _ _ F) as B.
    apply first_stop_some in F. destruct F as (_ & Hs & Hm).
    eexists. split; [ reflexivity | ]. cbn.
    split; [ lia | ]. split.
    + intro E0. apply Z0 in E0.
      destruct k as [|k]; [ split; reflexivity | ].
      rewrite (Hm 0) in E0 by lia. discriminate.
    + intros N0 _. destruct k as [|k]; [ | lia ].
      exfalso. apply N0. now apply Z0.
  - eexists. split; [ reflexivity | ]. cbn.
    split; [ lia | ]. split.
    + intro E0. apply Z0 in E0.
      rewrite (proj1 (first_stop_none es (Z.to_nat iters) 0) F 0) in E0 by lia.
      discriminate.
    + intros _ H2. exact H2.
Qed.

Lemma train_test_round_bounds_witness :
  exists out,
    Regression.train_test table_model [[pos_1]] [[pos_1]] 5 (of_int 1) = Ok out /\
    2 <= Regression.rounds_applied out <= 5.
Proof.
  destruct (@train_test_round_bounds table_model unit_gradient table_error
              [[pos_1]] [[pos_1]] 5 (of_int 1)
              (fun r => [of_int (Z.of_nat r)]) table_errors)
    as (out & E & B & _ & T).
  - vm_compute. lia.
  - reflexivity.
  - reflexivity.
  - reflexivity.
  - lia.
  - intros r Hr. change (Z.to_nat 5) with 5 in Hr.
    destruct r as [|[|[|[|[|r]]]]]; [ | | | | | lia ]; split; qc_compute.
  - exists out. split; [ exact E | ].
    assert (2 <= Regression.rounds_applied out).
    { apply T; [ | vm_compute; lia ]. intro H. vm_compute in H. discriminate H. }
    change (Z.to_nat 5) with 5 in B. lia.
Defined.

(** ** [Model::predict] and [Model::avg_error] *)

(** X8. When the predict function is set and succeeds on every record,
    [predict] overwrites the label of each record with its prediction and
    changes nothing else: the records keep their order, their number and
    their features.  When the function fails on a record, [predict] fails
    with that error once the records before it have been processed. *)
Theorem predict_overwrites_labels
        (m : Model.t) (pf : LabeledPointHObj -> ParameterBucket.t -> result Qc)
        (f : LabeledPointHObj -> Qc) (data : list LabeledPointHObj) :
  Model.predict_func_ m = Some pf ->
  (forall obj, In obj data -> pf obj (Model.param_list_ m) = Ok (f obj)) ->
  Model.predict m data = Ok (map (fun obj => {| x := x obj; y := f obj |}) data) /\
  (forall bad rest e,
      pf bad (Model.param_list_ m) = Err e ->
      Model.predict m (data ++ bad :: rest) = Err e).
Proof.
  intros Hpf Hall. unfold Model.predict. rewrite Hpf. cbn [Model.is_set ASSERT_MSG bind].
  split.
  - induction data as [|obj data IH]; [ reflexivity | ].
    cbn [Model.predict_each map]. rewrite Hpf. cbn [Model.call].
    rewrite (Hall obj) by now left. cbn [bind].
    rewrite IH by (intros o Ho; apply Hall; now right). reflexivity.
  - intros bad rest e Hbad.
    induction data as [|obj data IH].
    + cbn [app Model.predict_each]. rewrite Hpf. cbn [Model.call]. now rewrite Hbad.
    + cbn [app Model.predict_each]. rewrite Hpf. cbn [Model.call].
      rewrite (Hall obj) by now left. cbn [bind].
      rewrite IH by (intros o Ho; apply Hall; now right). reflexivity.
Qed.

Lemma predict_overwrites_labels_witness :
  Model.predict (Model.set_predict_func SVM.error_func_ svm_1_0) [pos_2; neg_1]
  = Ok (map (fun obj => {| x := x obj;
                           y := svm_error_value (Model.param_list_ svm_1_0) obj |})
            [pos_2; neg_1]).
Proof.
  apply (@predict_overwrites_labels (Model.set_predict_func SVM.error_func_ svm_1_0)
           SVM.error_func_ (svm_error_value (Model.param_list_ svm_1_0)) [pos_2; neg_1]).
  - reflexivity.
  - intros obj [<- | [<- | []]]; qc_compute.
Defined.

Lemma of_int_pos (z : Z) : (0 < z)%Z -> (0 < of_int z)%Qc.
Proof.
  intro H. unfold Qclt, of_int, Q2Qc. cbn [this]. rewrite !Qred_correct.
  unfold Qlt. simpl. lia.
Qed.

Lemma sum_list_bounds (l : list Qc) :
  (forall a, In a l -> (0 <= a)%Qc /\ (a <= 1)%Qc) ->
  (0 <= sum_list l)%Qc /\ (sum_list l <= of_int (Z.of_nat (length l)))%Qc.
Proof.
  induction l as [|a l IH]; intro H.
  - split; apply Qcle_refl.
  - destruct IH as [L U]; [ intros b Hb; apply H; now right | ].
    destruct (H a (or_introl eq_refl)) as [La Ua].
    cbn [sum_list fold_right length]. fold (sum_list l). split.
    + replace 0%Qc with (0 + 0)%Qc by ring. now apply Qcplus_le_compat.
    + rewrite Nat2Z.inj_succ, <- Z.add_1_l, of_int_add, of_int_1.
      now apply Qcplus_le_compat.
Qed.

(** An average of values between 0 and 1 lies between 0 and 1. *)
Lemma avg_error_in_unit_interval (m : Model.t)
        (ef : LabeledPointHObj -> ParameterBucket.t -> result Qc)
        (e : LabeledPointHObj -> Qc) (data : list (list LabeledPointHObj)) :
  Model.error_func_ m = Some ef ->
  (forall obj, In obj (concat data) ->
               ef obj (Model.param_list_ m) = Ok (e obj) /\
               (0 <= e obj)%Qc /\ (e obj <= 1)%Qc) ->
  0 < length (concat data) ->
  exists q, Model.avg_error m data = Ok (Num q) /\ (0 <= q)%Qc /\ (q <= 1)%Qc.
Proof.
  intros Hef Hall Hn.
  rewrite (@avg_error_closed_form m ef e Hef data) by (intros obj Ho; now apply Hall).
  unfold dbl_div_int.
  destruct (Z.eqb_spec (Z.of_nat (length (concat data))) 0) as [|_]; [ lia | ].
  set (N := of_int (Z.of_nat (length (concat data)))).
  set (total := sum_list (map e (concat data))).
  assert (HN : (0 < N)%Qc) by (apply of_int_pos; lia).
  assert (HN0 : N <> 0%Qc) by (apply of_int_neq_0; lia).
  destruct (sum_list_bounds (map e (concat data))) as [L U].
  { intros a Ha. apply in_map_iff in Ha. destruct Ha as (obj & <- & Ho).
    now apply Hall. }
  rewrite length_map in U. fold N total in L, U.
  assert (M : (total / N * N)%Qc = total) by (field; exact HN0).
  eexists. split; [ reflexivity | ]. split.
  - apply Qcmult_lt_0_le_reg_r with (z := N); [ exact HN | ].
    rewrite M, Qcmult_0_l. exact L.
  - apply Qcmult_lt_0_le_reg_r with (z := N); [ exact HN | ].
    rewrite M, Qcmult_1_l. exact U.
Qed.

(** X9. When every value of the error function lies between 0 and 1, as
    the values of a misclassification indicator do, the average error over a
    dataset with at least one record is a number between 0 and 1. *)
Theorem avg_error_unit_interval (m : Model.t)
        (ef : LabeledPointHObj -> ParameterBucket.t -> result Qc)
        (e : LabeledPointHObj -> Qc) (data : list (list LabeledPointHObj)) :
  Model.error_func_ m = Some ef ->
  (forall obj, In obj (concat data) ->
               ef obj (Model.param_list_ m) = Ok (e obj) /\
               (0 <= e obj)%Qc /\ (e obj <= 1)%Qc) ->
  0 < length (concat data) ->
  exists q, Model.avg_error m data = Ok (Num q) /\ (0 <= q)%Qc /\ (q <= 1)%Qc.
Proof.
  intros Hef Hall Hn. exact (@avg_error_in_unit_interval m ef e data Hef Hall Hn).
Qed.

Lemma avg_error_unit_interval_witness :
  exists q,
    Model.avg_error svm_1_0 [[pos_2; neg_1]; [pos_1; neg_3]] = Ok (Num q) /\
    (0 <= q)%Qc /\ (q <= 1)%Qc.
Proof.
  apply (@avg_error_unit_interval svm_1_0 SVM.error_func_
           (svm_error_value (Model.param_list_ svm_1_0))
           [[pos_2; neg_1]; [pos_1; neg_3]]).
  - reflexivity.
  - intros obj [<- | [<- | [<- | [<- | []]]]];
      (split; [ qc_compute | split; vm_compute; discriminate ]).
  - simpl. lia.
Defined.

(** ** The SVM model and the two misclassification tests *)

Lemma int_wrap_in_range (z : Z) :
  (INT_MIN <= z <= INT_MAX)%Z -> int_wrap z = z.
Proof.
  unfold INT_MIN, INT_MAX, int_wrap. intro H.
  rewrite Z.mod_small by lia. lia.
Qed.

Lemma int_add_in_range (a b : Z) :
  (INT_MIN <= a + b <= INT_MAX)%Z -> int_add a b = (a + b)%Z.
Proof. exact (@int_wrap_in_range (a + b)%Z). Qed.

(** X10. For an int [num_features]: when [0 <= num_features < INT_MAX],
    [SVM(num_features)] builds a model with [num_features + 1] parameters,
    all zero, the two SVM closures installed, the feature count recorded and
    the trained flag off.  When [num_features] is negative, or is [INT_MAX]
    (the int sum [num_features + 1] then wraps around to [INT_MIN]), the
    constructor raises nothing and builds a model without parameters, on
    which [train] stops on "The number of parameters is 0.". *)
Theorem svm_constructor (num_features : Z) (uninit : Qc) :
  (INT_MIN <= num_features <= INT_MAX)%Z ->
  ((0 <= num_features < INT_MAX)%Z ->
   exists s,
     SVMTrain.construct num_features uninit = Ok s /\
     Model.get_num_param (SVMTrain.base s) = Z.to_nat num_features + 1 /\
     (forall i, i <= Z.to_nat num_features ->
                ParameterBucket.param_at (Model.param_list_ (SVMTrain.base s)) i
                = Ok 0%Qc) /\
     Model.gradient_func_ (SVMTrain.base s) = Some SVM.gradient_func_ /\
     Model.error_func_ (SVMTrain.base s) = Some SVM.error_func_ /\
     Model.num_feature_ (SVMTrain.base s) = num_features /\
     Model.trained_ (SVMTrain.base s) = false) /\
  ((num_features < 0 \/ num_features = INT_MAX)%Z ->
   exists s,
     SVMTrain.construct num_features uninit = Ok s /\
     Model.get_num_param (SVMTrain.base s) = 0 /\
     Model.num_feature_ (SVMTrain.base s) = num_features /\
     forall data num_iters lr,
       SVMTrain.train s data num_iters lr
       = Err (AssertFailed "The number of parameters is 0.")).
Proof.
  intro Hint.
  unfold SVMTrain.construct, SVM.make, Model.make, Model.set_num_param. split; intro H.
  - rewrite int_add_in_range by (unfold INT_MIN, INT_MAX in *; lia).
    destruct (Z.ltb_spec 0 (num_features + 1)) as [_|]; [ | lia ].
    cbn [bind]. eexists. split; [ reflexivity | ].
    cbn [SVMTrain.base Model.get_num_param Model.param_list_ Model.with_param_list
         Model.gradient_func_ Model.error_func_ Model.num_feature_ Model.trained_
         Model.default].
    unfold Model.get_num_param, ParameterBucket.get_num_param, ParameterBucket.param_at,
      at_, ParameterBucket.init. cbn [ParameterBucket.value Model.param_list_].
    rewrite repeat_length.
    replace (Z.to_nat (num_features + 1)) with (Z.to_nat num_features + 1) by lia.
    split; [ reflexivity | ]. split; [ | repeat split ].
    intros i Hi. rewrite nth_error_repeat by lia. reflexivity.
  - assert (W : (int_add num_features 1 <= 0)%Z).
    { destruct H as [H | ->]; [ | vm_compute; discriminate ].
      rewrite int_add_in_range by (unfold INT_MIN, INT_MAX in *; lia). lia. }
    destruct (Z.ltb_spec 0 (int_add num_features 1)) as [|_]; [ lia | ].
    cbn [bind]. eexists. split; [ reflexivity | ]. repeat split.
Qed.

Lemma svm_constructor_witness :
  (exists s, SVMTrain.construct 3 (of_int 0) = Ok s /\
             Model.get_num_param (SVMTrain.base s) = 4) /\
  (exists s, SVMTrain.construct (-2) (of_int 0) = Ok s /\
             SVMTrain.train s [[pos_1]] 1 (of_int 1)
             = Err (AssertFailed "The number of parameters is 0.")) /\
  (exists s, SVMTrain.construct 2147483647 (of_int 0) = Ok s /\
             Model.get_num_param (SVMTrain.base s) = 0 /\
             SVMTrain.train s [[pos_1]] 1 (of_int 1)
             = Err (AssertFailed "The number of parameters is 0.")).
Proof.
  split; [ | split ].
  - destruct (proj1 (@svm_constructor 3%Z (of_int 0) ltac:(vm_compute; split; discriminate)))
      as (s & E & K & _); [ vm_compute; split; [ discriminate | reflexivity ] | ].
    exists s. split; [ exact E | exact K ].
  - destruct (proj2 (@svm_constructor (-2)%Z (of_int 0) ltac:(vm_compute; split; discriminate)))
      as (s & E & _ & _ & T); [ left; reflexivity | ].
    exists s. split; [ exact E | apply T ].
  - destruct (proj2 (@svm_constructor 2147483647%Z (of_int 0)
                       ltac:(vm_compute; split; discriminate)))
      as (s & E & K & _ & T); [ right; reflexivity | ].
    exists s. split; [ exact E | ]. split; [ exact K | apply T ].
Defined.

(** X11. On a record that fits the parameters, the error closure of [SVM]
    and the evaluation loop of [svm_fgd.cpp] agree whenever the margin
    [y (w.x + b)] is not zero (both count a negative margin, neither counts
    a positive one), and differ exactly when it is zero, which only the
    closure counts. *)
Theorem svm_error_tests_differ_only_on_boundary
        (w xs : Vector) (b lbl : Qc) (pend : Vector) (errors tests : Z) :
  length w = length xs ->
  let obj := {| x := xs; y := lbl |} in
  let margin := (lbl * (dot w xs + b))%Qc in
  exists ind counted,
    SVM.error_func_ obj {| ParameterBucket.value := w ++ [b];
                           ParameterBucket.pending := pend |} = Ok ind /\
    SvmFgd.test_obj (w ++ [b]) (length w) (errors, tests) obj
    = Ok (counted, (tests + 1)%Z) /\
    ((margin < 0)%Qc -> ind = 1%Qc /\ counted = (errors + 1)%Z) /\
    (margin = 0%Qc -> ind = 1%Qc /\ counted = errors) /\
    ((0 < margin)%Qc -> ind = 0%Qc /\ counted = errors).
Proof.
  intros H obj margin. unfold obj.
  rewrite svm_error_func_indicator, svm_fgd_test_obj_strict by assumption.
  fold margin. eexists. eexists. split; [ reflexivity | ]. split; [ reflexivity | ].
  split; [ | split ].
  - intro L. rewrite (proj2 (Qc_ltb_lt margin 0) L).
    rewrite (proj2 (Qc_leb_le margin 0) (Qclt_le_weak _ _ L)). split; reflexivity.
  - intros ->. split; reflexivity.
  - intro G. rewrite (proj2 (Qc_leb_gt margin 0) G).
    rewrite (proj2 (Qc_ltb_ge margin 0) (Qclt_le_weak _ _ G)). split; reflexivity.
Qed.

Lemma svm_error_tests_differ_only_on_boundary_witness :
  exists ind counted,
    SVM.error_func_ neg_1 (ParameterBucket.synced ([of_int 1] ++ [of_int 0])) = Ok ind /\
    SvmFgd.test_obj ([of_int 1] ++ [of_int 0]) 1 (0%Z, 0%Z) neg_1 = Ok (counted, 1%Z) /\
    ind = 1%Qc /\ counted = 1%Z.
Proof.
  destruct (@svm_error_tests_differ_only_on_boundary [of_int 1] [of_int 1] (of_int 0)
              (of_int (-1)) (zeros 2) 0 0 eq_refl)
    as (ind & counted & E1 & E2 & N & _).
  exists ind, counted. split; [ exact E1 | ]. split; [ exact E2 | ].
  apply N. reflexivity.
Defined.

(** The pass of one worker of the evaluation of [svm_fgd.cpp]. *)
Lemma svm_fgd_test_part (w : Vector) (b : Qc) (part : list LabeledPointHObj)
      (errors tests : Z) :
  (forall obj, In obj part -> length (x obj) = length w) ->
  list_execute (SvmFgd.test_obj (w ++ [b]) (length w)) part (errors, tests)
  = Ok ((errors
         + Z.of_nat (length (filter (fun obj => Qc_ltb (y obj * (dot w (x obj) + b)) 0)
                                    part)))%Z,
        (tests + Z.of_nat (length part))%Z).
Proof.
  revert errors tests; induction part as [|obj part IH]; intros errors tests H.
  - simpl. f_equal. f_equal; lia.
  - cbn [list_execute]. destruct obj as [xs lbl].
    rewrite svm_fgd_test_obj_strict by (symmetry; apply (H {| x := xs; y := lbl |}); now left).
    cbn [bind]. rewrite IH by (intros o Ho; apply H; now right).
    cbn [filter x y].
    destruct (Qc_ltb (lbl * (dot w xs + b)) 0); cbn [length]; f_equal; f_equal; lia.
Qed.

(** The evaluation of [svm_fgd.cpp] over all the workers, in closed form. *)
Lemma svm_fgd_test_closed_form (w : Vector) (b : Qc)
        (test_set : list (list LabeledPointHObj)) :
  (forall obj, In obj (concat test_set) -> length (x obj) = length w) ->
  let wrong := filter (fun obj => Qc_ltb (y obj * (dot w (x obj) + b)) 0)
                      (concat test_set) in
  SvmFgd.test (w ++ [b]) (length w) test_set
  = Ok (Z.of_nat (length wrong), Z.of_nat (length (concat test_set))) /\
  length wrong <= length (concat test_set).
Proof.
  intros H wrong. split; [ | apply filter_length_le ].
  unfold SvmFgd.test.
  assert (E : each_worker
                (fun part => list_execute (SvmFgd.test_obj (w ++ [b]) (length w)) part
                                          (0%Z, 0%Z)) test_set
              = Ok (map (fun part =>
                           (Z.of_nat (length (filter
                              (fun obj => Qc_ltb (y obj * (dot w (x obj) + b)) 0) part)),
                            Z.of_nat (length part))) test_set)).
  { induction test_set as [|part rest IH]; [ reflexivity | ].
    cbn [each_worker map].
    rewrite svm_fgd_test_part
      by (intros o Ho; apply H; simpl; apply in_or_app; now left).
    cbn [bind]. rewrite IH by (intros o Ho; apply H; simpl; apply in_or_app; now right).
    reflexivity. }
  rewrite E. cbn [bind]. rewrite !map_map. cbn [fst snd].
  unfold wrong, Aggregator_sum_int. clear E H wrong. f_equal. f_equal.
  - induction test_set as [|part rest IH]; [ reflexivity | ].
    cbn [map fold_left concat]. rewrite fold_left_Zadd_shift, IH.
    rewrite filter_app, length_app. lia.
  - induction test_set as [|part rest IH]; [ reflexivity | ].
    cbn [map fold_left concat]. rewrite fold_left_Zadd_shift, IH. rewrite length_app. lia.
Qed.

(** X12. On records that have as many features as there are weights, the
    evaluation of [svm_fgd.cpp] returns the number of test records whose
    margin [y (w.x + b)] is strictly negative and the total number of test
    records, however the records are distributed over the workers; the
    first never exceeds the second. *)
Theorem svm_fgd_test_counts (w : Vector) (b : Qc)
        (test_set : list (list LabeledPointHObj)) :
  (forall obj, In obj (concat test_set) -> length (x obj) = length w) ->
  let wrong := filter (fun obj => Qc_ltb (y obj * (dot w (x obj) + b)) 0)
                      (concat test_set) in
  SvmFgd.test (w ++ [b]) (length w) test_set
  = Ok (Z.of_nat (length wrong), Z.of_nat (length (concat test_set))) /\
  length wrong <= length (concat test_set).
Proof.
  intro H. exact (svm_fgd_test_closed_form w b test_set H).
Qed.

Lemma svm_fgd_test_counts_witness :
  SvmFgd.test ([of_int 1] ++ [of_int 0]) 1 [[pos_2; neg_1]; [pos_1; neg_3]]
  = Ok (1%Z, 4%Z).
Proof.
  pose proof (@svm_fgd_test_counts [of_int 1] (of_int 0)
                [[pos_2; neg_1]; [pos_1; neg_3]]) as W.
  destruct W as [W _].
  - intros obj [<- | [<- | [<- | [<- | []]]]]; reflexivity.
  - exact W.
Defined.

(** ** The training loop of [svm_fgd.cpp] *)

Lemma add_at_add_r (i : nat) (d : Qc) (a b : Vector) :
  length a = length b ->
  add_at i d (Vec.add a b) = Vec.add a (add_at i d b).
Proof.
  intro H. apply vector_ext.
  - now rewrite add_at_length, !add_length.
  - intro j. rewrite add_at_nth, add_length.
    rewrite !add_nth by (rewrite ?add_at_length; assumption).
    rewrite add_at_nth, H.
    destruct ((i =? j) && (i <? length b)); ring.
Qed.

Lemma fgd_gradient_length (eta C : Qc) (ns : Z) (nf : nat) (v : Vector)
      (obj : LabeledPointHObj) :
  length (fgd_gradient eta C ns nf v obj) = length v.
Proof.
  unfold fgd_gradient. destruct (Qc_ltb _ _); [ | apply zeros_length ].
  rewrite add_at_length.
  generalize (feaval (x obj)). intro fv.
  assert (G : forall pd, length (fold_left
                (fun pd fv => add_at (fst fv)
                                (eta * (snd fv * y obj) / of_int ns * C)%Qc pd) fv pd)
                         = length pd).
  { induction fv as [|[fea val] fv IH]; intro pd; [ reflexivity | ].
    cbn [fold_left]. rewrite IH. apply add_at_length. }
  rewrite G. apply zeros_length.
Qed.

Lemma fgd_decay_length (eta : Qc) (nf : nat) (v : Vector) :
  nf <= length v -> length (fgd_decay eta nf v) = length v.
Proof.
  intro H. unfold fgd_decay.
  rewrite length_app, length_map, length_firstn, zeros_length. lia.
Qed.

(** The decay loop of thread 0, over the indices of [v2]. *)
Lemma fgd_regularize_run (eta : Qc) (v2 v1 v3 p1 p2 p3 : Vector) :
  length p1 = length v1 ->
  length p2 = length v2 ->
  SvmFgdTrain.regularize eta (v1 ++ v2 ++ v3) (length v2) (length v1)
    {| ParameterBucket.value := v1 ++ v2 ++ v3;
       ParameterBucket.pending := p1 ++ p2 ++ p3 |}
  = Ok {| ParameterBucket.value := v1 ++ v2 ++ v3;
          ParameterBucket.pending :=
            p1 ++ Vec.add p2 (map (fun a => (- eta * a)%Qc) v2) ++ p3 |}.
Proof.
  revert v1 p1 p2; induction v2 as [|a v2 IH]; intros v1 p1 p2 H1 H2.
  - destruct p2; [ reflexivity | discriminate ].
  - destruct p2 as [|b p2]; [ discriminate | ]. simpl in H2.
    cbn [length SvmFgdTrain.regularize]. unfold at_ at 1.
    rewrite nth_error_app2 by lia. rewrite Nat.sub_diag. cbn [app nth_error bind].
    unfold ParameterBucket.update. cbn [ParameterBucket.value ParameterBucket.pending].
    assert (R : (length v1 <? length (v1 ++ a :: v2 ++ v3)) = true).
    { apply Nat.ltb_lt. rewrite length_app. simpl. lia. }
    rewrite R. cbn [bind]. rewrite <- H1, add_at_app.
    set (b' := (b + - eta * a)%Qc).
    replace (v1 ++ a :: v2 ++ v3) with ((v1 ++ [a]) ++ v2 ++ v3)
      by now rewrite <- app_assoc.
    replace (p1 ++ b' :: p2 ++ p3) with ((p1 ++ [b']) ++ p2 ++ p3)
      by now rewrite <- app_assoc.
    replace (S (length p1)) with (length (v1 ++ [a]))
      by (rewrite length_app; simpl; lia).
    rewrite IH by (rewrite ?length_app; simpl; lia).
    rewrite <- !app_assoc. reflexivity.
Qed.

Lemma fgd_regularize_synced (eta : Qc) (nf : nat) (v : Vector) :
  nf <= length v ->
  SvmFgdTrain.regularize eta v nf 0 (ParameterBucket.synced v)
  = Ok {| ParameterBucket.value := v; ParameterBucket.pending := fgd_decay eta nf v |}.
Proof.
  intro H.
  assert (L : length (firstn nf v) = nf) by (rewrite length_firstn; lia).
  pose proof (@fgd_regularize_run eta (firstn nf v) [] (skipn nf v) []
                (zeros nf) (zeros (length v - nf))
                eq_refl (eq_trans (zeros_length nf) (eq_sym L))) as R.
  cbn [app length] in R. rewrite firstn_skipn, L in R.
  unfold ParameterBucket.synced.
  replace (zeros (length v)) with (zeros nf ++ zeros (length v - nf))
    by (unfold zeros; rewrite <- repeat_app; f_equal; lia).
  rewrite R. unfold fgd_decay. do 3 f_equal.
  replace (zeros nf)
    with (zeros (length (map (fun a => (- eta * a)%Qc) (firstn nf v))))
    by now rewrite length_map, L.
  apply add_zeros_l.
Qed.

Lemma add_zeros_r_len (u : Vector) (n : nat) :
  length u = n -> Vec.add u (zeros n) = u.
Proof. intros <-. apply add_zeros_r. Qed.

Section FgdWorker.

Variables eta C : Qc.
Variable ns : Z.
Variable nf : nat.
Variable v : Vector.

Hypothesis bias_in_range : nf < length v.

(** The inner loop over the features of one record. *)
Lemma fgd_update_features_run (lbl : Qc) (fv : list (nat * Qc)) (a b : Vector) :
  ns <> 0%Z ->
  (forall fea val, In (fea, val) fv -> fea < length v) ->
  length a = length b ->
  SvmFgdTrain.update_features eta lbl C ns fv
    {| ParameterBucket.value := v; ParameterBucket.pending := Vec.add a b |}
  = Ok {| ParameterBucket.value := v;
          ParameterBucket.pending :=
            Vec.add a (fold_left
                         (fun pd fv =>
                            add_at (fst fv) (eta * (snd fv * lbl) / of_int ns * C)%Qc pd)
                         fv b) |}.
Proof.
  intros Hns. revert b; induction fv as [|[fea val] fv IH]; intros b Hin Hab;
    [ reflexivity | ].
  cbn [SvmFgdTrain.update_features fold_left fst snd].
  destruct (Z.eqb_spec ns 0) as [|_]; [ contradiction | ]. cbn [bind].
  unfold ParameterBucket.update. cbn [ParameterBucket.value ParameterBucket.pending].
  destruct (Nat.ltb_spec fea (length v)) as [_|G];
    [ | specialize (Hin fea val (or_introl eq_refl)); lia ].
  cbn [bind]. rewrite add_at_add_r by exact Hab.
  apply IH.
  - intros f u Hfu. apply (Hin f u). now right.
  - now rewrite add_at_length.
Qed.

(** One record adds its gradient, taken at [v], to the contribution. *)
Lemma fgd_train_obj_run (pend : Vector) (loss : Qc) (obj : LabeledPointHObj) :
  ns <> 0%Z ->
  length (x obj) <= length v ->
  length pend = length v ->
  exists loss',
    SvmFgdTrain.train_obj eta C ns nf v
      ({| ParameterBucket.value := v; ParameterBucket.pending := pend |}, loss) obj
    = Ok ({| ParameterBucket.value := v;
             ParameterBucket.pending := Vec.add pend (fgd_gradient eta C ns nf v obj) |},
          loss').
Proof.
  intros Hns Hx Hp. unfold SvmFgdTrain.train_obj, fgd_gradient.
  destruct (Qc_ltb (dot_with_intcpt v (x obj) * y obj) 1).
  - cbn [fst snd].
    replace {| ParameterBucket.value := v; ParameterBucket.pending := pend |}
      with {| ParameterBucket.value := v;
              ParameterBucket.pending := Vec.add pend (zeros (length v)) |}
      by now rewrite (@add_zeros_r_len pend (length v) Hp).
    rewrite fgd_update_features_run; auto.
    + cbn [bind]. destruct (Z.eqb_spec ns 0) as [|_]; [ contradiction | ]. cbn [bind].
      unfold ParameterBucket.update. cbn [ParameterBucket.value ParameterBucket.pending].
      destruct (Nat.ltb_spec nf (length v)) as [_|]; [ | lia ].
      cbn [bind]. rewrite add_at_add_r.
      * eexists. reflexivity.
      * rewrite Hp. symmetry.
        pose proof (fgd_gradient_length eta C ns nf v obj) as L.
        unfold fgd_gradient in L.
        assert (forall fv pd, length (fold_left
                  (fun pd fv => add_at (fst fv)
                                  (eta * (snd fv * y obj) / of_int ns * C)%Qc pd) fv pd)
                              = length pd) as G.
        { induction fv as [|[fea val] fv IH]; intro pd; [ reflexivity | ].
          cbn [fold_left]. rewrite IH. apply add_at_length. }
        rewrite G. apply zeros_length.
    + intros fea val Hin. apply feaval_in_range in Hin. lia.
    + now rewrite zeros_length.
  - eexists. rewrite (@add_zeros_r_len pend (length v) Hp). reflexivity.
Qed.

End FgdWorker.

Lemma fgd_worker_pass (eta C : Qc) (ns : Z) (nf : nat) (v : Vector)
      (part : list LabeledPointHObj) (pend : Vector) (loss : Qc) :
  nf < length v ->
  ns <> 0%Z \/ part = [] ->
  (forall obj, In obj part -> length (x obj) <= length v) ->
  length pend = length v ->
  exists loss',
    list_execute (SvmFgdTrain.train_obj eta C ns nf v) part
                 ({| ParameterBucket.value := v; ParameterBucket.pending := pend |}, loss)
    = Ok ({| ParameterBucket.value := v;
             ParameterBucket.pending :=
               fold_left Vec.add (map (fgd_gradient eta C ns nf v) part) pend |},
          loss').
Proof.
  intros Hb [Hns | ->]; [ | intros; eexists; reflexivity ].
  revert pend loss; induction part as [|obj part IH]; intros pend loss Hfit Hp.
  - eexists. reflexivity.
  - cbn [list_execute map fold_left].
    destruct (@fgd_train_obj_run eta C ns nf v Hb pend loss obj Hns) as (l1 & ->);
      [ apply Hfit; now left | exact Hp | ].
    cbn [bind]. apply IH.
    + intros o Ho. apply Hfit. now right.
    + now rewrite add_length.
Qed.

Lemma fgd_worker_run (eta C : Qc) (ns : Z) (nf : nat) (v : Vector)
      (job : bool * list LabeledPointHObj) :
  nf < length v ->
  ns <> 0%Z \/ snd job = [] ->
  (forall obj, In obj (snd job) -> length (x obj) <= length v) ->
  exists loss,
    SvmFgdTrain.worker eta C ns nf v job
    = Ok ({| ParameterBucket.value := v;
             ParameterBucket.pending :=
               fold_left Vec.add (map (fgd_gradient eta C ns nf v) (snd job))
                         (if fst job then fgd_decay eta nf v else zeros (length v)) |},
          loss).
Proof.
  intros Hb Hns Hfit. unfold SvmFgdTrain.worker.
  cbn [ParameterBucket.get_all_param ParameterBucket.synced ParameterBucket.value].
  fold (ParameterBucket.synced v).
  destruct (fst job).
  - rewrite fgd_regularize_synced by lia. cbn [bind].
    apply fgd_worker_pass; auto. apply fgd_decay_length. lia.
  - cbn [bind]. unfold ParameterBucket.synced.
    apply fgd_worker_pass; auto. apply zeros_length.
Qed.

Lemma each_worker_first {D S L : Type} (f : D -> result (S * L)) (P : D -> S)
      (jobs : list D) :
  (forall job, In job jobs -> exists l, f job = Ok (P job, l)) ->
  exists ws, each_worker f jobs = Ok ws /\ map fst ws = map P jobs.
Proof.
  induction jobs as [|job jobs IH]; intro H.
  - exists []. split; reflexivity.
  - cbn [each_worker]. destruct (H job (or_introl eq_refl)) as (l & ->). cbn [bind].
    destruct IH as (ws & -> & E); [ intros j Hj; apply H; now right | ].
    cbn [bind]. eexists. split; [ reflexivity | ]. cbn [map fst]. now rewrite E.
Qed.

Lemma sum_list_concat {A : Type} (f : A -> Qc) (parts : list (list A)) :
  sum_list (map f (concat parts))
  = sum_list (map (fun part => sum_list (map f part)) parts).
Proof.
  induction parts as [|part parts IH]; [ reflexivity | ].
  cbn [concat map]. rewrite map_app, sum_list_app, IH. reflexivity.
Qed.

Lemma fold_add_nth (j : nat) (l : list Vector) (a : Vector) :
  (forall c, In c l -> length c = length a) ->
  nth j (fold_left Vec.add l a) 0%Qc
  = (nth j a 0 + sum_list (map (fun c => nth j c 0%Qc) l))%Qc.
Proof. exact (@barrier_nth j l a). Qed.

Lemma fold_add_length (l : list Vector) (a : Vector) :
  length (fold_left Vec.add l a) = length a.
Proof. exact (barrier_length l a). Qed.

(** One iteration of [svm_fgd.cpp] over at least one worker, in closed form:
    the decay of the weights, once, and the gradient of every record of
    every worker, each taken at the parameters the iteration started from. *)
Lemma fgd_iteration_closed_form (C : Qc) (nf : nat)
      (part0 : list LabeledPointHObj) (rest : list (list LabeledPointHObj))
      (ns : Z) (i : nat) (v : Vector) :
  nf < length v ->
  ns <> 0%Z \/ (forall part, In part (part0 :: rest) -> part = []) ->
  (forall obj, In obj (concat (part0 :: rest)) -> length (x obj) <= length v) ->
  exists v' loss,
    SvmFgdTrain.iteration C nf (part0 :: rest) ns i v = Ok (v', loss) /\
    length v' = length v /\
    forall j,
      nth j v' 0%Qc
      = (nth j v 0 + nth j (fgd_decay (SvmFgdTrain.eta i) nf v) 0
         + sum_list (map (fun obj =>
                            nth j (fgd_gradient (SvmFgdTrain.eta i) C ns nf v obj) 0%Qc)
                         (concat (part0 :: rest))))%Qc.
Proof.
  intros Hb Hns Hfit. unfold SvmFgdTrain.iteration.
  set (et := SvmFgdTrain.eta i).
  set (G := fgd_gradient et C ns nf v).
  set (P := fun job : bool * list LabeledPointHObj =>
              {| ParameterBucket.value := v;
                 ParameterBucket.pending :=
                   fold_left Vec.add (map G (snd job))
                             (if fst job then fgd_decay et nf v else zeros (length v)) |}).
  destruct (@each_worker_first _ _ _ (SvmFgdTrain.worker et C ns nf v) P
              (SvmFgdTrain.with_tid0 (part0 :: rest))) as (ws & -> & E).
  { intros job Hin. apply fgd_worker_run; [ exact Hb | | ].
    - destruct Hns as [Hns | Hall]; [ now left | right ].
      apply Hall. destruct Hin as [<- | Hin]; [ now left | ].
      apply in_map_iff in Hin. destruct Hin as (part & <- & Hp). now right.
    - intros obj Ho. apply Hfit.
      destruct Hin as [<- | Hin].
      + cbn [snd] in Ho. cbn [concat]. apply in_or_app. now left.
      + apply in_map_iff in Hin. destruct Hin as (part & <- & Hp).
        cbn [snd] in Ho. cbn [concat]. apply in_or_app. right.
        apply in_concat. exists part. split; assumption. }
  cbn [bind]. eexists. eexists. split; [ reflexivity | ].
  split; [ apply barrier_length | ].
  intro j.
  replace (map (fun w : ParameterBucket.t * Qc => ParameterBucket.pending (fst w)) ws)
    with (map ParameterBucket.pending (map fst ws)) by now rewrite map_map.
  rewrite E, map_map.
  assert (GL : forall part c, In c (map G part) -> length c = length v).
  { intros part c Hc. apply in_map_iff in Hc. destruct Hc as (o & <- & _).
    apply fgd_gradient_length. }
  rewrite barrier_nth.
  2:{ intros c Hc. apply in_map_iff in Hc. destruct Hc as (job & <- & _).
      unfold P. cbn [ParameterBucket.pending]. rewrite fold_add_length.
      destruct (fst job); [ apply fgd_decay_length; lia | apply zeros_length ]. }
  rewrite map_map. cbn [SvmFgdTrain.with_tid0 map sum_list fold_right].
  unfold P at 1. cbn [ParameterBucket.pending fst snd].
  rewrite fold_add_nth
    by (intros c Hc; rewrite (GL part0 c Hc); symmetry; apply fgd_decay_length; lia).
  rewrite map_map.
  fold (sum_list (map (fun job : bool * list LabeledPointHObj =>
                         nth j (ParameterBucket.pending (P job)) 0%Qc)
                      (map (fun part => (false, part)) rest))).
  rewrite map_map.
  rewrite (map_ext
             (fun part : list LabeledPointHObj =>
                nth j (ParameterBucket.pending (P (false, part))) 0%Qc)
             (fun part => sum_list (map (fun obj => nth j (G obj) 0%Qc) part))).
  2:{ intro part. unfold P. cbn [ParameterBucket.pending fst snd].
      rewrite fold_add_nth
        by (intros c Hc; rewrite (GL part c Hc); now rewrite zeros_length).
      rewrite zeros_nth, map_map. ring. }
  rewrite (sum_list_concat (fun obj => nth j (G obj) 0%Qc) (part0 :: rest)).
  cbn [map sum_list fold_right].
  fold (sum_list (map (fun part => sum_list (map (fun obj => nth j (G obj) 0%Qc) part))
                      rest)).
  fold (sum_list (map (fun obj => nth j (G obj) 0%Qc) part0)).
  ring.
Qed.

Lemma fgd_decay_cons (eta : Qc) (nf : nat) (a : Qc) (v : Vector) :
  fgd_decay eta (S nf) (a :: v) = (- eta * a)%Qc :: fgd_decay eta nf v.
Proof. reflexivity. Qed.

Lemma fgd_decay_nth (eta : Qc) (nf j : nat) (v : Vector) :
  nth j (fgd_decay eta nf v) 0%Qc
  = if (j <? nf) && (j <? length v) then (- eta * nth j v 0)%Qc else 0%Qc.
Proof.
  revert nf j; induction v as [|a v IH]; intros nf j.
  - unfold fgd_decay. rewrite firstn_nil. cbn [map app length Nat.sub].
    rewrite andb_false_r. destruct j; reflexivity.
  - destruct nf as [|nf].
    + unfold fgd_decay. cbn [firstn map app]. rewrite zeros_nth. reflexivity.
    + rewrite fgd_decay_cons. destruct j as [|j]; [ reflexivity | ].
      cbn [nth length]. rewrite IH. reflexivity.
Qed.

Lemma eta_0 : SvmFgdTrain.eta 0 = 1%Qc.
Proof. apply Qc_is_canon. reflexivity. Qed.

(** X13. In an iteration of the training loop of [svm_fgd.cpp] with at
    least one worker and records that fit the parameters, every gradient is
    taken at the parameters the iteration started from: each resulting
    parameter is the old one, plus the decay [- eta * w] if it is a weight,
    plus the sum over all records of all workers of that record's
    contribution at the starting parameters.  The bias is never decayed, and
    in the first iteration ([eta = 1]) the decay cancels the old weights. *)
Theorem fgd_iteration_gradients_at_snapshot (C : Qc) (nf : nat)
        (part0 : list LabeledPointHObj) (rest : list (list LabeledPointHObj))
        (ns : Z) (i : nat) (v : Vector) :
  length v = nf + 1 ->
  ns <> 0%Z ->
  (forall obj, In obj (concat (part0 :: rest)) -> length (x obj) <= nf + 1) ->
  exists v' loss,
    SvmFgdTrain.iteration C nf (part0 :: rest) ns i v = Ok (v', loss) /\
    length v' = nf + 1 /\
    (forall j, j < nf ->
       nth j v' 0%Qc
       = (nth j v 0 - SvmFgdTrain.eta i * nth j v 0
          + sum_list (map (fun obj =>
                             nth j (fgd_gradient (SvmFgdTrain.eta i) C ns nf v obj) 0%Qc)
                          (concat (part0 :: rest))))%Qc) /\
    nth nf v' 0%Qc
    = (nth nf v 0
       + sum_list (map (fun obj =>
                          nth nf (fgd_gradient (SvmFgdTrain.eta i) C ns nf v obj) 0%Qc)
                       (concat (part0 :: rest))))%Qc /\
    (i = 0 ->
     forall j, j < nf ->
       nth j v' 0%Qc
       = sum_list (map (fun obj => nth j (fgd_gradient 1%Qc C ns nf v obj) 0%Qc)
                       (concat (part0 :: rest)))).
Proof.
  intros Hv Hns Hfit.
  destruct (@fgd_iteration_closed_form C nf part0 rest ns i v)
    as (v' & loss & E & L & N); [ lia | now left | | ].
  { intros obj Ho. rewrite Hv. now apply Hfit. }
  exists v', loss. split; [ exact E | ]. split; [ congruence | ].
  split; [ | split ].
  - intros j Hj. rewrite N, fgd_decay_nth.
    destruct (Nat.ltb_spec j nf) as [_|]; [ | lia ].
    destruct (Nat.ltb_spec j (length v)) as [_|]; [ | lia ].
    cbn [andb]. ring.
  - rewrite N, fgd_decay_nth. rewrite Nat.ltb_irrefl. cbn [andb]. ring.
  - intros -> j Hj. rewrite N, fgd_decay_nth, eta_0.
    destruct (Nat.ltb_spec j nf) as [_|]; [ | lia ].
    destruct (Nat.ltb_spec j (length v)) as [_|]; [ | lia ].
    cbn [andb]. ring.
Qed.

Lemma fgd_iteration_gradients_at_snapshot_witness :
  exists v' loss,
    SvmFgdTrain.iteration (of_int 2) 1 [[pos_1; pos_1]] 2 0 [of_int 5; of_int (-5)]
    = Ok (v', loss) /\
    nth 0 v' 0%Qc = of_int 2 /\ nth 1 v' 0%Qc = of_int (-3).
Proof.
  destruct (@fgd_iteration_gradients_at_snapshot (of_int 2) 1 [pos_1; pos_1] [] 2 0
              [of_int 5; of_int (-5)])
    as (v' & loss & E & _ & _ & B & W).
  - reflexivity.
  - lia.
  - intros obj [<- | [<- | []]]; simpl; lia.
  - exists v', loss. split; [ exact E | ]. split.
    + rewrite (W eq_refl 0) by lia. qc_compute.
    + rewrite B. qc_compute.
Defined.

(** X14. An iteration of the training loop of [svm_fgd.cpp] does not depend
    on how the records are distributed: with the same global count, any
    number of workers holding the partitions of a dataset produce the
    parameters that a single worker holding all the records produces. *)
Theorem fgd_iteration_partition_independent (C : Qc) (nf : nat)
        (part0 : list LabeledPointHObj) (rest : list (list LabeledPointHObj))
        (ns : Z) (i : nat) (v : Vector) :
  nf < length v ->
  ns <> 0%Z ->
  (forall obj, In obj (concat (part0 :: rest)) -> length (x obj) <= length v) ->
  exists v' loss_split loss_whole,
    SvmFgdTrain.iteration C nf (part0 :: rest) ns i v = Ok (v', loss_split) /\
    SvmFgdTrain.iteration C nf [concat (part0 :: rest)] ns i v = Ok (v', loss_whole).
Proof.
  intros Hb Hns Hfit.
  destruct (@fgd_iteration_closed_form C nf part0 rest ns i v Hb (or_introl Hns) Hfit)
    as (v1 & l1 & E1 & L1 & N1).
  destruct (@fgd_iteration_closed_form C nf (concat (part0 :: rest)) [] ns i v Hb
              (or_introl Hns)) as (v2 & l2 & E2 & L2 & N2).
  { intros obj Ho. apply Hfit. cbn [concat] in Ho. now rewrite app_nil_r in Ho. }
  assert (V : v1 = v2).
  { apply vector_ext; [ congruence | ]. intro j. rewrite N1, N2.
    cbn [concat]. now rewrite app_nil_r. }
  subst v2. exists v1, l1, l2. split; assumption.
Qed.

Lemma fgd_iteration_partition_independent_witness :
  exists v' loss_split loss_whole,
    SvmFgdTrain.iteration (of_int 1) 1 [[pos_1]; [neg_1]; [pos_2]] 3 1
                          [of_int 0; of_int 0] = Ok (v', loss_split) /\
    SvmFgdTrain.iteration (of_int 1) 1 [concat [[pos_1]; [neg_1]; [pos_2]]] 3 1
                          [of_int 0; of_int 0] = Ok (v', loss_whole).
Proof.
  apply (@fgd_iteration_partition_independent (of_int 1) 1 [pos_1] [[neg_1]; [pos_2]] 3 1
           [of_int 0; of_int 0]).
  - simpl. lia.
  - lia.
  - intros obj [<- | [<- | [<- | []]]]; simpl; lia.
Defined.

Lemma fgd_iteration_total (C : Qc) (nf : nat) (train_set : list (list LabeledPointHObj))
      (ns : Z) (i : nat) (v : Vector) :
  nf < length v ->
  ns <> 0%Z \/ (forall part, In part train_set -> part = []) ->
  (forall obj, In obj (concat train_set) -> length (x obj) <= length v) ->
  exists v' loss,
    SvmFgdTrain.iteration C nf train_set ns i v = Ok (v', loss) /\
    length v' = length v.
Proof.
  intros Hb Hns Hfit. destruct train_set as [|part0 rest].
  - exists v, 0%Qc. split; reflexivity.
  - destruct (@fgd_iteration_closed_form C nf part0 rest ns i v Hb Hns Hfit)
      as (v' & loss & E & L & _).
    exists v', loss. split; assumption.
Qed.

Lemma fgd_main_loop_total (C : Qc) (nf : nat) (train_set : list (list LabeledPointHObj))
      (ns : Z) (k n i : nat) (v : Vector) :
  nf < k ->
  length v = k ->
  ns <> 0%Z \/ (forall part, In part train_set -> part = []) ->
  (forall obj, In obj (concat train_set) -> length (x obj) <= k) ->
  exists v', SvmFgdTrain.main_loop C nf train_set ns n i v = Ok v' /\ length v' = k.
Proof.
  intros Hb Hv Hns Hfit. revert i v Hv; induction n as [|n IH]; intros i v Hv.
  - exists v. split; [ reflexivity | exact Hv ].
  - cbn [SvmFgdTrain.main_loop].
    destruct (@fgd_iteration_total C nf train_set ns i v) as (v' & loss & -> & L);
      [ lia | exact Hns | intros obj Ho; rewrite Hv; now apply Hfit | ].
    cbn [bind fst]. apply IH. congruence.
Qed.

Lemma vector_split_last (v : Vector) (n : nat) :
  length v = n + 1 -> exists w b, v = w ++ [b] /\ length w = n.
Proof.
  intro H. destruct (exists_last (l := v)) as (w & b & ->).
  - intros ->. simpl in H. lia.
  - exists w, b. split; [ reflexivity | ]. rewrite length_app in H. simpl in H. lia.
Qed.

Lemma dot_zeros (n : nat) (xs : Vector) : dot (zeros n) xs = 0%Qc.
Proof.
  revert xs; induction n as [|n IH]; intros [|b xs]; try reflexivity.
  change (zeros (S n)) with (0%Qc :: zeros n). cbn [dot]. rewrite IH. ring.
Qed.

(** X15. The driver of [svm_fgd.cpp] completes on well-formed data: when
    the feature count [num_features] is below [INT_MAX] (so that the int
    [num_features + 1] is the number of parameters) and every record of the
    training set and of the test set has exactly [num_features] features,
    [svm()] returns a number of errors between 0 and the number of test
    records, together with that number.  With no iteration at all the
    parameters are all zero, every margin is 0, and since only strictly
    negative margins are counted, no error is reported whatever the test
    set. *)
Theorem svm_fgd_driver_completes (C : Qc) (nf : nat)
        (train_set test_set : list (list LabeledPointHObj)) (num_iter : Z) :
  (Z.of_nat nf < INT_MAX)%Z ->
  (forall obj, In obj (concat train_set) -> length (x obj) = nf) ->
  (forall obj, In obj (concat test_set) -> length (x obj) = nf) ->
  exists wrong,
    SvmFgdTrain.svm C nf train_set test_set num_iter
    = Ok (wrong, Z.of_nat (length (concat test_set))) /\
    (0 <= wrong <= Z.of_nat (length (concat test_set)))%Z /\
    ((num_iter <= 0)%Z -> wrong = 0%Z).
Proof.
  intros Hint Htrain Htest. unfold SvmFgdTrain.svm.
  rewrite int_add_in_range by (unfold INT_MIN, INT_MAX in *; lia).
  replace (Z.to_nat (Z.of_nat nf + 1)) with (nf + 1) by lia.
  set (ns := Aggregator_sum_int (map (fun part => Z.of_nat (length part)) train_set)).
  destruct (@fgd_main_loop_total C nf train_set ns (nf + 1) (Z.to_nat num_iter) 0
              (ParameterBucket.value (ParameterBucket.init (nf + 1) 0%Qc)))
    as (v & E & L); [ lia | apply repeat_length | | | ].
  { destruct (Z.eq_dec ns 0) as [Z0 | NZ]; [ right | now left ].
    exact (sizes_sum_zero train_set Z0). }
  { intros obj Ho. rewrite (Htrain obj Ho). lia. }
  rewrite E. cbn [bind].
  destruct (@vector_split_last v nf L) as (w & b & -> & Lw).
  destruct (@svm_fgd_test_closed_form w b test_set) as [T B].
  { intros obj Ho. rewrite Lw. now apply Htest. }
  rewrite <- Lw. rewrite T. eexists. split; [ reflexivity | ].
  split; [ lia | ].
  intro Hn. replace (Z.to_nat num_iter) with 0 in E by lia.
  cbn [SvmFgdTrain.main_loop ParameterBucket.init ParameterBucket.value] in E.
  injection E as E.
  assert (Wz : w = zeros nf /\ b = 0%Qc).
  { rewrite repeat_app in E. cbn [repeat] in E.
    apply app_inj_tail in E. destruct E as [<- <-]. split; reflexivity. }
  destruct Wz as [-> ->].
  assert (F : filter (fun obj => Qc_ltb (y obj * (dot (zeros nf) (x obj) + 0)) 0)
                     (concat test_set) = []).
  { generalize (concat test_set). intro l.
    induction l as [|obj l IH]; [ reflexivity | ].
    cbn [filter]. rewrite dot_zeros.
    replace (y obj * (0 + 0))%Qc with 0%Qc by ring.
    replace (Qc_ltb 0 0) with false by reflexivity. exact IH. }
  rewrite F. reflexivity.
Qed.

Lemma svm_fgd_driver_completes_witness :
  exists wrong,
    SvmFgdTrain.svm (of_int 1) 1 [[pos_1; neg_1]; [pos_2]] [[pos_2; neg_1]; [neg_3]] 2
    = Ok (wrong, 3%Z) /\
    (0 <= wrong <= 3)%Z.
Proof.
  destruct (@svm_fgd_driver_completes (of_int 1) 1 [[pos_1; neg_1]; [pos_2]]
              [[pos_2; neg_1]; [neg_3]] 2)
    as (wrong & E & B & _).
  - vm_compute. reflexivity.
  - intros obj [<- | [<- | [<- | []]]]; reflexivity.
  - intros obj [<- | [<- | [<- | []]]]; reflexivity.
  - exists wrong. split; [ exact E | exact B ].
Defined.

(** ** Training completes *)

Lemma avg_error_total (m : Model.t)
      (ef : LabeledPointHObj -> ParameterBucket.t -> result Qc)
      (data : list (list LabeledPointHObj)) :
  Model.error_func_ m = Some ef ->
  (forall obj, In obj (concat data) -> exists q, ef obj (Model.param_list_ m) = Ok q) ->
  exists d, Model.avg_error m data = Ok d.
Proof.
  intros Hef Hall. unfold Model.avg_error.
  assert (Part : forall part acc,
             (forall obj, In obj part -> exists q, ef obj (Model.param_list_ m) = Ok q) ->
             exists r, list_execute (Model.avg_error_obj m) part acc = Ok r).
  { induction part as [|obj part IH]; intros acc H; [ eexists; reflexivity | ].
    cbn [list_execute]. unfold Model.avg_error_obj at 1. rewrite Hef. cbn [Model.call].
    destruct (H obj (or_introl eq_refl)) as (q & ->). cbn [bind].
    apply IH. intros o Ho. apply H. now right. }
  assert (All : exists ls,
             each_worker (fun part => list_execute (Model.avg_error_obj m) part
                                                   (0%Qc, 0%Z)) data = Ok ls).
  { induction data as [|part data IH]; [ eexists; reflexivity | ].
    cbn [each_worker].
    destruct (Part part (0%Qc, 0%Z)) as (r & ->).
    { intros obj Ho. apply Hall. simpl. apply in_or_app. now left. }
    cbn [bind]. destruct IH as (ls & ->).
    { intros obj Ho. apply Hall. simpl. apply in_or_app. now right. }
    eexists. reflexivity. }
  destruct All as (ls & ->). cbn [bind]. eexists. reflexivity.
Qed.

Lemma regression_jobs_ok (g : LabeledPointHObj -> Vector -> Vector) (lr : Qc)
      (data : list (list LabeledPointHObj)) (job : SGD.t * list LabeledPointHObj) :
  In job (Regression.jobs_of (SGD.make (Some g) lr) data) ->
  SGD.gradient_func_ (fst job) = Some g /\
  SGD.learning_rate_ (fst job) = lr /\
  (Regression.count_samples data <> 0%Z \/ snd job = []).
Proof.
  intro Hin. apply in_map_iff in Hin. destruct Hin as (part & <- & Hp).
  split; [ reflexivity | ]. split; [ reflexivity | ].
  destruct (Z.eq_dec (Regression.count_samples data) 0) as [Z0 | NZ]; [ | now left ].
  right. exact (sizes_sum_zero data Z0 part Hp).
Qed.

(** X16. [Regression::train] completes whenever its configuration is
    sound: with at least one parameter, both closures set, a non-zero rate
    and a gradient function whose vectors fit the parameters (and an error
    function that succeeds, when the per-round report is on), it returns a
    trained model with the same number of parameters, for any data and any
    number of iterations. *)
Theorem regression_train_completes
        (m : Model.t) (g : LabeledPointHObj -> Vector -> Vector)
        (ef : LabeledPointHObj -> ParameterBucket.t -> result Qc)
        (data : list (list LabeledPointHObj)) (iters : Z) (lr : Qc) :
  0 < Model.get_num_param m ->
  Model.gradient_func_ m = Some g ->
  Model.error_func_ m = Some ef ->
  lr <> 0%Qc ->
  in_range g (Model.get_num_param m) ->
  (Model.report_per_round m = true -> forall obj p, exists q, ef obj p = Ok q) ->
  exists m',
    Regression.train m data iters lr = Ok m' /\
    Model.trained_ m' = true /\
    Model.get_num_param m' = Model.get_num_param m.
Proof.
  intros Hn Hg Hef Hlr Hr Hrep. unfold Regression.train.
  apply Nat.ltb_lt in Hn. rewrite Hn, Hg, Hef. cbn [ASSERT_MSG Model.is_set bind].
  set (k := Model.get_num_param m) in *.
  assert (Loop : forall n m0,
             Model.get_num_param m0 = k ->
             Model.error_func_ m0 = Some ef ->
             Model.report_per_round m0 = Model.report_per_round m ->
             exists m1,
               Regression.train_loop (SGD.make (Some g) lr) data
                                     (Regression.count_samples data) n m0 = Ok m1 /\
               Model.get_num_param m1 = k).
  { induction n as [|n IH]; intros m0 Hk He Hp.
    - exists m0. split; [ reflexivity | exact Hk ].
    - cbn [Regression.train_loop].
      destruct (@sgd_round_total g lr (Regression.jobs_of (SGD.make (Some g) lr) data)
                  (ParameterBucket.value (Model.param_list_ m0))
                  (Regression.count_samples data) Hlr) as (v' & -> & L).
      { unfold Model.get_num_param, ParameterBucket.get_num_param in Hk.
        rewrite Hk. exact Hr. }
      { intros job Hin. now apply regression_jobs_ok. }
      cbn [bind].
      set (m' := Model.with_param_list (ParameterBucket.synced v') m0).
      assert (R : exists ls,
                 (if Model.report_per_round m'
                  then each_worker
                         (fun part => list_execute (Regression.report_obj m') part 0%Qc)
                         data
                  else Ok []) = Ok ls).
      { destruct (Model.report_per_round m') eqn:E; [ | eexists; reflexivity ].
        apply (@report_total m' ef data He). intros obj _.
        apply Hrep. rewrite <- Hp. exact E. }
      destruct R as (ls & ->). cbn [bind]. apply IH.
      + unfold m', Model.get_num_param, ParameterBucket.get_num_param. simpl.
        rewrite L. exact Hk.
      + exact He.
      + exact Hp. }
  destruct (Loop (Z.to_nat iters) m eq_refl Hef eq_refl) as (m1 & -> & K).
  cbn [bind]. eexists. split; [ reflexivity | ]. split; [ reflexivity | exact K ].
Qed.

Lemma regression_train_completes_witness :
  exists m',
    Regression.train svm_1_0 [[pos_2; neg_1]; []; [pos_1]] 4 (of_int 1 / of_int 3)%Qc
    = Ok m' /\
    Model.trained_ m' = true /\ Model.get_num_param m' = 2.
Proof.
  destruct (@regression_train_completes svm_1_0 SVM.gradient_func_ SVM.error_func_
              [[pos_2; neg_1]; []; [pos_1]] 4 (of_int 1 / of_int 3)%Qc)
    as (m' & E & T & K).
  - vm_compute. lia.
  - reflexivity.
  - reflexivity.
  - intro H. vm_compute in H. discriminate H.
  - apply svm_gradient_in_range.
  - intro H. discriminate H.
  - exists m'. split; [ exact E | ]. split; [ exact T | exact K ].
Defined.

(** X17. [train_test] completes under the same conditions, with an error
    function that succeeds: it returns a trained model with the same number
    of parameters after at most [iters] rounds. *)
Theorem train_test_completes
        (m : Model.t) (g : LabeledPointHObj -> Vector -> Vector)
        (ef : LabeledPointHObj -> ParameterBucket.t -> result Qc)
        (data Test : list (list LabeledPointHObj)) (iters : Z) (lr : Qc) :
  0 < Model.get_num_param m ->
  Model.gradient_func_ m = Some g ->
  Model.error_func_ m = Some ef ->
  lr <> 0%Qc ->
  in_range g (Model.get_num_param m) ->
  (forall obj p, exists q, ef obj p = Ok q) ->
  exists out,
    Regression.train_test m data Test iters lr = Ok out /\
    Model.trained_ (Regression.model out) = true /\
    Model.get_num_param (Regression.model out) = Model.get_num_param m /\
    Regression.rounds_applied out <= Z.to_nat iters.
Proof.
  intros Hn Hg Hef Hlr Hr Htot. unfold Regression.train_test.
  pose proof Hn as Hn'. apply Nat.ltb_lt in Hn'.
  rewrite Hn', Hg, Hef. cbn [ASSERT_MSG Model.is_set bind].
  set (k := Model.get_num_param m) in *.
  assert (Loop : forall n round v past,
             length v = k ->
             exists v' rounds early,
               Regression.train_test_loop
                 (fun v => sgd_round (Regression.jobs_of (SGD.make (Some g) lr) data) v
                                     (Regression.count_samples data))
                 (fun v => Model.avg_error
                             (Model.with_param_list (ParameterBucket.synced v) m) Test)
                 n round v past = Ok (v', rounds, early) /\
               length v' = k /\ rounds <= round + n).
  { induction n as [|n IH]; intros round v past Hv.
    - exists v, round, false. split; [ reflexivity | ]. split; [ exact Hv | lia ].
    - cbn [Regression.train_test_loop].
      destruct (@sgd_round_total g lr (Regression.jobs_of (SGD.make (Some g) lr) data)
                  v (Regression.count_samples data) Hlr) as (v' & -> & L).
      { rewrite Hv. exact Hr. }
      { intros job Hin. now apply regression_jobs_ok. }
      cbn [bind].
      destruct (@avg_error_total
                  (Model.with_param_list (ParameterBucket.synced v') m) ef Test Hef)
        as (d & ->); [ intros obj _; apply Htot | ].
      cbn [bind].
      destruct (dbl_is_zero d || negb (round =? 0) && dbl_gt d past).
      + exists v', (S round), true. split; [ reflexivity | ].
        split; [ congruence | lia ].
      + destruct (IH (S round) v' d) as (v'' & rounds & early & E & L' & B);
          [ congruence | ].
        exists v'', rounds, early. split; [ exact E | ]. split; [ exact L' | lia ]. }
  destruct (Loop (Z.to_nat iters) 0 (ParameterBucket.value (Model.param_list_ m))
                 (Num 0%Qc) eq_refl) as (v' & rounds & early & -> & L & B).
  cbn [bind]. eexists. split; [ reflexivity | ].
  cbn [Regression.model Regression.rounds_applied].
  split; [ reflexivity | ]. split; [ | lia ].
  unfold Model.get_num_param, ParameterBucket.get_num_param. simpl. exact L.
Qed.

Lemma train_test_completes_witness :
  exists out,
    Regression.train_test flat_model [[pos_1]; [pos_2]] [[neg_1]] 7 (of_int 1) = Ok out /\
    Regression.rounds_applied out <= 7.
Proof.
  destruct (@train_test_completes flat_model unit_gradient flat_error
              [[pos_1]; [pos_2]] [[neg_1]] 7 (of_int 1))
    as (out & E & _ & _ & B).
  - vm_compute. lia.
  - reflexivity.
  - reflexivity.
  - intro H. vm_compute in H. discriminate H.
  - intros obj cv H. simpl. vm_compute. lia.
  - intros obj p. eexists. reflexivity.
  - exists out. split; [ exact E | exact B ].
Defined.

(** ** The SVM end to end *)

Lemma sum_list_indicator {A : Type} (p : A -> bool) (l : list A) :
  sum_list (map (fun a => if p a then 1%Qc else 0%Qc) l)
  = of_int (Z.of_nat (length (filter p l))).
Proof.
  induction l as [|a l IH]; [ reflexivity | ].
  cbn [map sum_list fold_right filter].
  fold (sum_list (map (fun a => if p a then 1%Qc else 0%Qc) l)). rewrite IH.
  destruct (p a).
  - cbn [length]. rewrite Nat2Z.inj_succ, <- Z.add_1_l, of_int_add, of_int_1. reflexivity.
  - ring.
Qed.

(** X18. For a model that carries the SVM error closure and parameters
    [(w, b)], on records with as many features as there are weights, the
    average error over a non-empty dataset is the fraction of its records
    whose margin [y (w.x + b)] is at most zero. *)
Theorem svm_avg_error_is_error_rate (m : Model.t) (w : Vector) (b : Qc)
        (data : list (list LabeledPointHObj)) :
  Model.error_func_ m = Some SVM.error_func_ ->
  ParameterBucket.value (Model.param_list_ m) = w ++ [b] ->
  (forall obj, In obj (concat data) -> length (x obj) = length w) ->
  0 < length (concat data) ->
  Model.avg_error m data
  = Ok (Num (of_int (Z.of_nat (length (filter
                (fun obj => Qc_leb (y obj * (dot w (x obj) + b)) 0) (concat data))))
             / of_int (Z.of_nat (length (concat data))))%Qc).
Proof.
  intros Hef Hv Hfit Hn.
  rewrite (@avg_error_closed_form m SVM.error_func_
             (fun obj => if Qc_leb (y obj * (dot w (x obj) + b)) 0 then 1%Qc else 0%Qc)
             Hef data).
  - rewrite sum_list_indicator. unfold dbl_div_int.
    destruct (Z.eqb_spec (Z.of_nat (length (concat data))) 0) as [|_]; [ lia | ].
    reflexivity.
  - intros [xs lbl] Ho. destruct (Model.param_list_ m) as [val pend].
    cbn [ParameterBucket.value] in Hv. subst val.
    apply svm_error_func_indicator. symmetry. exact (Hfit _ Ho).
Qed.

Lemma svm_avg_error_is_error_rate_witness :
  Model.avg_error svm_1_0 [[pos_2; neg_1]; [pos_1; neg_3]]
  = Ok (Num (of_int 1 / of_int 4)%Qc).
Proof.
  rewrite (@svm_avg_error_is_error_rate svm_1_0 [of_int 1] (of_int 0)
             [[pos_2; neg_1]; [pos_1; neg_3]]).
  - qc_compute.
  - reflexivity.
  - reflexivity.
  - intros obj [<- | [<- | [<- | [<- | []]]]]; reflexivity.
  - simpl. lia.
Defined.

(** [SVM::train] on a sound configuration, with what it leaves in place. *)
Lemma svm_train_run (s : SVMTrain.t) (data : list (list LabeledPointHObj))
      (num_iters : Z) (lr : Qc) :
  0 < Model.get_num_param (SVMTrain.base s) ->
  Model.gradient_func_ (SVMTrain.base s) = Some SVM.gradient_func_ ->
  lr <> 0%Qc ->
  (Model.report_per_round (SVMTrain.base s) = true ->
   (0 <= Model.num_feature_ (SVMTrain.base s))%Z /\
   Z.to_nat (Model.num_feature_ (SVMTrain.base s)) < Model.get_num_param (SVMTrain.base s) /\
   forall obj, In obj (concat data) ->
               length (x obj) <= Model.get_num_param (SVMTrain.base s)) ->
  exists s',
    SVMTrain.train s data num_iters lr = Ok s' /\
    Model.get_num_param (SVMTrain.base s') = Model.get_num_param (SVMTrain.base s) /\
    Model.error_func_ (SVMTrain.base s') = Model.error_func_ (SVMTrain.base s).
Proof.
  intros Hn Hg Hlr Hrep. unfold SVMTrain.train.
  apply Nat.ltb_lt in Hn. rewrite Hn. cbn [ASSERT_MSG bind]. rewrite Hg.
  destruct (@svm_train_loop_total
              (SVMTrain.jobs_of (SGD.make (Some SVM.gradient_func_) lr)
                                (SVMTrain.lambda_ s) data)
              data lr (SVMTrain.count_samples data)
              (Model.get_num_param (SVMTrain.base s)) (Z.to_nat num_iters)
              (SVMTrain.base s) Hlr) as (m' & -> & K & _ & F); auto.
  - intros job Hin.
    assert (P : exists part, In part data /\ snd job = part /\
                             SGD.gradient_func_ (fst job) = Some SVM.gradient_func_ /\
                             SGD.learning_rate_ (fst job) = lr).
    { destruct data as [|part0 rest]; [ destruct Hin | ].
      destruct Hin as [<- | Hin].
      - exists part0. repeat split. now left.
      - apply in_map_iff in Hin. destruct Hin as (part & <- & Hp).
        exists part. repeat split. now right. }
    destruct P as (part & Hp & Hs & G & L). split; [ exact G | ]. split; [ exact L | ].
    destruct (Z.eq_dec (SVMTrain.count_samples data) 0) as [Z0 | NZ]; [ | now left ].
    right. rewrite Hs. exact (sizes_sum_zero data Z0 part Hp).
  - cbn [bind]. eexists. split; [ reflexivity | ].
    cbn. split; [ exact K | exact F ].
Qed.

(** X20. The driver of [svm.cpp] completes on well-formed data: for an int
    feature count [num_features] with [0 <= num_features < INT_MAX], a
    non-zero rate, and records of the training set and of the test set that
    all have exactly [num_features] features, it reports an error rate
    between 0 and 1 when the test set holds at least one record, and the
    not-a-number of [0.0 / 0] when it holds none. *)
Theorem svm_driver_completes (lambda alpha : Qc) (nf : Z)
        (train_set test_set : list (list LabeledPointHObj)) (num_iter : Z) (uninit : Qc) :
  (0 <= nf < INT_MAX)%Z ->
  alpha <> 0%Qc ->
  (forall obj, In obj (concat train_set) -> length (x obj) = Z.to_nat nf) ->
  (forall obj, In obj (concat test_set) -> length (x obj) = Z.to_nat nf) ->
  exists r,
    SvmDriver.svm lambda alpha nf train_set test_set num_iter uninit = Ok r /\
    (0 < length (concat test_set) -> exists q, r = Num q /\ (0 <= q)%Qc /\ (q <= 1)%Qc) /\
    (length (concat test_set) = 0 -> r = NaN).
Proof.
  intros Hnf Ha Htrain Htest.
  unfold SvmDriver.svm, SVMTrain.construct, SVM.make, Model.make, Model.set_num_param.
  rewrite int_add_in_range by (unfold INT_MIN, INT_MAX in *; lia).
  destruct (Z.ltb_spec 0 (nf + 1)) as [_|]; [ | lia ].
  cbn [bind].
  match goal with
  | |- context [SVMTrain.train ?s0 _ _ _] => set (s := s0)
  end.
  assert (K0 : Model.get_num_param (SVMTrain.base s) = Z.to_nat nf + 1).
  { unfold s, Model.get_num_param, ParameterBucket.get_num_param. simpl.
    rewrite repeat_length. lia. }
  destruct (@svm_train_run s train_set num_iter alpha) as (s' & -> & K & F).
  - lia.
  - reflexivity.
  - exact Ha.
  - intros _. rewrite K0. split; [ exact (proj1 Hnf) | ]. split; [ simpl; lia | ].
    intros obj Ho. rewrite (Htrain obj Ho). lia.
  - cbn [bind].
    change (Model.error_func_ (SVMTrain.base s)) with (Some SVM.error_func_) in F.
    rewrite K0 in K. unfold Model.get_num_param, ParameterBucket.get_num_param in K.
    destruct (@vector_split_last _ _ K) as (w & b & Hv & Lw).
    set (e := fun obj => if Qc_leb (y obj * (dot w (x obj) + b)) 0 then 1%Qc else 0%Qc).
    assert (Hall : forall obj, In obj (concat test_set) ->
                     SVM.error_func_ obj (Model.param_list_ (SVMTrain.base s'))
                     = Ok (e obj) /\ (0 <= e obj)%Qc /\ (e obj <= 1)%Qc).
    { intros [xs lbl] Ho. split.
      - destruct (Model.param_list_ (SVMTrain.base s')) as [val pend].
        cbn [ParameterBucket.value] in Hv. subst val.
        apply svm_error_func_indicator. rewrite Lw. symmetry. exact (Htest _ Ho).
      - unfold e. destruct (Qc_leb _ _); split; vm_compute; discriminate. }
    destruct (Nat.eq_dec (length (concat test_set)) 0) as [Z0 | NZ].
    + rewrite (@avg_error_closed_form (SVMTrain.base s') SVM.error_func_ e F test_set)
        by (intros obj Ho; apply Hall; exact Ho).
      rewrite Z0. eexists. split; [ reflexivity | ].
      split; [ intro H; lia | reflexivity ].
    + destruct (@avg_error_in_unit_interval (SVMTrain.base s') SVM.error_func_ e test_set
                  F Hall) as (q & -> & B); [ lia | ].
      eexists. split; [ reflexivity | ]. split; [ | intro H; lia ].
      intros _. exists q. split; [ reflexivity | exact B ].
Qed.

Lemma svm_driver_completes_witness :
  exists r,
    SvmDriver.svm (of_int 1 / of_int 10)%Qc (of_int 1 / of_int 2)%Qc 1
                  [[pos_1; neg_1]; [pos_2]] [[pos_2; neg_1]; [neg_3]] 3 (of_int 0) = Ok r /\
    exists q, r = Num q /\ (0 <= q)%Qc /\ (q <= 1)%Qc.
Proof.
  destruct (@svm_driver_completes (of_int 1 / of_int 10)%Qc (of_int 1 / of_int 2)%Qc 1
              [[pos_1; neg_1]; [pos_2]] [[pos_2; neg_1]; [neg_3]] 3 (of_int 0))
    as (r & E & P & _).
  - vm_compute. split; [ discriminate | reflexivity ].
  - intro H. vm_compute in H. discriminate H.
  - intros obj [<- | [<- | [<- | []]]]; reflexivity.
  - intros obj [<- | [<- | [<- | []]]]; reflexivity.
  - exists r. split; [ exact E | ]. apply P. simpl. lia.
Defined.
